(** * Study-Ai: page-by-page analysis, consolidation and quiz sanitisation

    A shallow embedding of the orchestration code of the PDF page navigator
    (the React component [PdfPageNavigator]) and of the Gemini service module
    ([generateContentWithRetry], [analyzeIndividualPage], [generateQuestions]).

    Conventions of the embedding:
    - a JavaScript [Map] is an association list in insertion order;
    - [Map] objects live in a heap and are named by references, because the
      state updater [prev => new Map(prev.set(k, v))] mutates the previous
      object, which the closures of the current render still hold;
    - the functions of the component are closures over the values of one
      render: they take that render ([Render]) as an argument and read the
      state variables from it, not from the live state;
    - an [async] function is a function from the world to a completion
      (normal or thrown), the new world and the events it emitted, in order;
    - the generative model and the record store are oracles indexed by the
      number of calls made so far; each answer carries its latency;
    - a string is a sequence of code units below 256, and [substring],
      [length] and [trim] count and test these code units. *)

From Stdlib Require Import ZArith List Ascii.
From stdpp Require Import base numbers option list strings pretty gmap sorting.

Local Open Scope Z_scope.
Local Set Warnings "-register-all".

(** ** Strings *)

Module Str.

(** The double-quote character, kept out of literals. *)
Definition dq : string := String "034"%char "".

(** [s.includes(needle)] *)
Fixpoint includes (needle s : string) : bool :=
  String.prefix needle s ||
  match s with
  | "" => false
  | String _ s' => includes needle s'
  end.

(** White space of [String.prototype.trim], for code units below 256. *)
Definition is_white (c : ascii) : bool :=
  match c with
  | "009" | "010" | "011" | "012" | "013" | " " | "160" => true
  | _ => false
  end%char.

Fixpoint trimStart (s : string) : string :=
  match s with
  | "" => ""
  | String c s' => if is_white c then trimStart s' else s
  end.

Definition trimEnd (s : string) : string :=
  String.rev (trimStart (String.rev s)).

(** [s.trim()] *)
Definition trim (s : string) : string := trimEnd (trimStart s).

(** Truthiness of a string: only the empty string is falsy. *)
Definition truthy (s : string) : bool :=
  match s with "" => false | _ => true end.

(** [xs.join(sep)] *)
Fixpoint join (sep : string) (xs : list string) : string :=
  match xs with
  | [] => ""
  | [x] => x
  | x :: rest => x +:+ sep +:+ join sep rest
  end.

(** [s.substring(0, n)] *)
Definition substring0 (n : nat) (s : string) : string := String.substring 0 n s.

Definition nl : string := String "010"%char "".

End Str.

(** ** Data model *)

Inductive Importance := high | medium | low.

Record StudyPoint := {
  sp_title : string;
  sp_description : string;
  sp_importance : Importance;
  sp_tnpscRelevance : string
}.

(** interface PageAnalysis; [tnpscCategories] is the extra property that
    [analyzeIndividualPage] returns and the spread in [analyzePage] keeps
    (absent in the synthesised empty analysis). *)
Record PageAnalysis := {
  pageNumber : Z;
  keyPoints : list string;
  studyPoints : list StudyPoint;
  summary : string;
  tnpscRelevance : string;
  tnpscCategories : option (list string);
  isAnalyzed : bool
}.

(** The object built by the two consolidation functions. *)
Record AnalysisResult := {
  ar_keyPoints : list string;
  ar_summary : string;
  ar_tnpscRelevance : string;
  ar_studyPoints : list StudyPoint;
  ar_tnpscCategories : list string;
  ar_mainTopic : string
}.

Inductive Language := english | tamil.

Record File := { file_name : string; file_size : Z }.

Record User := { uid : string }.

(** ** JavaScript Map<number, PageAnalysis>, in insertion order *)

Definition JSMap := list (Z * PageAnalysis).

Fixpoint Map_get (k : Z) (m : JSMap) : option PageAnalysis :=
  match m with
  | [] => None
  | (k', v) :: m' => if Z.eqb k k' then Some v else Map_get k m'
  end.

Definition Map_has (k : Z) (m : JSMap) : bool :=
  match Map_get k m with Some _ => true | None => false end.

(** [m.set(k, v)]: an existing key keeps its position. *)
Fixpoint Map_set (k : Z) (v : PageAnalysis) (m : JSMap) : JSMap :=
  match m with
  | [] => [(k, v)]
  | (k', v') :: m' =>
      if Z.eqb k k' then (k, v) :: m' else (k', v') :: Map_set k v m'
  end.

Definition Map_values (m : JSMap) : list PageAnalysis := map snd m.

Definition Map_keys (m : JSMap) : list Z := map fst m.

(** [pageAnalyses.has(p) && pageAnalyses.get(p)?.isAnalyzed] *)
Definition pageDone (p : Z) (m : JSMap) : bool :=
  Map_has p m &&
  match Map_get p m with Some a => isAnalyzed a | None => false end.

(** ** Events and asynchronous computations *)

Inductive ToastKind := toast_success | toast_error | toast_info | toast_warning.

Inductive StoreOutcome := Stored (id : string) | StoreFailed (message : string).

(** The metadata argument of [saveStudyHistory]. *)
Record SaveMeta := {
  meta_fileName : string;
  meta_difficulty : string;
  meta_language : Language;
  meta_pageAnalysesMap : gmap string PageAnalysis;
  meta_files : list File
}.

Inductive Event :=
  (** [await new Promise(resolve => setTimeout(resolve, ms))] *)
  | EvSleep (ms : Z)
  (** one [model.generateContent] call and whether it produced parsed JSON *)
  | EvModelCall (prompt : string) (maxOutputTokens : Z) (ok : bool)
  (** one [analyzeIndividualPage] call: time of the call, arguments, and
      [None] when it resolved or the message of the error it rejected with *)
  | EvAnalyze (at_ms : Z) (page : Z) (content : string) (failure : option string)
  | EvToast (kind : ToastKind) (message : string)
  (** [saveStudyHistory(uid, "analysis", [result], meta)] *)
  | EvCreate (owner : string) (result : AnalysisResult) (meta : SaveMeta)
             (outcome : StoreOutcome)
  (** [updateStudyHistory(id, result, pageAnalysesMap)] *)
  | EvUpdate (id : string) (result : AnalysisResult)
             (pages : gmap string PageAnalysis) (outcome : StoreOutcome).

Inductive Completion (A : Type) :=
  | Normal (a : A)
  | Throw (message : string).
Arguments Normal {A} a.
Arguments Throw {A} message.

Definition Async (S A : Type) : Type := S → Completion A * S * list Event.

Definition ret {S A} (a : A) : Async S A := λ s, (Normal a, s, []).

Definition throw {S A} (message : string) : Async S A := λ s, (Throw message, s, []).

Definition bind {S A B} (m : Async S A) (f : A → Async S B) : Async S B :=
  λ s, match m s with
       | (Normal a, s1, t1) =>
           match f a s1 with (r, s2, t2) => (r, s2, t1 ++ t2) end
       | (Throw e, s1, t1) => (Throw e, s1, t1)
       end.

(** [try { m } catch (error) { h error }] *)
Definition try_catch {S A} (m : Async S A) (h : string → Async S A) : Async S A :=
  λ s, match m s with
       | (Normal a, s1, t1) => (Normal a, s1, t1)
       | (Throw e, s1, t1) =>
           match h e s1 with (r, s2, t2) => (r, s2, t1 ++ t2) end
       end.

Definition emit {S} (e : Event) : Async S unit := λ s, (Normal tt, s, [e]).

Definition gets {S A} (f : S → A) : Async S A := λ s, (Normal (f s), s, []).

Definition modify {S} (f : S → S) : Async S unit := λ s, (Normal tt, f s, []).

Declare Scope async_scope.
Delimit Scope async_scope with async.
Notation "'let*' x ':=' m 'in' k" := (bind m (λ x, k))
  (at level 10, x pattern, m at level 99, k at level 200) : async_scope.
Notation "m ;; k" := (bind m (λ _, k))
  (at level 100, right associativity) : async_scope.
Local Open Scope async_scope.

Definition completion {S A} (r : Completion A * S * list Event) : Completion A := r.1.1.
Definition world_of {S A} (r : Completion A * S * list Event) : S := r.1.2.
Definition events {S A} (r : Completion A * S * list Event) : list Event := r.2.

(** ** The network: clock and generative model *)

Record Net := {
  clock : Z;          (** milliseconds elapsed *)
  modelCalls : nat    (** [model.generateContent] calls made so far *)
}.

Inductive ModelOutcome (A : Type) :=
  | ModelOk (parsed : A)          (** [JSON.parse(result.response.text())] *)
  | ModelErr (message : string).  (** the call or the parse threw *)
Arguments ModelOk {A} parsed.
Arguments ModelErr {A} message.

(** The model: call index, prompt and output limit to latency and outcome. *)
Definition Gemini (A : Type) : Type := nat → string → Z → N * ModelOutcome A.

Definition advance (ms : Z) (n : Net) : Net :=
  {| clock := clock n + ms; modelCalls := modelCalls n |}.

Definition sleepNet (ms : Z) : Async Net unit :=
  λ n, (Normal tt, advance (Z.max 0 ms) n, [EvSleep ms]).

(** [model.generateContent] followed by [JSON.parse], both inside the [try]. *)
Definition generateContent {A} (gemini : Gemini A) (prompt : string) (maxTok : Z)
  : Async Net A :=
  λ n, let answer := gemini (modelCalls n) prompt maxTok in
       let n1 := {| clock := clock n + Z.of_N answer.1;
                    modelCalls := S (modelCalls n) |} in
       match answer.2 with
       | ModelOk a => (Normal a, n1, [EvModelCall prompt maxTok true])
       | ModelErr e => (Throw e, n1, [EvModelCall prompt maxTok false])
       end.

Definition defaultMaxOutputTokens : Z := 3000.

(** The [for] loop of [generateContentWithRetry]: [remaining] iterations are
    left, [i] is the loop counter, [lastError] the message caught last. *)
Fixpoint generateContentLoop {A} (gemini : Gemini A) (prompt : string) (maxTok : Z)
    (retries : Z) (remaining : nat) (i : Z) (lastError : option string)
  : Async Net A :=
  match remaining with
  | O =>
      throw ("Gemini API call failed after " +:+ pretty retries +:+
             " attempts. Last error: " +:+ default "undefined" lastError)
  | S remaining' =>
      try_catch (generateContent gemini prompt maxTok)
        (λ error,
           (if i <? retries - 1 then sleepNet (1000 * (i + 1)) else ret tt) ;;
           generateContentLoop gemini prompt maxTok retries remaining' (i + 1)
             (Some error))
  end.

Definition generateContentWithRetry {A} (gemini : Gemini A) (prompt : string)
    (maxTok : Z) (retries : Z) : Async Net A :=
  generateContentLoop gemini prompt maxTok retries (Z.to_nat retries) 0 None.

(** ** geminiService: analyzeIndividualPage *)

(** The properties that [analyzeIndividualPage] reads from the parsed answer
    of the model, typed by the JSON structure that the prompt asks for;
    [None] is a property that is missing or falsy, which [||] replaces, and
    a value that is not an object has none. *)
Record RawAnalysis := {
  raw_keyPoints : option (list string);
  raw_studyPoints : option (list StudyPoint);
  raw_summary : option string;
  raw_tnpscRelevance : option string;
  raw_tnpscCategories : option (list string)
}.

(** The value of [JSON.parse] on the answer to the page prompt: [null], or
    a value whose properties can be read. *)
Inductive Parsed :=
  | ParsedNull
  | ParsedValue (properties : RawAnalysis).

(** The message of the TypeError of [analysis.keyPoints] when [analysis] is
    [null], in the wording of V8. *)
Definition msgNullAnalysis : string :=
  "Cannot read properties of null (reading 'keyPoints')".

Definition quoted (s : string) : string := Str.dq +:+ s +:+ Str.dq.

Definition pageSchema : list string :=
  [ "";
    "Return a single, valid JSON object with this exact structure:";
    "{";
    "  " +:+ quoted "keyPoints" +:+ ": [" +:+
      quoted "At least 8 short, crisp, memorizable points" +:+ "],";
    "  " +:+ quoted "studyPoints" +:+ ": [{" +:+
      quoted "title" +:+ ": " +:+ quoted "string" +:+ ", " +:+
      quoted "description" +:+ ": " +:+ quoted "string" +:+ ", " +:+
      quoted "importance" +:+ ": " +:+ quoted "high|medium|low" +:+ ", " +:+
      quoted "tnpscRelevance" +:+ ": " +:+ quoted "string" +:+ "}],";
    "  " +:+ quoted "summary" +:+ ": " +:+
      quoted "Brief summary of the page content" +:+ ",";
    "  " +:+ quoted "tnpscRelevance" +:+ ": " +:+
      quoted "How this page's content relates to TNPSC exams" +:+ ",";
    "  " +:+ quoted "tnpscCategories" +:+ ": [" +:+
      quoted "Category1" +:+ ", " +:+ quoted "Category2" +:+ "]";
    "}";
    "Focus on names, dates, places, events, definitions, and key data." ].

(** The number of characters of the page text that the prompt keeps. *)
Definition contentLimit : nat := Z.to_nat 15000.

Definition pagePrompt (textContent : string) (page : Z) (lang : Language) : string :=
  let languageInstruction :=
    match lang with
    | tamil => "Provide all responses in Tamil."
    | english => "Provide all responses in English."
    end in
  Str.nl +:+
  "Analyze this content from page " +:+ pretty page +:+
  " of a PDF for TNPSC exam preparation. " +:+ languageInstruction +:+ Str.nl +:+
  "Content: " +:+ Str.dq +:+ Str.dq +:+ Str.dq +:+
  Str.substring0 contentLimit textContent +:+
  Str.dq +:+ Str.dq +:+ Str.dq +:+ Str.nl +:+
  Str.join Str.nl pageSchema.

(** [x || ''] on an optional string property. *)
Definition orEmpty (o : option string) : string := default "" o.

(** The object returned has no [isAnalyzed] property, which reads as falsy. *)
Definition analyzeIndividualPage (gemini : Gemini Parsed)
    (textContent : string) (page : Z) (lang : Language) : Async Net PageAnalysis :=
  let* analysis :=
    generateContentWithRetry gemini (pagePrompt textContent page lang) 2500 3 in
  match analysis with
  | ParsedNull => throw msgNullAnalysis
  | ParsedValue analysis =>
      ret {| pageNumber := page;
             keyPoints := default [] (raw_keyPoints analysis);
             studyPoints := default [] (raw_studyPoints analysis);
             summary := orEmpty (raw_summary analysis);
             tnpscRelevance := orEmpty (raw_tnpscRelevance analysis);
             tnpscCategories := Some (default [] (raw_tnpscCategories analysis));
             isAnalyzed := false |}
  end.

(** ** The component: state, renders and the record store *)

Record World := {
  net : Net;
  heap : list JSMap;                    (** the Map objects allocated so far *)
  pageAnalysesRef : nat;                (** state [pageAnalyses] *)
  studyHistoryId : option string;       (** state [studyHistoryId] *)
  isAnalyzing : bool;                   (** state [isAnalyzing] *)
  sessionStorage : gmap string string;
  storeCalls : nat                      (** store calls made so far *)
}.

Definition set_net (n : Net) (w : World) : World :=
  {| net := n; heap := heap w; pageAnalysesRef := pageAnalysesRef w;
     studyHistoryId := studyHistoryId w; isAnalyzing := isAnalyzing w;
     sessionStorage := sessionStorage w; storeCalls := storeCalls w |}.

Definition set_pages (h : list JSMap) (ref : nat) (w : World) : World :=
  {| net := net w; heap := h; pageAnalysesRef := ref;
     studyHistoryId := studyHistoryId w; isAnalyzing := isAnalyzing w;
     sessionStorage := sessionStorage w; storeCalls := storeCalls w |}.

Definition withStudyHistoryId (id : option string) (w : World) : World :=
  {| net := net w; heap := heap w; pageAnalysesRef := pageAnalysesRef w;
     studyHistoryId := id; isAnalyzing := isAnalyzing w;
     sessionStorage := sessionStorage w; storeCalls := storeCalls w |}.

Definition withIsAnalyzing (b : bool) (w : World) : World :=
  {| net := net w; heap := heap w; pageAnalysesRef := pageAnalysesRef w;
     studyHistoryId := studyHistoryId w; isAnalyzing := b;
     sessionStorage := sessionStorage w; storeCalls := storeCalls w |}.

Definition withSessionItem (key value : string) (w : World) : World :=
  {| net := net w; heap := heap w; pageAnalysesRef := pageAnalysesRef w;
     studyHistoryId := studyHistoryId w; isAnalyzing := isAnalyzing w;
     sessionStorage := <[key := value]> (sessionStorage w);
     storeCalls := storeCalls w |}.

(** The Map object behind a reference. *)
Definition deref (h : list JSMap) (ref : nat) : JSMap := default [] (h !! ref).

(** The live value of the state [pageAnalyses]. *)
Definition pagesOf (w : World) : JSMap := deref (heap w) (pageAnalysesRef w).

(** The state after [prev => new Map(prev.set(page, analysis))]: the current
    Map object is mutated, then copied into a fresh object that becomes the
    state. *)
Definition withPage (page : Z) (analysis : PageAnalysis) (w : World) : World :=
  let prev := pageAnalysesRef w in
  let m := Map_set page analysis (deref (heap w) prev) in
  set_pages (<[prev := m]> (heap w) ++ [m]) (length (heap w)) w.

Definition setStudyHistoryId (id : option string) : Async World unit :=
  modify (withStudyHistoryId id).

Definition setIsAnalyzing (b : bool) : Async World unit :=
  modify (withIsAnalyzing b).

(** [sessionStorage.setItem(key, value)] *)
Definition sessionStorage_setItem (key value : string) : Async World unit :=
  modify (withSessionItem key value).

(** [setPageAnalyses(prev => new Map(prev.set(page, analysis)))] *)
Definition setPageAnalyses (page : Z) (analysis : PageAnalysis) : Async World unit :=
  modify (withPage page analysis).

Definition liftNet {A} (m : Async Net A) : Async World A :=
  λ w, match m (net w) with (r, n, t) => (r, set_net n w, t) end.

Definition sleep (ms : Z) : Async World unit := liftNet (sleepNet ms).

(** The values that the closures of one render see. *)
Record Render := {
  user : option User;
  file : File;
  totalPages : Z;
  fullText : string;
  outputLanguage : Language;
  r_pageAnalyses : nat;                (** the Map object bound to [pageAnalyses] *)
  r_studyHistoryId : option string     (** the value bound to [studyHistoryId] *)
}.

(** [if (studyHistoryId)]: null and the empty string are falsy. *)
Definition truthyId (id : option string) : option string :=
  match id with
  | Some s => if Str.truthy s then Some s else None
  | None => None
  end.

Definition sessionKey (f : File) : string :=
  "studyHistoryId_" +:+ file_name f +:+ "_" +:+ pretty (file_size f).

(** The record store: call index to latency and outcome. *)
Definition Store : Type := nat → N * StoreOutcome.

(** The world once a store call has been answered. *)
Definition afterStoreCall (latency : N) (w : World) : World :=
  {| net := advance (Z.of_N latency) (net w); heap := heap w;
     pageAnalysesRef := pageAnalysesRef w;
     studyHistoryId := studyHistoryId w; isAnalyzing := isAnalyzing w;
     sessionStorage := sessionStorage w;
     storeCalls := S (storeCalls w) |}.

Definition callStore (store : Store) (ev : StoreOutcome → Event) : Async World string :=
  λ w, let w1 := afterStoreCall (store (storeCalls w)).1 w in
       match (store (storeCalls w)).2 with
       | Stored id => (Normal id, w1, [ev (Stored id)])
       | StoreFailed e => (Throw e, w1, [ev (StoreFailed e)])
       end.

Definition saveStudyHistory (store : Store) (owner : string)
    (result : AnalysisResult) (meta : SaveMeta) : Async World string :=
  callStore store (EvCreate owner result meta).

Definition updateStudyHistory (store : Store) (id : string)
    (result : AnalysisResult) (pages : gmap string PageAnalysis) : Async World unit :=
  callStore store (EvUpdate id result pages) ;; ret tt.

(** ** Consolidation *)

Definition msgSaveFailed : string := "Failed to save study progress".

Definition pageLabel (p : PageAnalysis) (text : string) : string :=
  "Page " +:+ pretty (pageNumber p) +:+ ": " +:+ text.

(** [xs.sort((a, b) => a - b)] *)
Definition sortNumbers (xs : list Z) : list Z := merge_sort Z.le xs.

Definition paragraphBreak : string := Str.nl +:+ Str.nl.

Definition pagesTopic (fileName : string) (analyzedPagesList : list PageAnalysis)
  : string :=
  fileName +:+ " - Pages " +:+
  Str.join ", " (map pretty (sortNumbers (map pageNumber analyzedPagesList))).

Definition pagesCategory (analyzedPagesList : list PageAnalysis) : list string :=
  ["PDF Analysis - " +:+ pretty (length analyzedPagesList) +:+ " pages"].

(** [Array.from(m.values()).filter(p => p.isAnalyzed)] *)
Definition analyzedPagesListOf (m : JSMap) : list PageAnalysis :=
  List.filter isAnalyzed (Map_values m).

(** The [analysisResult] of [saveConsolidatedHistoryForPage]. *)
Definition analysisResultForPage (fileName : string)
    (analyzedPagesList : list PageAnalysis) : AnalysisResult :=
  {| ar_keyPoints := flat_map keyPoints analyzedPagesList;
     ar_summary :=
       Str.join paragraphBreak
         (map (λ page, pageLabel page (summary page)) analyzedPagesList);
     ar_tnpscRelevance :=
       Str.join paragraphBreak
         (map (λ page, pageLabel page (tnpscRelevance page)) analyzedPagesList);
     ar_studyPoints := flat_map studyPoints analyzedPagesList;
     ar_tnpscCategories := pagesCategory analyzedPagesList;
     ar_mainTopic := pagesTopic fileName analyzedPagesList |}.

(** The [analysisResult] of [saveConsolidatedHistory]: key points and study
    point titles carry the page label. *)
Definition analysisResultAll (fileName : string)
    (analyzedPagesList : list PageAnalysis) : AnalysisResult :=
  {| ar_keyPoints :=
       flat_map (λ page, map (λ point, pageLabel page point) (keyPoints page))
         analyzedPagesList;
     ar_summary :=
       Str.join paragraphBreak
         (map (λ page, pageLabel page (summary page)) analyzedPagesList);
     ar_tnpscRelevance :=
       Str.join paragraphBreak
         (map (λ page, pageLabel page (tnpscRelevance page)) analyzedPagesList);
     ar_studyPoints :=
       flat_map (λ page,
           map (λ point,
                  {| sp_title := pageLabel page (sp_title point);
                     sp_description := sp_description point;
                     sp_importance := sp_importance point;
                     sp_tnpscRelevance := sp_tnpscRelevance point |})
               (studyPoints page))
         analyzedPagesList;
     ar_tnpscCategories := pagesCategory analyzedPagesList;
     ar_mainTopic := pagesTopic fileName analyzedPagesList |}.

(** [pageAnalysesMapForFirestore] *)
Definition pageAnalysesMapForFirestore (m : JSMap) : gmap string PageAnalysis :=
  fold_left
    (λ acc kv, if isAnalyzed kv.2 then <[pretty kv.1 := kv.2]> acc else acc)
    m ∅.

Definition saveMeta (r : Render) (pages : gmap string PageAnalysis) : SaveMeta :=
  {| meta_fileName := file_name (file r);
     meta_difficulty := "medium";
     meta_language := outputLanguage r;
     meta_pageAnalysesMap := pages;
     meta_files := [file r] |}.

Definition saveConsolidatedHistoryForPage (store : Store) (r : Render)
    (currentPageNum : Z) (currentPageAnalysis : PageAnalysis) : Async World unit :=
  match user r with
  | None => ret tt
  | Some u =>
      try_catch
        (let* pageAnalyses := gets (λ w, deref (heap w) (r_pageAnalyses r)) in
         let currentPageAnalyses :=
           Map_set currentPageNum currentPageAnalysis pageAnalyses in
         let analyzedPagesList := analyzedPagesListOf currentPageAnalyses in
         if (length analyzedPagesList =? 0)%nat then ret tt
         else
           let analysisResult :=
             analysisResultForPage (file_name (file r)) analyzedPagesList in
           let forFirestore := pageAnalysesMapForFirestore currentPageAnalyses in
           match truthyId (r_studyHistoryId r) with
           | Some id => updateStudyHistory store id analysisResult forFirestore
           | None =>
               let* newId :=
                 saveStudyHistory store (uid u) analysisResult
                   (saveMeta r forFirestore) in
               setStudyHistoryId (Some newId) ;;
               sessionStorage_setItem (sessionKey (file r)) newId
           end)
        (λ error, emit (EvToast toast_error msgSaveFailed))
  end.

Definition saveConsolidatedHistory (store : Store) (r : Render) : Async World unit :=
  match user r with
  | None => ret tt
  | Some u =>
      try_catch
        (let* pageAnalyses := gets (λ w, deref (heap w) (r_pageAnalyses r)) in
         let analyzedPagesList := analyzedPagesListOf pageAnalyses in
         if (length analyzedPagesList =? 0)%nat then ret tt
         else
           let analysisResult :=
             analysisResultAll (file_name (file r)) analyzedPagesList in
           let forFirestore := pageAnalysesMapForFirestore pageAnalyses in
           match truthyId (r_studyHistoryId r) with
           | Some id => updateStudyHistory store id analysisResult forFirestore
           | None =>
               let* newId :=
                 saveStudyHistory store (uid u) analysisResult
                   (saveMeta r forFirestore) in
               setStudyHistoryId (Some newId)
           end)
        (λ error, ret tt)
  end.

(** ** The page navigator *)

Record Props := {
  p_file : File;
  p_totalPages : Z;
  p_fullText : string;
  p_outputLanguage : Language;
  initialPageAnalyses : option JSMap;
  initialStudyHistoryId : option string
}.

(** The initialiser of the state [studyHistoryId]: the prop first, then the
    session storage entry of the file. *)
Definition initialStudyHistoryIdState (props : Props)
    (storage : gmap string string) : option string :=
  match truthyId (initialStudyHistoryId props) with
  | Some id => Some id
  | None => truthyId (storage !! sessionKey (p_file props))
  end.

(** The state of a freshly mounted component. *)
Definition mount (props : Props) (storage : gmap string string) (n : Net)
    (calls : nat) : World :=
  {| net := n;
     heap := [default [] (initialPageAnalyses props)];
     pageAnalysesRef := 0%nat;
     studyHistoryId := initialStudyHistoryIdState props storage;
     isAnalyzing := false;
     sessionStorage := storage;
     storeCalls := calls |}.

(** One render: the closures created by it see these values. *)
Definition render (props : Props) (u : option User) (w : World) : Render :=
  {| user := u;
     file := p_file props;
     totalPages := p_totalPages props;
     fullText := p_fullText props;
     outputLanguage := p_outputLanguage props;
     r_pageAnalyses := pageAnalysesRef w;
     r_studyHistoryId := studyHistoryId w |}.

(** The effect on [studyHistoryId]: mirror a set identifier into the
    session storage. *)
Definition syncSessionStorage (r : Render) : Async World unit :=
  match truthyId (r_studyHistoryId r) with
  | Some id => sessionStorage_setItem (sessionKey (file r)) id
  | None => ret tt
  end.

Definition emptyAnalysis (page : Z) : PageAnalysis :=
  {| pageNumber := page;
     keyPoints := [];
     studyPoints := [];
     summary := "No text content found on this page.";
     tnpscRelevance := "Not applicable for this page.";
     tnpscCategories := None;
     isAnalyzed := true |}.

(** [{ ...analysis, isAnalyzed: true }] *)
Definition markAnalyzed (analysis : PageAnalysis) : PageAnalysis :=
  {| pageNumber := pageNumber analysis;
     keyPoints := keyPoints analysis;
     studyPoints := studyPoints analysis;
     summary := summary analysis;
     tnpscRelevance := tnpscRelevance analysis;
     tnpscCategories := tnpscCategories analysis;
     isAnalyzed := true |}.

Definition msgSkipping (page : Z) : string :=
  "Skipping page " +:+ pretty page +:+ " as it has no text content.".

Definition msgAnalyzed (page : Z) : string :=
  "Page " +:+ pretty page +:+ " analyzed successfully!".

Definition msgRetrying (page delay : Z) : string :=
  "Rate limit reached. Retrying page " +:+ pretty page +:+ " in " +:+
  pretty (delay / 1000) +:+ "s...".

Definition msgFailed (page attempt : Z) : string :=
  "Failed to analyze page " +:+ pretty page +:+ " after " +:+
  pretty (attempt + 1) +:+ " attempts.".

Definition msgStopped (page : Z) : string :=
  "Analysis stopped due to a persistent error on page " +:+ pretty page +:+
  ". Please try again later.".

Definition msgAllDone : string := "All pages analyzed successfully!".

Section Navigator.

(** The generative model, the record store and the page extractor of
    [@/utils/pdfReader] are the collaborators of the component. *)
Variable gemini : Gemini Parsed.
Variable store : Store.
Variable extractPageRangeFromOcr : string → Z → Z → string.

(** [await analyzeIndividualPage(content, page, language)], recorded in
    the trace at the place of the call together with its outcome. *)
Definition callAnalyzeIndividualPage (content : string) (page : Z)
    (lang : Language) : Async World PageAnalysis :=
  λ w, match liftNet (analyzeIndividualPage gemini content page lang) w with
       | (Normal a, w1, t) =>
           (Normal a, w1, EvAnalyze (clock (net w)) page content None :: t)
       | (Throw e, w1, t) =>
           (Throw e, w1, EvAnalyze (clock (net w)) page content (Some e) :: t)
       end.

(** The body of the [try] block of [analyzePage]. *)
Definition analyzePageAttempt (r : Render) (page : Z) : Async World unit :=
  let pageContent := extractPageRangeFromOcr (fullText r) page page in
  if negb (Str.truthy (Str.trim pageContent)) then
    emit (EvToast toast_warning (msgSkipping page)) ;;
    setPageAnalyses page (emptyAnalysis page) ;;
    setIsAnalyzing false
  else
    let* analysis := callAnalyzeIndividualPage pageContent page (outputLanguage r) in
    let pageAnalysis := markAnalyzed analysis in
    setPageAnalyses page pageAnalysis ;;
    saveConsolidatedHistoryForPage store r page pageAnalysis ;;
    emit (EvToast toast_success (msgAnalyzed page)) ;;
    setIsAnalyzing false.

(** The test of the [catch] block of [analyzePage]:
    [error.message && error.message.includes("429") && attempt < maxRetries - 1] *)
Definition retryable (error : string) (attempt maxRetries : Z) : bool :=
  Str.truthy error && Str.includes "429" error && (attempt <? maxRetries - 1).

(** The [for] loop of [analyzePage]: the [try] block returns from the
    function, the [catch] block either goes to the next attempt or throws. *)
Fixpoint analyzePageLoop (r : Render) (page : Z) (maxRetries : Z)
    (remaining : nat) (attempt : Z) (delay : Z) : Async World unit :=
  match remaining with
  | O => ret tt
  | S remaining' =>
      try_catch (analyzePageAttempt r page)
        (λ error,
           if retryable error attempt maxRetries then
             emit (EvToast toast_info (msgRetrying page delay)) ;;
             sleep delay ;;
             analyzePageLoop r page maxRetries remaining' (attempt + 1)
               (delay * 2)
           else
             emit (EvToast toast_error (msgFailed page attempt)) ;;
             setIsAnalyzing false ;;
             throw error)
  end.

Definition maxRetries : Z := 3.
Definition initialDelay : Z := 2000.

Definition analyzePage (r : Render) (page : Z) : Async World unit :=
  let* pageAnalyses := gets (λ w, deref (heap w) (r_pageAnalyses r)) in
  if pageDone page pageAnalyses then ret tt
  else
    setIsAnalyzing true ;;
    analyzePageLoop r page maxRetries (Z.to_nat maxRetries) 0 initialDelay.

(** The [for] loop of [analyzeAllPages]; the result is [analysisSucceeded]. *)
Fixpoint analyzeAllLoop (r : Render) (remaining : nat) (i : Z) : Async World bool :=
  match remaining with
  | O => ret true
  | S remaining' =>
      let* pageAnalyses := gets (λ w, deref (heap w) (r_pageAnalyses r)) in
      if negb (pageDone i pageAnalyses) then
        let* proceed :=
          try_catch
            (analyzePage r i ;;
             (if i <? totalPages r then sleep 1000 else ret tt) ;;
             ret true)
            (λ error, emit (EvToast toast_error (msgStopped i)) ;; ret false) in
        if proceed : bool then analyzeAllLoop r remaining' (i + 1) else ret false
      else analyzeAllLoop r remaining' (i + 1)
  end.

Definition analyzeAllPages (r : Render) : Async World unit :=
  setIsAnalyzing true ;;
  let* analysisSucceeded := analyzeAllLoop r (Z.to_nat (totalPages r)) 1 in
  (if analysisSucceeded : bool then
     let* pageAnalyses := gets (λ w, deref (heap w) (r_pageAnalyses r)) in
     let finalAnalyzedCount := length (analyzedPagesListOf pageAnalyses) in
     if Z.of_nat finalAnalyzedCount =? totalPages r
     then emit (EvToast toast_success msgAllDone)
     else ret tt
   else ret tt) ;;
  setIsAnalyzing false.

(** The effect on [pageAnalyses]. *)
Definition consolidateEffect (r : Render) : Async World unit :=
  let* pageAnalyses := gets (λ w, deref (heap w) (r_pageAnalyses r)) in
  if (0 <? length (analyzedPagesListOf pageAnalyses))%nat
  then saveConsolidatedHistory store r
  else ret tt.

(** *** Sessions: operations run one after the other, each by the closures
    of the render of the state that the previous one left *)

Inductive Op :=
  | OpAnalyzePage (page : Z)      (** [analyzePage(page).catch(...)] *)
  | OpAnalyzeAll                  (** the Analyze All button *)
  | OpConsolidate                 (** the effect on [pageAnalyses] *)
  | OpSyncSession.                (** the effect on [studyHistoryId] *)

Definition runOp (props : Props) (u : option User) (op : Op) : Async World unit :=
  λ w, let r := render props u w in
       match op with
       | OpAnalyzePage page => try_catch (analyzePage r page) (λ _, ret tt) w
       | OpAnalyzeAll => analyzeAllPages r w
       | OpConsolidate => consolidateEffect r w
       | OpSyncSession => syncSessionStorage r w
       end.

Fixpoint runOps (props : Props) (u : option User) (ops : list Op)
  : Async World unit :=
  match ops with
  | [] => ret tt
  | op :: rest => runOp props u op ;; runOps props u rest
  end.

End Navigator.

(** ** Observations on traces *)

(** The world after [sleep ms]. *)
Definition asleep (ms : Z) (w : World) : World :=
  set_net (advance (Z.max 0 ms) (net w)) w.

Definition isStoreCall (e : Event) : bool :=
  match e with
  | EvCreate _ _ _ _ | EvUpdate _ _ _ _ => true
  | _ => false
  end.

Definition isCreate (e : Event) : bool :=
  match e with EvCreate _ _ _ _ => true | _ => false end.

(** The calls of [analyzeIndividualPage] in a trace: time, page, failure. *)
Definition analyzeCall (e : Event) : option (Z * Z * option string) :=
  match e with
  | EvAnalyze at_ms page _ failure => Some (at_ms, page, failure)
  | _ => None
  end.

Definition analyzeCalls (t : list Event) : list (Z * Z * option string) :=
  omap analyzeCall t.

Definition analyzedPages (t : list Event) : list Z :=
  map (λ c, c.1.2) (analyzeCalls t).

(** Every call but the last was rejected with a message that contains 429. *)
Fixpoint retriesOnlyRateLimited (failures : list (option string)) : bool :=
  match failures with
  | [] => true
  | failure :: rest =>
      match rest with
      | [] => true
      | _ :: _ =>
          match failure with
          | Some e => Str.includes "429" e && retriesOnlyRateLimited rest
          | None => false
          end
      end
  end.

(** The identifier discipline of the store calls of a trace, read from left
    to right with the identifier known so far: a create is allowed only
    while there is none and sets it when it returns a truthy identifier; an
    update must carry the known identifier. [None] is a violation, [Some id]
    the identifier known at the end. *)
Definition idStep (known : option string) (e : Event) : option (option string) :=
  match e with
  | EvCreate _ _ _ outcome =>
      match known with
      | Some _ => None
      | None =>
          Some (match outcome with
                | Stored id => truthyId (Some id)
                | StoreFailed _ => None
                end)
      end
  | EvUpdate id _ _ _ =>
      match known with
      | Some id' => if String.eqb id id' then Some known else None
      | None => None
      end
  | _ => Some known
  end.

Fixpoint idRun (known : option string) (t : list Event) : option (option string) :=
  match t with
  | [] => Some known
  | e :: t' =>
      match idStep known e with
      | Some known' => idRun known' t'
      | None => None
      end
  end.

(** A unit analysis that completed: the success toast or the blank-page
    warning. *)
Definition isCompletion (e : Event) : bool :=
  match e with
  | EvToast toast_success _ | EvToast toast_warning _ => true
  | _ => false
  end.

(** A unit analysis that starts: a client call or the blank-page warning. *)
Definition isAttempt (e : Event) : bool :=
  match e with
  | EvAnalyze _ _ _ _ | EvToast toast_warning _ => true
  | _ => false
  end.

(** ** geminiService: generateQuestions *)

Module Quiz.

(** A parsed JSON value; numbers are kept as integers. The fields of an
    object have distinct names. *)
Inductive JSON :=
  | JNull
  | JBool (b : bool)
  | JNum (z : Z)
  | JStr (s : string)
  | JArr (items : list JSON)
  | JObj (fields : list (string * JSON)).

Definition Obj := list (string * JSON).

Fixpoint getField (name : string) (o : Obj) : option JSON :=
  match o with
  | [] => None
  | (k, v) :: o' => if String.eqb name k then Some v else getField name o'
  end.

(** Writing a property in an object literal after a spread. *)
Fixpoint setField (name : string) (v : JSON) (o : Obj) : Obj :=
  match o with
  | [] => [(name, v)]
  | (k, v') :: o' =>
      if String.eqb name k then (k, v) :: o' else (k, v') :: setField name v o'
  end.

(** [q.name] for the property names read by the sanitiser: [None] is
    [undefined]; reading a property of [null] throws. *)
Definition prop (name : string) (q : JSON) : Completion (option JSON) :=
  match q with
  | JNull =>
      Throw ("Cannot read properties of null (reading '" +:+ name +:+ "')")
  | JObj fields => Normal (getField name fields)
  | _ => Normal None
  end.

Fixpoint indexed (i : nat) (items : list JSON) : Obj :=
  match items with
  | [] => []
  | x :: rest => (pretty i, x) :: indexed (S i) rest
  end.

Fixpoint chars (s : string) : list JSON :=
  match s with
  | "" => []
  | String c s' => JStr (String c "") :: chars s'
  end.

(** [{ ...q }]: the own enumerable properties of the value. *)
Definition spread (q : JSON) : Obj :=
  match q with
  | JObj fields => fields
  | JArr items => indexed 0 items
  | JStr s => indexed 0 (chars s)
  | _ => []
  end.

Definition truthy (v : option JSON) : bool :=
  match v with
  | None | Some JNull => false
  | Some (JBool b) => b
  | Some (JNum z) => negb (z =? 0)
  | Some (JStr s) => Str.truthy s
  | Some (JArr _) | Some (JObj _) => true
  end.

Definition placeholderOptions : JSON :=
  JArr [JStr "Option A"; JStr "Option B"; JStr "Option C"; JStr "Option D"].

Definition answerTags : list string := ["A"; "B"; "C"; "D"].

Definition isTag (s : string) : bool := existsb (String.eqb s) answerTags.

(** The arrow function mapped over the questions by [generateQuestions]. *)
Definition formatQuestion (q : JSON) : Completion Obj :=
  match prop "type" q with
  | Throw e => Throw e
  | Normal type =>
  match prop "options" q, prop "answer" q, prop "explanation" q with
  | Normal options, Normal answer, Normal explanation =>
      let type' :=
        match type with
        | Some (JStr s) =>
            if String.eqb s "mcq" || String.eqb s "assertion_reason"
            then JStr s else JStr "mcq"
        | _ => JStr "mcq"
        end in
      let options' :=
        match options with
        | Some (JArr items) =>
            if (length items =? 4)%nat then JArr items else placeholderOptions
        | _ => placeholderOptions
        end in
      let answer' :=
        match answer with
        | Some (JStr s) => if isTag s then JStr s else JStr "A"
        | _ => JStr "A"
        end in
      let explanation' :=
        match explanation with
        | Some v => if truthy explanation then v else JStr "No explanation provided."
        | None => JStr "No explanation provided."
        end in
      Normal (setField "explanation" explanation'
               (setField "answer" answer'
                 (setField "options" options'
                   (setField "type" type' (spread q)))))
  | Throw e, _, _ | _, Throw e, _ | _, _, Throw e => Throw e
  end
  end.

(** [questions.map(formatQuestion)]: the first throw ends the map. *)
Fixpoint formatAll (questions : list JSON) : Completion (list Obj) :=
  match questions with
  | [] => Normal []
  | q :: rest =>
      match formatQuestion q with
      | Throw e => Throw e
      | Normal q' =>
          match formatAll rest with
          | Throw e => Throw e
          | Normal rest' => Normal (q' :: rest')
          end
      end
  end.

Record QuestionResult := {
  questions : list Obj;
  qr_summary : string;
  qr_keyPoints : list string;
  qr_difficulty : string;
  totalQuestions : nat
}.

Definition questionSchema (difficulty : string) : list string :=
  [ "[";
    "  {";
    "    " +:+ quoted "question" +:+ ": " +:+ quoted "string" +:+ ",";
    "    " +:+ quoted "options" +:+ ": [" +:+ quoted "string" +:+ ", " +:+
      quoted "string" +:+ ", " +:+ quoted "string" +:+ ", " +:+
      quoted "string" +:+ "],";
    "    " +:+ quoted "answer" +:+ ": " +:+ quoted "A|B|C|D" +:+ ", ";
    "    " +:+ quoted "type" +:+ ": " +:+ quoted "mcq" +:+ " | " +:+
      quoted "assertion_reason" +:+ ",";
    "    " +:+ quoted "difficulty" +:+ ": " +:+ quoted difficulty +:+ ",";
    "    " +:+ quoted "tnpscGroup" +:+ ": " +:+ quoted "Group 1" +:+ " | " +:+
      quoted "Group 2" +:+ " | " +:+ quoted "Group 4" +:+ ",";
    "    " +:+ quoted "explanation" +:+ ": " +:+ quoted "string";
    "  }";
    "]";
    "CRITICAL: The 'answer' field must be ONLY the capital letter (A, B, C, or D) of the correct option. For Assertion-Reason, use the standard A, B, C, D options." ].

Definition combinedContent (analysisResults : list AnalysisResult) : string :=
  Str.join paragraphBreak
    (map (λ result,
            "Key Points: " +:+ Str.join "; " (ar_keyPoints result) +:+ Str.nl +:+
            "Summary: " +:+ ar_summary result)
         analysisResults).

Definition questionPrompt (analysisResults : list AnalysisResult)
    (difficulty : string) (lang : Language) : string :=
  let languageInstruction :=
    match lang with
    | tamil => "Generate all questions, options, and explanations in Tamil language."
    | english => "Generate all questions, options, and explanations in English language."
    end in
  Str.join Str.nl
    ([ "";
       "Based on the following TNPSC study content, generate 15-20 questions.";
       "Difficulty: " +:+ difficulty +:+ ".";
       "Language: " +:+ languageInstruction;
       "Content:";
       combinedContent analysisResults;
       "";
       "Generate ONLY these types:";
       "- 70% Multiple Choice Questions (MCQ) with 4 options.";
       "- 30% Assertion-Reason questions with 4 standard options.";
       "";
       "Return a single, valid JSON array of objects with this exact structure:" ]
     ++ questionSchema difficulty).

(** Lifting a completion computed without effects. *)
Definition complete {S A} (c : Completion A) : Async S A := λ s, (c, s, []).

Definition generateQuestions (gemini : Gemini JSON)
    (analysisResults : list AnalysisResult) (difficulty : string)
    (lang : Language) : Async Net QuestionResult :=
  let* parsed :=
    generateContentWithRetry gemini
      (questionPrompt analysisResults difficulty lang)
      defaultMaxOutputTokens 3 in
  let* formattedQuestions :=
    match parsed with
    | JArr items => complete (formatAll items)
    | JNull => throw "Cannot read properties of null (reading 'map')"
    | _ => throw "questions.map is not a function"
    end in
  ret {| questions := formattedQuestions;
         qr_summary := Str.join " " (map ar_summary analysisResults);
         qr_keyPoints := flat_map ar_keyPoints analysisResults;
         qr_difficulty := difficulty;
         totalQuestions := length formattedQuestions |}.

(** A question record as the callers expect it. *)
Definition hasFourOptions (q : Obj) : bool :=
  match getField "options" q with
  | Some (JArr items) => (length items =? 4)%nat
  | _ => false
  end.

Definition hasAnswerTag (q : Obj) : bool :=
  match getField "answer" q with
  | Some (JStr s) => isTag s
  | _ => false
  end.

Definition hasKnownType (q : Obj) : bool :=
  match getField "type" q with
  | Some (JStr s) => String.eqb s "mcq" || String.eqb s "assertion_reason"
  | _ => false
  end.

Definition wellFormed (q : Obj) : bool :=
  hasFourOptions q && hasAnswerTag q && hasKnownType q &&
  truthy (getField "explanation" q).

End Quiz.

(** ** Vocabulary of the specification

    Classes of events, frames of the world and the big-step descriptions of
    one consolidation, one attempt and one run of the retry loop, in the terms
    of which the properties below are stated and proved. *)

Definition isNetEvent (e : Event) : bool :=
  match e with EvSleep _ | EvModelCall _ _ _ => true | _ => false end.

Definition isErrorToast (e : Event) : bool :=
  match e with EvToast toast_error _ => true | _ => false end.

(** The notification of a failed consolidation. *)
Definition isSaveFailedToast (e : Event) : bool :=
  match e with
  | EvToast toast_error message => String.eqb message msgSaveFailed
  | _ => false
  end.

Definition sameProgress (w w' : World) : Prop :=
  heap w' = heap w ∧ pageAnalysesRef w' = pageAnalysesRef w ∧
  isAnalyzing w' = isAnalyzing w ∧
  modelCalls (net w') = modelCalls (net w) ∧
  clock (net w) ≤ clock (net w').

Inductive Consolidated (rid : option string) (w : World)
  : World → list Event → Prop :=
  | consolidated_skip : Consolidated rid w w []
  | consolidated_update id res pages out w' toasts :
      truthyId rid = Some id → sameProgress w w' →
      studyHistoryId w' = studyHistoryId w →
      sessionStorage w' = sessionStorage w →
      Forall isSaveFailedToast toasts →
      Consolidated rid w w' (EvUpdate id res pages out :: toasts)
  | consolidated_create owner res meta newId w' :
      truthyId rid = None → sameProgress w w' →
      studyHistoryId w' = Some newId →
      Consolidated rid w w' [EvCreate owner res meta (Stored newId)]
  | consolidated_create_failed owner res meta e w' toasts :
      truthyId rid = None → sameProgress w w' →
      studyHistoryId w' = studyHistoryId w →
      sessionStorage w' = sessionStorage w →
      Forall isSaveFailedToast toasts →
      Consolidated rid w w' (EvCreate owner res meta (StoreFailed e) :: toasts).

Definition isPersistEvent (e : Event) : bool := isStoreCall e || isSaveFailedToast e.

Definition failures (t : list Event) : list (option string) :=
  map snd (analyzeCalls t).

Definition sameHeap (w w' : World) : Prop :=
  heap w' = heap w ∧ pageAnalysesRef w' = pageAnalysesRef w.

(** The page stored by a run of the retry loop. *)
Definition pageStored (page : Z) (w w' : World) : Prop :=
  ∃ a w0, isAnalyzed a = true ∧ sameHeap w w0 ∧ sameHeap (withPage page a w0) w'.

(** A notification that a unit analysis failed for good. *)
Definition isAnalysisError (e : Event) : bool :=
  isErrorToast e && negb (isSaveFailedToast e).

(** Events that neither complete a unit analysis nor report its failure. *)
Definition notCompletion (e : Event) : bool :=
  negb (isCompletion e) && negb (isAnalysisError e).

Definition notAnalysisError (e : Event) : bool := negb (isAnalysisError e).

(** A create call that returned a usable identifier. *)
Definition grantsIdentifier (e : Event) : bool :=
  match e with
  | EvCreate _ _ _ (Stored id) => Str.truthy id
  | _ => false
  end.

Definition notBatch (op : Op) : bool :=
  match op with OpAnalyzeAll => false | _ => true end.

(** Between a completed unit analysis and the start of the next one the
    batch sleeps 1000 ms: a completion that is followed by another attempt
    is followed at once by that sleep. *)
Definition politeDelays (t : list Event) : Prop :=
  ∀ t1 e t2, t = t1 ++ e :: t2 → isCompletion e → Exists isAttempt t2 →
             ∃ t3, t2 = EvSleep 1000 :: t3.

(** The references of the render and of the state point into the heap. *)
Definition wellFormedRefs (r : Render) (w : World) : Prop :=
  (r_pageAnalyses r < length (heap w))%nat ∧
  (pageAnalysesRef w < length (heap w))%nat.

(** What a batch that stopped at page [k] leaves behind. *)
Definition stoppedAt (i : Z) (w w' : World) (t : list Event) (k : Z) : Prop :=
  ∃ n pre,
    t = pre ++ [EvToast toast_error (msgFailed k n);
                EvToast toast_error (msgStopped k)] ∧
    Forall notAnalysisError pre ∧
    (∀ j, i ≤ j < k → pageDone j (pagesOf w') = true) ∧
    pageDone k (pagesOf w') = false ∧
    (∀ j, k < j → Map_get j (pagesOf w') = Map_get j (pagesOf w)) ∧
    Forall (λ p, p ≤ k) (analyzedPages t).

(** The delays slept before a retry: the sleeps announced by the
    rate-limit notification. *)
Fixpoint retryDelays (t : list Event) : list Z :=
  match t with
  | [] => []
  | e :: t' =>
      match e, t' with
      | EvToast toast_info _, EvSleep ms :: _ => ms :: retryDelays t'
      | _, _ => retryDelays t'
      end
  end.

(** [n] delays, each the double of the one before. *)
Fixpoint backoffs (delay : Z) (n : nat) : list Z :=
  match n with
  | O => []
  | S n' => delay :: backoffs (delay * 2) n'
  end.

Definition isInfoToast (e : Event) : bool :=
  match e with EvToast toast_info _ => true | _ => false end.

(** The in-memory progress of a session: the Map objects, the state
    [pageAnalyses], the flag [isAnalyzing] and the number of model calls. *)
Definition progressOf (w : World) : list JSMap * nat * bool * nat :=
  (heap w, pageAnalysesRef w, isAnalyzing w, modelCalls (net w)).

(** Two renders that differ at most in the identifier they captured. *)
Definition sameClosures (r1 r2 : Render) : Prop :=
  user r1 = user r2 ∧ file r1 = file r2 ∧ totalPages r1 = totalPages r2 ∧
  fullText r1 = fullText r2 ∧ outputLanguage r1 = outputLanguage r2 ∧
  r_pageAnalyses r1 = r_pageAnalyses r2.

(** The progress map after the analyses of [l] completed one after the
    other, each stored by [prev.set(pageNumber, analysis)]. *)
Definition completedInOrder (l : list PageAnalysis) : JSMap :=
  fold_left (λ m a, Map_set (pageNumber a) a m) l [].

(** The merged record that a store call carries. *)
Definition recordOf (e : Event) : option AnalysisResult :=
  match e with
  | EvCreate _ result _ _ | EvUpdate _ result _ _ => Some result
  | _ => None
  end.

Definition recordsOf (t : list Event) : list AnalysisResult := omap recordOf t.

Section Runs.

Variable gemini : Gemini Parsed.
Variable store : Store.
Variable extract : string → Z → Z → string.

Inductive AttemptResult (r : Render) (page : Z) (w : World)
  : Completion unit * World * list Event → Prop :=
  | attempt_blank :
      Str.trim (extract (fullText r) page page) = "" →
      AttemptResult r page w
        (Normal tt,
         withIsAnalyzing false (withPage page (emptyAnalysis page) w),
         [EvToast toast_warning (msgSkipping page)])
  | attempt_failed e n1 t1 :
      Str.trim (extract (fullText r) page page) ≠ "" →
      analyzeIndividualPage gemini (extract (fullText r) page page) page
        (outputLanguage r) (net w) = (Throw e, n1, t1) →
      AttemptResult r page w
        (Throw e, set_net n1 w,
         EvAnalyze (clock (net w)) page (extract (fullText r) page page) (Some e)
           :: t1)
  | attempt_ok a n1 t1 w3 t3 :
      Str.trim (extract (fullText r) page page) ≠ "" →
      analyzeIndividualPage gemini (extract (fullText r) page page) page
        (outputLanguage r) (net w) = (Normal a, n1, t1) →
      saveConsolidatedHistoryForPage store r page (markAnalyzed a)
        (withPage page (markAnalyzed a) (set_net n1 w)) = (Normal tt, w3, t3) →
      AttemptResult r page w
        (Normal tt, withIsAnalyzing false w3,
         EvAnalyze (clock (net w)) page (extract (fullText r) page page) None
           :: t1 ++ t3 ++ [EvToast toast_success (msgAnalyzed page)]).

Inductive PageLoop (r : Render) (page : Z) (mr : Z)
  : nat → Z → Z → World → Completion unit * World * list Event → Prop :=
  | loop_exhausted attempt delay w :
      PageLoop r page mr 0 attempt delay w (Normal tt, w, [])
  | loop_returned rem attempt delay w w1 t1 :
      AttemptResult r page w (Normal tt, w1, t1) →
      PageLoop r page mr (S rem) attempt delay w (Normal tt, w1, t1)
  | loop_terminal rem attempt delay w e w1 t1 :
      AttemptResult r page w (Throw e, w1, t1) →
      retryable e attempt mr = false →
      PageLoop r page mr (S rem) attempt delay w
        (Throw e, withIsAnalyzing false w1,
         t1 ++ [EvToast toast_error (msgFailed page attempt)])
  | loop_retried rem attempt delay w e w1 t1 res w2 t2 :
      AttemptResult r page w (Throw e, w1, t1) →
      retryable e attempt mr = true →
      PageLoop r page mr rem (attempt + 1) (delay * 2) (asleep delay w1)
        (res, w2, t2) →
      PageLoop r page mr (S rem) attempt delay w
        (res, w2,
         t1 ++ EvToast toast_info (msgRetrying page delay) :: EvSleep delay :: t2).

End Runs.

(** ** Observations on the service helper

    The model calls and the sleeps of a trace, the answers of the model as
    one call of the helper meets them, and the message of the helper when it
    gives up. *)

Definition modelCallOk (e : Event) : option bool :=
  match e with EvModelCall _ _ ok => Some ok | _ => None end.

(** The outcomes of the model calls of a trace, in order. *)
Definition modelCallsOf (t : list Event) : list bool := omap modelCallOk t.

Definition sleepOf (e : Event) : option Z :=
  match e with EvSleep ms => Some ms | _ => None end.

(** The sleeps of a trace, in order. *)
Definition sleepsOf (t : list Event) : list Z := omap sleepOf t.

(** [k] delays of 1000 ms, 2000 ms, ... counted from attempt [i]. *)
Definition linearDelays (i : Z) (k : nat) : list Z :=
  map (λ j, 1000 * (i + Z.of_nat j + 1)) (seq 0 k).

(** The answer that the model gives to the [j]-th call counted from the
    state [n]. *)
Definition answerAt {A} (gemini : Gemini A) (n : Net) (prompt : string)
    (maxTok : Z) (j : nat) : ModelOutcome A :=
  (gemini (modelCalls n + j)%nat prompt maxTok).2.

Definition isModelErr {A} (o : ModelOutcome A) : bool :=
  match o with ModelErr _ => true | ModelOk _ => false end.

(** The message of [generateContentWithRetry] after its last attempt;
    [lastError?.message] is [undefined] when no attempt was made. *)
Definition exhaustedMessage (retries : Z) (lastError : option string) : string :=
  "Gemini API call failed after " +:+ pretty retries +:+
  " attempts. Last error: " +:+ default "undefined" lastError.

(** The object that [analyzeIndividualPage] builds from the answer of the
    model. *)
Definition analysisOfAnswer (page : Z) (analysis : RawAnalysis) : PageAnalysis :=
  {| pageNumber := page;
     keyPoints := default [] (raw_keyPoints analysis);
     studyPoints := default [] (raw_studyPoints analysis);
     summary := orEmpty (raw_summary analysis);
     tnpscRelevance := orEmpty (raw_tnpscRelevance analysis);
     tnpscCategories := Some (default [] (raw_tnpscCategories analysis));
     isAnalyzed := false |}.

(** ** Observations on the record store *)

(** A run that left the record store and the identifier alone. *)
Definition storeUntouched (w w' : World) (t : list Event) : Prop :=
  List.filter isStoreCall t = [] ∧ storeCalls w' = storeCalls w ∧
  studyHistoryId w' = studyHistoryId w.

(** [p.isAnalyzed ? p : undefined] *)
Definition analysedOnly (a : PageAnalysis) : option PageAnalysis :=
  if isAnalyzed a then Some a else None.

(** ** The page navigator: current page and quiz range *)

(** [parseInt(value) || fallback]: [None] is [NaN]; [NaN] and 0 are falsy. *)
Definition orElse (parsed : option Z) (fallback : Z) : Z :=
  match parsed with
  | Some z => if z =? 0 then fallback else z
  | None => fallback
  end.

(** The initialiser of the state [currentPage]: the page after the largest
    key of the initial analyses, at most the last page. *)
Definition initialCurrentPage (props : Props) : Z :=
  match initialPageAnalyses props with
  | Some m =>
      if (0 <? length m)%nat then
        let analyzedPages := sortNumbers (Map_keys m) in
        match last analyzedPages with
        | Some lastAnalyzedPage => Z.min (lastAnalyzedPage + 1) (p_totalPages props)
        | None => 1
        end
      else 1
  | None => 1
  end.

(** The navigator with its current page. *)
Record Nav := {
  nav_world : World;
  currentPage : Z
}.

Definition mountNav (props : Props) (storage : gmap string string) (n : Net)
    (calls : nat) : Nav :=
  {| nav_world := mount props storage n calls;
     currentPage := initialCurrentPage props |}.

(** The closures of one render of the navigator with the current page they
    captured. *)
Record NavRender := {
  nr_closures : Render;
  nr_currentPage : Z;
  nr_isAnalyzing : bool
}.

Definition renderNav (props : Props) (u : option User) (s : Nav) : NavRender :=
  {| nr_closures := render props u (nav_world s);
     nr_currentPage := currentPage s;
     nr_isAnalyzing := isAnalyzing (nav_world s) |}.

Definition liftWorld {A} (m : Async World A) : Async Nav A :=
  λ s, match m (nav_world s) with
       | (r, w, t) => (r, {| nav_world := w; currentPage := currentPage s |}, t)
       end.

Definition setCurrentPage (page : Z) : Async Nav unit :=
  modify (λ s, {| nav_world := nav_world s; currentPage := page |}).

Section Navigation.

Variable gemini : Gemini Parsed.
Variable store : Store.
Variable extractPageRangeFromOcr : string → Z → Z → string.

(** [analyzePage(page).catch(...)], as the navigator starts it. *)
Definition startAnalysis (nr : NavRender) (page : Z) : Async Nav unit :=
  liftWorld (try_catch (analyzePage gemini store extractPageRangeFromOcr
                          (nr_closures nr) page)
                       (λ _, ret tt)).

Definition navigateToPage (nr : NavRender) (pageNumber : Z) : Async Nav unit :=
  if (1 <=? pageNumber) && (pageNumber <=? totalPages (nr_closures nr)) then
    setCurrentPage pageNumber ;;
    let* pageAnalyses :=
      gets (λ s, deref (heap (nav_world s)) (r_pageAnalyses (nr_closures nr))) in
    if negb (pageDone pageNumber pageAnalyses)
    then startAnalysis nr pageNumber
    else ret tt
  else ret tt.

(** The effect that analyses the current page when the component loads. *)
Definition analyzeOnLoad (nr : NavRender) : Async Nav unit :=
  let* pageAnalyses :=
    gets (λ s, deref (heap (nav_world s)) (r_pageAnalyses (nr_closures nr))) in
  if negb (pageDone (nr_currentPage nr) pageAnalyses)
  then startAnalysis nr (nr_currentPage nr)
  else ret tt.

(** What the user does on the navigator, and the effects that React runs
    after a render. A disabled button runs no handler. *)
Inductive NavOp :=
  | NavPrevious                       (** the left chevron *)
  | NavNext                           (** the right chevron *)
  | NavJump (parsed : option Z)       (** the Jump to field, on blur or Enter *)
  | NavAnalyze                        (** the button that analyses the page *)
  | NavAnalyzeAll                     (** the Analyze All button *)
  | NavLoad                           (** the effect that runs once on load *)
  | NavConsolidate                    (** the effect on [pageAnalyses] *)
  | NavSyncSession.                   (** the effect on [studyHistoryId] *)

Definition runNavOp (props : Props) (u : option User) (op : NavOp) : Async Nav unit :=
  λ s, let nr := renderNav props u s in
       let currentAnalysis :=
         Map_get (nr_currentPage nr)
           (deref (heap (nav_world s)) (r_pageAnalyses (nr_closures nr))) in
       match op with
       | NavPrevious =>
           if (nr_currentPage nr =? 1) || nr_isAnalyzing nr then ret tt s
           else navigateToPage nr (nr_currentPage nr - 1) s
       | NavNext =>
           if (nr_currentPage nr =? totalPages (nr_closures nr)) || nr_isAnalyzing nr
           then ret tt s
           else navigateToPage nr (nr_currentPage nr + 1) s
       | NavJump parsed => navigateToPage nr (orElse parsed 1) s
       | NavAnalyze =>
           if nr_isAnalyzing nr
              || match currentAnalysis with Some a => isAnalyzed a | None => false end
           then ret tt s
           else startAnalysis nr (nr_currentPage nr) s
       | NavAnalyzeAll =>
           if nr_isAnalyzing nr then ret tt s
           else liftWorld (analyzeAllPages gemini store extractPageRangeFromOcr
                             (nr_closures nr)) s
       | NavLoad => analyzeOnLoad nr s
       | NavConsolidate => liftWorld (consolidateEffect store (nr_closures nr)) s
       | NavSyncSession => liftWorld (syncSessionStorage (nr_closures nr)) s
       end.

Fixpoint runNavOps (props : Props) (u : option User) (ops : list NavOp)
  : Async Nav unit :=
  match ops with
  | [] => ret tt
  | op :: rest => runNavOp props u op ;; runNavOps props u rest
  end.

End Navigation.

(** *** The progress of the navigator *)

(** The progress map [m'] is [m] after analysed pages of the document were
    stored, one after the other. *)
Inductive Grown (total : Z) (m : JSMap) : JSMap → Prop :=
  | grown_refl : Grown total m m
  | grown_set m' k a :
      Grown total m m' → 1 ≤ k ≤ total → isAnalyzed a = true →
      Grown total m (Map_set k a m').

(** The number that the progress bar shows. *)
Definition analyzedPagesCount (m : JSMap) : nat := length (analyzedPagesListOf m).

(** The keys of the progress map are distinct pages of the document. *)
Definition pagesOfDocument (total : Z) (m : JSMap) : Prop :=
  NoDup (Map_keys m) ∧ Forall (λ k, 1 ≤ k ≤ total) (Map_keys m).

(** *** The closing notification of a batch *)

(** The notification that closes a batch in which every page was analysed. *)
Definition isAllDone (e : Event) : bool :=
  match e with
  | EvToast toast_success message => String.eqb message msgAllDone
  | _ => false
  end.

(** What a run leaves of the Map object that the closures of the render [r]
    hold: it is as it was, or it was the state and has received one page. *)
Definition capturedStep (r : Render) (w w' : World) : Prop :=
  wellFormedRefs r w' ∧
  ((deref (heap w') (r_pageAnalyses r) = deref (heap w) (r_pageAnalyses r) ∧
    (r_pageAnalyses r = pageAnalysesRef w' → r_pageAnalyses r = pageAnalysesRef w)) ∨
   (r_pageAnalyses r = pageAnalysesRef w ∧ r_pageAnalyses r ≠ pageAnalysesRef w' ∧
    ∃ p a, deref (heap w') (r_pageAnalyses r)
           = Map_set p a (deref (heap w) (r_pageAnalyses r)))).

(** *** The quiz range of the navigator *)

Record QuizPanel := {
  quizStartPage : Z;
  quizEndPage : Z;
  quizDifficulty : string
}.

Definition initialQuizPanel (totalPages : Z) : QuizPanel :=
  {| quizStartPage := 1; quizEndPage := Z.min 5 totalPages;
     quizDifficulty := "medium" |}.

Inductive QuizEdit :=
  | EditStart (parsed : option Z)
  | EditEnd (parsed : option Z)
  | EditDifficulty (value : string).

(** The [onChange] handlers of the quiz card of the navigator. *)
Definition editQuizPanel (totalPages : Z) (q : QuizPanel) (e : QuizEdit) : QuizPanel :=
  match e with
  | EditStart parsed =>
      {| quizStartPage := Z.max 1 (Z.min totalPages (orElse parsed 1));
         quizEndPage := quizEndPage q;
         quizDifficulty := quizDifficulty q |}
  | EditEnd parsed =>
      {| quizStartPage := quizStartPage q;
         quizEndPage :=
           Z.max (quizStartPage q)
                 (Z.min totalPages (orElse parsed (quizStartPage q)));
         quizDifficulty := quizDifficulty q |}
  | EditDifficulty value =>
      {| quizStartPage := quizStartPage q;
         quizEndPage := quizEndPage q;
         quizDifficulty := value |}
  end.

(** The arguments that [handleStartQuiz] passes to [onStartQuiz]. *)
Definition handleStartQuiz (q : QuizPanel) : Z * Z * string :=
  (quizStartPage q, quizEndPage q, quizDifficulty q).

(** The number of questions that the card announces. *)
Definition announcedQuestions (q : QuizPanel) : Z :=
  Z.max 5 ((quizEndPage q - quizStartPage q + 1) * 2).

(** *** PageRangeQuizSelector *)

Record SelectedRange := { range_start : Z; range_end : Z }.

Record Selector := {
  selectedRange : SelectedRange;
  sel_difficulty : string
}.

Definition initialSelector (totalPages : Z) : Selector :=
  {| selectedRange := {| range_start := 1; range_end := Z.min 5 totalPages |};
     sel_difficulty := "medium" |}.

(** The [onChange] handlers of the selector, written with state updaters. *)
Definition editSelector (totalPages : Z) (s : Selector) (e : QuizEdit) : Selector :=
  match e with
  | EditStart parsed =>
      {| selectedRange :=
           (λ prev, {| range_start := Z.max 1 (Z.min (orElse parsed 1) totalPages);
                       range_end := range_end prev |}) (selectedRange s);
         sel_difficulty := sel_difficulty s |}
  | EditEnd parsed =>
      {| selectedRange :=
           (λ prev, {| range_start := range_start prev;
                       range_end :=
                         Z.max (range_start prev)
                               (Z.min (orElse parsed (range_start prev)) totalPages) |})
             (selectedRange s);
         sel_difficulty := sel_difficulty s |}
  | EditDifficulty value =>
      {| selectedRange := selectedRange s; sel_difficulty := value |}
  end.

(** The arguments that [handleGenerateQuiz] passes to [onGenerateQuiz]. *)
Definition handleGenerateQuiz (s : Selector) : Z * Z * string :=
  (range_start (selectedRange s), range_end (selectedRange s), sel_difficulty s).

(** ** geminiService: the sanitiser of generateQuestions *)

(** The properties that the sanitiser writes. *)
Definition sanitised : list string := ["type"; "options"; "answer"; "explanation"].

Definition isNull (q : Quiz.JSON) : bool :=
  match q with Quiz.JNull => true | _ => false end.

(** ** geminiService: analyzePdfContentComprehensive *)

Module Ocr.

(** [\d] *)
Definition isDigit (c : ascii) : bool :=
  match c with
  | "0" | "1" | "2" | "3" | "4" | "5" | "6" | "7" | "8" | "9" => true
  | _ => false
  end%char.

(** The rest of [s] after the literal [p], when [s] starts with it. *)
Fixpoint stripPrefix (p s : string) : option string :=
  match p, s with
  | "", _ => Some s
  | String a p', String b s' => if Ascii.eqb a b then stripPrefix p' s' else None
  | String _ _, "" => None
  end.

(** The longest run of digits at the start of [s], and what follows it. *)
Fixpoint takeDigits (s : string) : string * string :=
  match s with
  | String c s' =>
      if isDigit c then
        match takeDigits s' with (d, rest) => (String c d, rest) end
      else ("", s)
  | "" => ("", "")
  end.

(** [[\s\S]*?] followed by the literal [needle]: the text before the first
    occurrence of [needle] and the text after it. *)
Fixpoint splitAtFirst (needle s : string) : option (string * string) :=
  match stripPrefix needle s with
  | Some rest => Some ("", rest)
  | None =>
      match s with
      | "" => None
      | String c s' =>
          match splitAtFirst needle s' with
          | Some (before, after) => Some (String c before, after)
          | None => None
          end
      end
  end.

Definition startMarker : string := "==Start of OCR for page ".

Definition endMarker (digits : string) : string :=
  "==End of OCR for page " +:+ digits +:+ "==".

(** One match of [pageRegex] at the very start of [s]: the two capture
    groups and the text after the match. The digits are matched greedily;
    giving some of them back never helps, because the next character must be
    [=]. *)
Definition matchAt (s : string) : option (string * string * string) :=
  match stripPrefix startMarker s with
  | None => None
  | Some afterStart =>
      match takeDigits afterStart with
      | ("", _) => None
      | (digits, afterDigits) =>
          match stripPrefix "==" afterDigits with
          | None => None
          | Some body =>
              match splitAtFirst (endMarker digits) body with
              | None => None
              | Some (content, rest) => Some (digits, content, rest)
              end
          end
      end
  end.

(** [textContent.matchAll(pageRegex)] from the start of [s]: after a match
    the search goes on behind it, otherwise one character further. *)
Fixpoint scan (fuel : nat) (s : string) : list (string * string) :=
  match fuel with
  | O => []
  | S fuel' =>
      match matchAt s with
      | Some (digits, content, rest) => (digits, content) :: scan fuel' rest
      | None =>
          match s with
          | "" => []
          | String _ s' => scan fuel' s'
          end
      end
  end.

Definition matchAll (s : string) : list (string * string) :=
  scan (S (String.length s)) s.

(** [parseInt(digits, 10)] on a string of digits (exact, as JavaScript is
    below 2^53). *)
Definition digitValue (c : ascii) : Z := Z.of_nat (nat_of_ascii c) - 48.

Fixpoint parseDigitsFrom (acc : Z) (digits : string) : Z :=
  match digits with
  | "" => acc
  | String c rest => parseDigitsFrom (acc * 10 + digitValue c) rest
  end.

Definition parseDigits (digits : string) : Z := parseDigitsFrom 0 digits.

End Ocr.

(** The object that [analyzePdfContentComprehensive] returns. *)
Record Comprehensive := {
  c_pageAnalyses : list PageAnalysis;
  overallSummary : string;
  totalKeyPoints : list string;
  c_tnpscCategories : list string
}.

(** [[...new Set(xs)]]: the first occurrence of every element, in order. *)
Fixpoint uniqueFrom (seen xs : list string) : list string :=
  match xs with
  | [] => []
  | x :: rest =>
      if existsb (String.eqb x) seen then uniqueFrom seen rest
      else x :: uniqueFrom (x :: seen) rest
  end.

Definition unique (xs : list string) : list string := uniqueFrom [] xs.

Definition BATCH_SIZE : nat := 5.

Definition idle : Net := {| clock := 0; modelCalls := 0 |}.

Section Comprehensive.

(** The calls of one batch run concurrently. Each call has its own
    conversation with the model: [models k] is the model as the call for
    the [k]-th match sees it, attempt after attempt. *)
Variable models : nat → Gemini Parsed.
Variable outputLanguage : Language.

(** The promise made for one match: [null] for a page that is skipped and
    for a page whose analysis was rejected. *)
Definition analyzeMatch (k : nat) (m : string * string) : option PageAnalysis :=
  let pageNumber := Ocr.parseDigits m.1 in
  let pageContent := Str.trim m.2 in
  if (String.length pageContent <? 50)%nat then None
  else
    match completion (analyzeIndividualPage (models k) pageContent pageNumber
                        outputLanguage idle) with
    | Normal analysis => Some analysis
    | Throw _ => None
    end.

(** [batch.map(...)] for the batch that starts at index [i]. *)
Fixpoint analyzeBatch (i : nat) (batch : list (string * string))
  : list (option PageAnalysis) :=
  match batch with
  | [] => []
  | m :: rest => analyzeMatch i m :: analyzeBatch (S i) rest
  end.

(** The [for] loop over the batches. *)
Fixpoint batchLoop (remaining : nat) (i : nat) (pageMatches : list (string * string))
    (allPageAnalyses : list PageAnalysis) : list PageAnalysis :=
  match remaining with
  | O => allPageAnalyses
  | S remaining' =>
      if (i <? length pageMatches)%nat then
        let batch := take BATCH_SIZE (drop i pageMatches) in
        let batchResults := analyzeBatch i batch in
        batchLoop remaining' (i + BATCH_SIZE) pageMatches
          (allPageAnalyses ++ omap id batchResults)
      else allPageAnalyses
  end.

Definition analyzePdfContentComprehensive (textContent : string) : Comprehensive :=
  let pageMatches := Ocr.matchAll textContent in
  let allPageAnalyses := batchLoop (length pageMatches) 0 pageMatches [] in
  let allKeyPoints := flat_map keyPoints allPageAnalyses in
  let allCategories :=
    flat_map (λ p, default [] (tnpscCategories p)) allPageAnalyses in
  {| c_pageAnalyses := allPageAnalyses;
     overallSummary :=
       "Comprehensive analysis of " +:+ pretty (length allPageAnalyses) +:+
       " pages completed, identifying " +:+ pretty (length allKeyPoints) +:+
       " total key points.";
     totalKeyPoints := allKeyPoints;
     c_tnpscCategories := unique allCategories |}.

End Comprehensive.

(** *** Documents with page markers *)

Module OcrText.
Import Ocr.

(** The text of one page between its markers. *)
Definition block (p : string * string) : string :=
  startMarker +:+ p.1 +:+ "==" +:+ p.2 +:+ endMarker p.1.

(** Pages written one after the other, each after some other text. *)
Fixpoint document (pages : list (string * (string * string))) (tail : string) : string :=
  match pages with
  | [] => tail
  | (before, p) :: rest => before +:+ block p +:+ document rest tail
  end.

Fixpoint allChars (P : ascii → bool) (s : string) : bool :=
  match s with
  | "" => true
  | String c s' => P c && allChars P s'
  end.

Definition noEquals (s : string) : bool :=
  allChars (λ c, negb (Ascii.eqb c "=")) s.

Definition isNumber (s : string) : bool :=
  allChars isDigit s && negb (String.eqb s "").

End OcrText.

(** ** Observations on prompts, batches and store calls *)

Definition promptOf (e : Event) : option string :=
  match e with EvModelCall prompt _ _ => Some prompt | _ => None end.

(** The prompts of the model calls of a trace, in order. *)
Definition promptsOf (t : list Event) : list string := omap promptOf t.

(** The pages [first], [first + 1], ... ([count] of them) that are not
    analysed in [m], in ascending order. *)
Definition incompleteFrom (first count : Z) (m : JSMap) : list Z :=
  List.filter (λ p, negb (pageDone p m)) (seqZ first count).

(** The pages of a document of [total] pages that are not analysed in [m]. *)
Definition incompletePages (total : Z) (m : JSMap) : list Z :=
  incompleteFrom 1 total m.

(** The event starts an analysis of page [p]: a call of the client for the
    page, or the warning that the page is blank. *)
Definition startsPage (p : Z) (e : Event) : bool :=
  match e with
  | EvAnalyze _ page _ _ => page =? p
  | EvToast toast_warning message => String.eqb message (msgSkipping p)
  | _ => false
  end.

(** The attempts of the trace go through the pages [ps] in that order, with
    at least one attempt for each page and none for any other page. *)
Definition attemptsFollow (ps : list Z) (t : list Event) : Prop :=
  ∃ groups,
    List.filter isAttempt t = concat groups ∧
    Forall2 (λ p group, group ≠ [] ∧ Forall (λ e, startsPage p e = true) group)
      ps groups.

(** The last call of the client in the trace was for page [k] and failed for
    good: with an error that the retry loop does not retry. *)
Definition failedFor (k : Z) (t : list Event) : Prop :=
  ∃ at_ms e n,
    last (analyzeCalls t) = Some (at_ms, k, Some e) ∧
    retryable e n maxRetries = false ∧
    EvToast toast_error (msgFailed k n) ∈ t.

(** The record merges the analyses [done], by one of the two consolidation
    functions. *)
Definition mergeOf (fileName : string) (done : list PageAnalysis)
    (record : AnalysisResult) : Prop :=
  record = analysisResultForPage fileName done ∨
  record = analysisResultAll fileName done.

Section Batches.

Variable gemini : Gemini Parsed.
Variable store : Store.
Variable extract : string → Z → Z → string.


End Batches.





(** ** Sample sessions

    Concrete collaborators and documents on which the properties are
    exercised. *)

Module Sample.

Definition notes : File := {| file_name := "notes.pdf"; file_size := 2048 |}.

Definition props (pages : Z) : Props :=
  {| p_file := notes; p_totalPages := pages; p_fullText := "ocr text";
     p_outputLanguage := english; initialPageAnalyses := None;
     initialStudyHistoryId := None |}.

Definition reader : option User := Some {| uid := "user-1" |}.

Definition start : Net := {| clock := 0; modelCalls := 0 |}.

(** A document whose fourth page has no text. *)
Definition extract (text : string) (first last : Z) : string :=
  if first =? 4 then "   " else "Text of page " +:+ pretty first.

Definition pageOfPrompt (prompt : string) : Z :=
  if Str.includes "from page 1 of" prompt then 1
  else if Str.includes "from page 2 of" prompt then 2
  else if Str.includes "from page 3 of" prompt then 3
  else if Str.includes "from page 4 of" prompt then 4
  else 5.

Definition answer (page : Z) : RawAnalysis :=
  {| raw_keyPoints := Some ["Key point of page " +:+ pretty page];
     raw_studyPoints := None;
     raw_summary := Some ("Summary of page " +:+ pretty page);
     raw_tnpscRelevance := None;
     raw_tnpscCategories := None |}.

(** A model that always answers. *)
Definition steady : Gemini Parsed :=
  λ _ prompt _, (300%N, ModelOk (ParsedValue (answer (pageOfPrompt prompt)))).

(** A model that rejects every request about page 3. *)
Definition brokenOn3 : Gemini Parsed :=
  λ _ prompt _,
    if pageOfPrompt prompt =? 3 then (50%N, ModelErr "500 Internal Server Error")
    else (300%N, ModelOk (ParsedValue (answer (pageOfPrompt prompt)))).

(** A model that is rate limited for its first three calls. *)
Definition limited : Gemini Parsed :=
  λ call prompt _,
    if (call <? 3)%nat then (50%N, ModelErr "429 Too Many Requests")
    else (300%N, ModelOk (ParsedValue (answer (pageOfPrompt prompt)))).

Definition storeUp : Store := λ call, (40%N, Stored ("history-" +:+ pretty call)).


(** A store that is down. *)
Definition storeDown : Store := λ _, (40%N, StoreFailed "unavailable").

Definition fresh (pages : Z) : World := mount (props pages) ∅ start 0.

(** The record carried by the last store call of a trace. *)
Definition lastRecord (t : list Event) : option AnalysisResult :=
  last (recordsOf t).

(** Page texts that differ only after their first 15000 characters. *)
Fixpoint padding (n : nat) : string :=
  match n with
  | O => ""
  | S n' => String "a" (padding n')
  end.

Definition longText (tail : string) : string := padding contentLimit +:+ tail.

Definition analysisOf (page : Z) : PageAnalysis :=
  {| pageNumber := page;
     keyPoints := ["Key point of page " +:+ pretty page];
     studyPoints := [];
     summary := "Summary of page " +:+ pretty page;
     tnpscRelevance := "";
     tnpscCategories := Some [];
     isAnalyzed := true |}.

(** An answer of the question model with three options and the tag E. *)
Definition questionE : Quiz.JSON :=
  Quiz.JObj [("question", Quiz.JStr "Which city is the capital of Tamil Nadu?");
             ("options", Quiz.JArr [Quiz.JStr "Chennai"; Quiz.JStr "Madurai";
                                    Quiz.JStr "Salem"]);
             ("answer", Quiz.JStr "E");
             ("type", Quiz.JStr "essay")].

Definition quizModel : Gemini Quiz.JSON :=
  λ _ _ _, (120%N, ModelOk (Quiz.JArr [questionE])).

(** The session storage left by an earlier mount of the same file. *)
Definition cached : gmap string string := {[ sessionKey notes := "history-7" ]}.

(** The state after the pages 3 and 1 were analysed, in that order. *)
Definition after31 : World :=
  world_of (runOps steady storeUp extract (props 3) reader
              [OpAnalyzePage 3; OpAnalyzePage 1] (fresh 3)).

(** A model whose every answer parses to [null]. *)
Definition answersNull : Gemini Parsed :=
  λ _ _ _, (300%N, ModelOk ParsedNull).

(** A model whose every answer is a rate-limit error. *)
Definition alwaysLimited : Gemini Parsed :=
  λ _ _ _, (50%N, ModelErr "429 Too Many Requests").

(** A model that fails twice and answers from then on. *)
Definition recovering : Gemini Parsed :=
  λ call prompt _,
    if (call <? 2)%nat then (50%N, ModelErr "503 Service Unavailable")
    else (300%N, ModelOk (ParsedValue (answer (pageOfPrompt prompt)))).

(** An OCR text of three pages; the second page is too short to be
    analysed. *)
Definition ocrPages : list (string * (string * string)) :=
  [ ("", ("1", "The Chola dynasty ruled the Kaveri delta for four centuries."));
    (Str.nl, ("2", "Blank."));
    (Str.nl, ("3", "The Pallava kings built the shore temple at Mamallapuram.")) ].

Definition ocrText : string := OcrText.document ocrPages Str.nl.

(** The model as the calls for the three pages see it: the call for the
    third page is rate limited. *)
Definition ocrModels (k : nat) : Gemini Parsed :=
  match k with
  | 2%nat => alwaysLimited
  | _ => steady
  end.

(** The navigator of a document of five pages, just mounted. *)
Definition freshNav : Nav := mountNav (props 5) ∅ start 0.

(** The state after the three pages of a document were analysed. *)
Definition finished3 : World :=
  world_of (runOps steady storeUp extract (props 3) reader [OpAnalyzeAll] (fresh 3)).

End Sample.

(** * Properties *)

(** ** Consolidation

    A consolidation never throws: it skips, updates, creates, or fails to
    do so and reports it. *)

Lemma sameProgress_refl w : sameProgress w w.
Proof. unfold sameProgress. repeat split; auto; lia. Qed.

Lemma sameProgress_afterStoreCall lat w : sameProgress w (afterStoreCall lat w).
Proof. unfold sameProgress. simpl. repeat split; auto; lia. Qed.

Ltac run_store store w :=
  unfold updateStudyHistory, saveStudyHistory, callStore,
    setStudyHistoryId, sessionStorage_setItem;
  unfold try_catch, bind, gets, modify, ret, emit;
  cbn beta;
  destruct (store (storeCalls w)) as [lat [newId|e]]; simpl.

Lemma saveConsolidatedHistoryForPage_result store r p a w :
  ∃ w' t, saveConsolidatedHistoryForPage store r p a w = (Normal tt, w', t) ∧
          Consolidated (r_studyHistoryId r) w w' t.
Proof.
  unfold saveConsolidatedHistoryForPage.
  destruct (user r) as [u|]; [|eexists _, _; split; [reflexivity|constructor]].
  unfold try_catch at 1, bind at 1, gets at 1.
  destruct (length _ =? 0)%nat; [eexists _, _; split; [reflexivity|constructor]|].
  destruct (truthyId (r_studyHistoryId r)) as [id|] eqn:Hid.
  - run_store store w; eexists _, _; (split; [reflexivity|]).
    + eapply consolidated_update; eauto using sameProgress_afterStoreCall.
    + eapply consolidated_update; eauto using sameProgress_afterStoreCall.
  - run_store store w; eexists _, _; (split; [reflexivity|]).
    + eapply consolidated_create; eauto. apply sameProgress_afterStoreCall.
    + eapply consolidated_create_failed; eauto using sameProgress_afterStoreCall.
Qed.

Lemma saveConsolidatedHistory_result store r w :
  ∃ w' t, saveConsolidatedHistory store r w = (Normal tt, w', t) ∧
          Consolidated (r_studyHistoryId r) w w' t.
Proof.
  unfold saveConsolidatedHistory.
  destruct (user r) as [u|]; [|eexists _, _; split; [reflexivity|constructor]].
  unfold try_catch at 1, bind at 1, gets at 1.
  destruct (length _ =? 0)%nat; [eexists _, _; split; [reflexivity|constructor]|].
  destruct (truthyId (r_studyHistoryId r)) as [id|] eqn:Hid.
  - run_store store w; eexists _, _; (split; [reflexivity|]).
    + eapply consolidated_update; eauto using sameProgress_afterStoreCall.
    + eapply consolidated_update; eauto using sameProgress_afterStoreCall.
  - run_store store w; eexists _, _; (split; [reflexivity|]).
    + eapply consolidated_create; eauto. apply sameProgress_afterStoreCall.
    + eapply consolidated_create_failed; eauto using sameProgress_afterStoreCall.
Qed.

(** The merged record sent by a consolidation. *)

Lemma saveConsolidatedHistoryForPage_records store r p a w :
  recordsOf (events (saveConsolidatedHistoryForPage store r p a w))
  = match user r with
    | Some _ =>
        let l := analyzedPagesListOf (Map_set p a (deref (heap w) (r_pageAnalyses r))) in
        if (length l =? 0)%nat then []
        else [analysisResultForPage (file_name (file r)) l]
    | None => []
    end.
Proof.
  unfold saveConsolidatedHistoryForPage.
  destruct (user r) as [u|]; [|done].
  unfold try_catch at 1, bind at 1, gets at 1. cbn zeta.
  destruct (length _ =? 0)%nat; [done|].
  destruct (truthyId (r_studyHistoryId r)) as [id|] eqn:Hid.
  - run_store store w; done.
  - run_store store w; done.
Qed.

Lemma saveConsolidatedHistory_records store r w :
  recordsOf (events (saveConsolidatedHistory store r w))
  = match user r with
    | Some _ =>
        let l := analyzedPagesListOf (deref (heap w) (r_pageAnalyses r)) in
        if (length l =? 0)%nat then []
        else [analysisResultAll (file_name (file r)) l]
    | None => []
    end.
Proof.
  unfold saveConsolidatedHistory.
  destruct (user r) as [u|]; [|done].
  unfold try_catch at 1, bind at 1, gets at 1. cbn zeta.
  destruct (length _ =? 0)%nat; [done|].
  destruct (truthyId (r_studyHistoryId r)) as [id|] eqn:Hid.
  - run_store store w; done.
  - run_store store w; done.
Qed.

(** ** The analysis client

    A call of the client moves the clock forward, emits network events only
    and answers about the page it was asked about. *)

Lemma generateContentLoop_net {A} (gemini : Gemini A) prompt maxTok retries rem i last n :
  clock n ≤ clock (world_of (generateContentLoop gemini prompt maxTok retries rem i last n)) ∧
  Forall isNetEvent (events (generateContentLoop gemini prompt maxTok retries rem i last n)).
Proof.
  revert i last n. induction rem as [|rem IH]; intros i last n; simpl.
  - split; [done|constructor].
  - unfold try_catch, generateContent.
    destruct (gemini (modelCalls n) prompt maxTok) as [lat [a|e]]; simpl.
    + split; [lia|by repeat constructor].
    + unfold bind.
      set (n1 := {| clock := clock n + Z.of_N lat; modelCalls := S (modelCalls n) |}).
      destruct (i <? retries - 1).
      * unfold sleepNet.
        specialize (IH (i + 1) (Some e) (advance (Z.max 0 (1000 * (i + 1))) n1)).
        destruct (generateContentLoop _ _ _ _ _ _ _ _) as [[res n2] t2].
        unfold world_of, events in *. simpl in *. destruct IH as [IH1 IH2].
        split; [lia|]. by repeat constructor.
      * unfold ret. specialize (IH (i + 1) (Some e) n1).
        destruct (generateContentLoop _ _ _ _ _ _ _ _) as [[res n2] t2].
        unfold world_of, events in *. simpl in *. destruct IH as [IH1 IH2].
        split; [lia|]. by repeat constructor.
Qed.

Lemma analyzeIndividualPage_net gemini content page lang n :
  match analyzeIndividualPage gemini content page lang n with
  | (res, n', t) =>
      clock n ≤ clock n' ∧ Forall isNetEvent t ∧
      match res with
      | Normal a => pageNumber a = page
      | Throw _ => True
      end
  end.
Proof.
  unfold analyzeIndividualPage, bind, generateContentWithRetry.
  pose proof (generateContentLoop_net gemini (pagePrompt content page lang) 2500 3
                (Z.to_nat 3) 0 None n) as [H1 H2].
  destruct (generateContentLoop _ _ _ _ _ _ _ _) as [[[[|raw]|e] n'] t];
    unfold world_of, events in *; simpl in *; rewrite ?app_nil_r; done.
Qed.

(** ** One attempt and the retry loop

    [analyzePageAttempt] and [analyzePageLoop] satisfy the big-step
    descriptions [AttemptResult] and [PageLoop]. *)

Section AttemptFacts.

Variable gemini : Gemini Parsed.
Variable store : Store.
Variable extract : string → Z → Z → string.

Lemma truthy_false s : Str.truthy s = false ↔ s = "".
Proof. by destruct s. Qed.

Lemma analyzePageAttempt_result r page w :
  AttemptResult gemini store extract r page w (analyzePageAttempt gemini store extract r page w).
Proof.
  unfold analyzePageAttempt.
  destruct (Str.truthy (Str.trim (extract (fullText r) page page))) eqn:Hb; simpl.
  - assert (Hne : Str.trim (extract (fullText r) page page) ≠ "").
    { intros H. rewrite H in Hb. done. }
    unfold bind at 1, callAnalyzeIndividualPage, liftNet.
    destruct (analyzeIndividualPage gemini _ page (outputLanguage r) (net w))
      as [[[a|e] n1] t1] eqn:Hcall.
    + unfold bind at 1, setPageAnalyses at 1, modify at 1.
      destruct (saveConsolidatedHistoryForPage_result store r page (markAnalyzed a)
                  (withPage page (markAnalyzed a) (set_net n1 w)))
        as (w3 & t3 & Hs & _).
      unfold bind at 1. rewrite Hs. unfold bind, emit, setIsAnalyzing, modify.
      simpl. by eapply attempt_ok.
    + by eapply attempt_failed.
  - apply truthy_false in Hb. by apply attempt_blank.
Qed.

Lemma analyzePageLoop_step r page mr rem attempt delay w :
  analyzePageLoop gemini store extract r page mr (S rem) attempt delay w =
  match analyzePageAttempt gemini store extract r page w with
  | (Normal a, w1, t1) => (Normal a, w1, t1)
  | (Throw e, w1, t1) =>
      if retryable e attempt mr then
        match analyzePageLoop gemini store extract r page mr rem (attempt + 1)
                (delay * 2) (asleep delay w1) with
        | (res, w2, t2) =>
            (res, w2,
             t1 ++ EvToast toast_info (msgRetrying page delay) ::
                   EvSleep delay :: t2)
        end
      else
        (Throw e, withIsAnalyzing false w1,
         t1 ++ [EvToast toast_error (msgFailed page attempt)])
  end.
Proof.
  simpl. unfold try_catch.
  destruct (analyzePageAttempt gemini store extract r page w) as [[[a|e] w1] t1];
    [done|].
  destruct (retryable e attempt mr); [|done].
  unfold bind, emit.
  change (sleep delay w1) with (Normal tt, asleep delay w1, [EvSleep delay]).
  cbv iota beta.
  destruct (analyzePageLoop gemini store extract r page mr rem (attempt + 1)
              (delay * 2) (asleep delay w1)) as [[res w2] t2].
  reflexivity.
Qed.

Lemma analyzePageLoop_run r page mr rem attempt delay w :
  PageLoop gemini store extract r page mr rem attempt delay w
    (analyzePageLoop gemini store extract r page mr rem attempt delay w).
Proof.
  revert attempt delay w. induction rem as [|rem IH]; intros attempt delay w.
  - constructor.
  - rewrite analyzePageLoop_step.
    pose proof (analyzePageAttempt_result r page w) as Ha.
    destruct (analyzePageAttempt gemini store extract r page w) as [[[[]|e] w1] t1].
    + by constructor.
    + destruct (retryable e attempt mr) eqn:Hr.
      * specialize (IH (attempt + 1) (delay * 2) (asleep delay w1)).
        destruct (analyzePageLoop gemini store extract r page mr rem (attempt + 1)
                    (delay * 2) (asleep delay w1)) as [[res w2] t2].
        by eapply loop_retried.
      * by eapply loop_terminal.
Qed.

End AttemptFacts.

(** ** Classes of events

    What the observations of a trace see of network events, store calls
    and notifications. *)

Lemma Consolidated_persist rid w w' t :
  Consolidated rid w w' t → Forall isPersistEvent t.
Proof.
  destruct 1; repeat constructor; try done;
    (eapply Forall_impl; [eassumption|]); by intros [].
Qed.

Lemma Consolidated_sameProgress rid w w' t :
  Consolidated rid w w' t → sameProgress w w'.
Proof. destruct 1; auto using sameProgress_refl. Qed.

Lemma analyzeCalls_app t1 t2 : analyzeCalls (t1 ++ t2) = analyzeCalls t1 ++ analyzeCalls t2.
Proof. apply omap_app. Qed.

Lemma analyzeCalls_none (P : Event → bool) t :
  (∀ e, P e → analyzeCall e = None) → Forall P t → analyzeCalls t = [].
Proof.
  intros HP. induction 1 as [|e t He _ IH]; [done|].
  unfold analyzeCalls in *. simpl. by rewrite (HP e He).
Qed.

Lemma analyzeCalls_net t : Forall isNetEvent t → analyzeCalls t = [].
Proof. apply analyzeCalls_none. by intros []. Qed.

Lemma analyzeCalls_persist t : Forall isPersistEvent t → analyzeCalls t = [].
Proof. apply analyzeCalls_none. by intros []. Qed.

Lemma idRun_app k t1 t2 :
  idRun k (t1 ++ t2) = idRun k t1 ≫= λ k', idRun k' t2.
Proof.
  revert k. induction t1 as [|e t1 IH]; intros k; simpl; [done|].
  destruct (idStep k e); simpl; [apply IH|done].
Qed.

Lemma idRun_other (P : Event → bool) k t :
  (∀ e, P e → isStoreCall e = false) → Forall P t → idRun k t = Some k.
Proof.
  intros HP. induction 1 as [|e t He _ IH]; [done|].
  simpl. specialize (HP e He). by destruct e.
Qed.

Lemma idRun_net k t : Forall isNetEvent t → idRun k t = Some k.
Proof. apply idRun_other. by intros []. Qed.

Lemma idRun_app_net k t1 t2 : Forall isNetEvent t1 → idRun k (t1 ++ t2) = idRun k t2.
Proof. intros H. by rewrite idRun_app, idRun_net. Qed.

Lemma idRun_toasts k t : Forall isSaveFailedToast t → idRun k t = Some k.
Proof. apply idRun_other. by intros []. Qed.

(** The identifier discipline of one consolidation whose render knows the
    identifier of the state. *)
Lemma Consolidated_idRun rid w w' t :
  Consolidated rid w w' t →
  truthyId rid = truthyId (studyHistoryId w) →
  idRun (truthyId (studyHistoryId w)) t = Some (truthyId (studyHistoryId w')).
Proof.
  destruct 1 as [|id res pages out w' toasts Hid _ Hsame _ Htoasts
                 |owner res meta newId w' Hid _ Hnew
                 |owner res meta e w' toasts Hid _ Hsame _ Htoasts]; intros Hfresh.
  - done.
  - simpl. rewrite <- Hfresh, Hid. simpl. rewrite String.eqb_refl.
    rewrite idRun_toasts by done. by rewrite Hsame, <- Hfresh, Hid.
  - simpl. rewrite <- Hfresh, Hid. simpl. by rewrite Hnew.
  - simpl. rewrite <- Hfresh, Hid. simpl.
    rewrite idRun_toasts by done. by rewrite Hsame, <- Hfresh, Hid.
Qed.

(** A consolidation whose render holds an identifier keeps it. *)
Lemma Consolidated_known rid w w' t id :
  Consolidated rid w w' t → truthyId rid = Some id →
  studyHistoryId w' = studyHistoryId w.
Proof. destruct 1; intros; simplify_eq; done. Qed.


(** ** The outcomes of an attempt *)

Section RetryCalls.

Variable gemini : Gemini Parsed.
Variable store : Store.
Variable extract : string → Z → Z → string.

Lemma attempt_throw r page w e w1 t1 :
  AttemptResult gemini store extract r page w (Throw e, w1, t1) →
  ∃ n1 t0,
    Str.trim (extract (fullText r) page page) ≠ "" ∧
    analyzeIndividualPage gemini (extract (fullText r) page page) page
      (outputLanguage r) (net w) = (Throw e, n1, t0) ∧
    clock (net w) ≤ clock n1 ∧ Forall isNetEvent t0 ∧
    w1 = set_net n1 w ∧
    t1 = EvAnalyze (clock (net w)) page (extract (fullText r) page page) (Some e)
           :: t0.
Proof.
  inversion 1 as [|e' n1 t0 Hne Hcall|]; subst.
  pose proof (analyzeIndividualPage_net gemini (extract (fullText r) page page)
                page (outputLanguage r) (net w)) as Hnet.
  rewrite Hcall in Hnet. destruct Hnet as (Hclock & Hev & _).
  by exists n1, t0.
Qed.

Lemma attempt_normal r page w u w1 t1 :
  AttemptResult gemini store extract r page w (Normal u, w1, t1) →
  (Str.trim (extract (fullText r) page page) = "" ∧
   w1 = withIsAnalyzing false (withPage page (emptyAnalysis page) w) ∧
   t1 = [EvToast toast_warning (msgSkipping page)]) ∨
  (∃ a n1 t0 w3 t3,
     Str.trim (extract (fullText r) page page) ≠ "" ∧
     analyzeIndividualPage gemini (extract (fullText r) page page) page
       (outputLanguage r) (net w) = (Normal a, n1, t0) ∧
     pageNumber a = page ∧
     clock (net w) ≤ clock n1 ∧ Forall isNetEvent t0 ∧
     saveConsolidatedHistoryForPage store r page (markAnalyzed a)
       (withPage page (markAnalyzed a) (set_net n1 w)) = (Normal tt, w3, t3) ∧
     Consolidated (r_studyHistoryId r)
       (withPage page (markAnalyzed a) (set_net n1 w)) w3 t3 ∧
     w1 = withIsAnalyzing false w3 ∧
     t1 = EvAnalyze (clock (net w)) page (extract (fullText r) page page) None
            :: t0 ++ t3 ++ [EvToast toast_success (msgAnalyzed page)]).
Proof.
  inversion 1 as [Hb| |a n1 t0 w3 t3 Hne Hcall Hsave]; subst.
  - by left.
  - right.
    pose proof (analyzeIndividualPage_net gemini (extract (fullText r) page page)
                  page (outputLanguage r) (net w)) as Hnet.
    rewrite Hcall in Hnet. destruct Hnet as (Hclock & Hev & Hpage).
    destruct (saveConsolidatedHistoryForPage_result store r page (markAnalyzed a)
                (withPage page (markAnalyzed a) (set_net n1 w)))
      as (w3' & t3' & Hs & Hcons).
    rewrite Hsave in Hs. simplify_eq.
    by exists a, n1, t0, w3', t3'.
Qed.

(** *** The calls of the client made by the retry loop *)

Lemma failures_app t1 t2 : failures (t1 ++ t2) = failures t1 ++ failures t2.
Proof. unfold failures. by rewrite analyzeCalls_app, map_app. Qed.

Lemma PageLoop_calls r page mr rem attempt delay w res w' t :
  PageLoop gemini store extract r page mr rem attempt delay w (res, w', t) →
  retriesOnlyRateLimited (failures t) = true ∧
  Forall (λ c, c.1.2 = page) (analyzeCalls t) ∧
  (length (failures t) ≤ rem)%nat ∧
  (∀ pre e post,
     failures t = pre ++ Some e :: post → Str.includes "429" e = false →
     post = [] ∧ res = Throw e).
Proof.
  intros H. remember (res, w', t) as out eqn:Hout. revert res w' t Hout.
  induction H as [attempt delay w
                 |rem attempt delay w w1 t1 Ha
                 |rem attempt delay w e w1 t1 Ha Hr
                 |rem attempt delay w e w1 t1 res2 w2 t2 Ha Hr Hloop IH];
    intros res w' t [= <- <- <-].
  - split_and!; try done; try (simpl; lia); try by intros [].
  - apply attempt_normal in Ha
      as [(Hb & -> & ->)|(a & n1 & t0 & w3 & t3 & _ & _ & _ & _ & Hnet & _ & Hc & -> & ->)].
    + split_and!; try done; try (simpl; lia); try by intros [].
    + assert (Hcalls : analyzeCalls
        (EvAnalyze (clock (net w)) page (extract (fullText r) page page) None
           :: t0 ++ t3 ++ [EvToast toast_success (msgAnalyzed page)])
        = [(clock (net w), page, None)]).
      { change (EvAnalyze ?a ?b ?c ?d :: ?l) with ([EvAnalyze a b c d] ++ l).
        rewrite !analyzeCalls_app, (analyzeCalls_net t0),
          (analyzeCalls_persist t3) by eauto using Consolidated_persist. done. }
      unfold failures. rewrite Hcalls. simpl.
      split_and!;
        [done|by repeat constructor|lia|intros [|? []] e post; by intros [=]].
  - apply attempt_throw in Ha as (n1 & t0 & _ & _ & _ & Hnet & -> & ->).
    assert (Hcalls : analyzeCalls
        ((EvAnalyze (clock (net w)) page (extract (fullText r) page page) (Some e)
           :: t0) ++ [EvToast toast_error (msgFailed page attempt)])
        = [(clock (net w), page, Some e)]).
    { change (EvAnalyze ?a ?b ?c ?d :: ?l) with ([EvAnalyze a b c d] ++ l).
      rewrite !analyzeCalls_app, (analyzeCalls_net t0) by done. done. }
    unfold failures. rewrite Hcalls. simpl.
    split_and!; [done|by repeat constructor|lia|].
    intros [|? []] e' post; intros [=]; by subst.
  - apply attempt_throw in Ha as (n1 & t0 & _ & _ & _ & Hnet & -> & ->).
    destruct (IH _ _ _ eq_refl) as (IH1 & IH2 & IH3 & IH4).
    assert (Hcalls : analyzeCalls
        ((EvAnalyze (clock (net w)) page (extract (fullText r) page page) (Some e)
           :: t0) ++ EvToast toast_info (msgRetrying page delay)
                  :: EvSleep delay :: t2)
        = (clock (net w), page, Some e) :: analyzeCalls t2).
    { change (EvAnalyze ?a ?b ?c ?d :: ?l) with ([EvAnalyze a b c d] ++ l).
      change (EvToast ?a ?b :: EvSleep ?c :: ?l)
        with ([EvToast a b; EvSleep c] ++ l).
      rewrite !analyzeCalls_app, (analyzeCalls_net t0) by done. done. }
    unfold failures in *. rewrite Hcalls. simpl.
    assert (Hinc : Str.includes "429" e = true).
    { unfold retryable in Hr. by repeat (apply andb_prop in Hr as [Hr ?]). }
    split_and!.
    + destruct (map snd (analyzeCalls t2)); [done|]. by rewrite Hinc.
    + by constructor.
    + lia.
    + intros [|x pre] e' post; intros [=] Hno; subst; [congruence|].
      by eapply IH4.
Qed.

End RetryCalls.

(** ** The heap of Map objects *)

Lemma sameHeap_refl w : sameHeap w w.
Proof. done. Qed.

Lemma sameHeap_trans w1 w2 w3 : sameHeap w1 w2 → sameHeap w2 w3 → sameHeap w1 w3.
Proof. intros [? ?] [? ?]. split; congruence. Qed.

Lemma sameProgress_sameHeap w w' : sameProgress w w' → sameHeap w w'.
Proof. intros (? & ? & _). by split. Qed.

Lemma sameHeap_withPage p a w0 w :
  sameHeap w w0 → sameHeap (withPage p a w) (withPage p a w0).
Proof.
  intros [Hh Hr]. unfold sameHeap, withPage. simpl. by rewrite Hh, Hr.
Qed.

Lemma sameHeap_pagesOf w w' : sameHeap w w' → pagesOf w' = pagesOf w.
Proof. intros [Hh Hr]. unfold pagesOf. by rewrite Hh, Hr. Qed.

Lemma withPage_pagesOf p a w : pagesOf (withPage p a w) = Map_set p a (pagesOf w).
Proof.
  unfold pagesOf, withPage, deref. simpl.
  rewrite lookup_app_r; rewrite length_insert; [|done].
  by rewrite Nat.sub_diag.
Qed.

Lemma withPage_deref p a w (ref : nat) :
  (ref < length (heap w))%nat →
  deref (heap (withPage p a w)) ref =
  if decide (ref = pageAnalysesRef w) then Map_set p a (deref (heap w) ref)
  else deref (heap w) ref.
Proof.
  intros Hlt. unfold withPage, deref. simpl.
  rewrite lookup_app_l by (by rewrite length_insert).
  destruct (decide (ref = pageAnalysesRef w)) as [->|Hne].
  - by rewrite list_lookup_insert_eq.
  - by rewrite list_lookup_insert_ne.
Qed.

Lemma withPage_length p a w : length (heap (withPage p a w)) = S (length (heap w)).
Proof. unfold withPage. simpl. rewrite length_app, length_insert. simpl. lia. Qed.

Lemma Map_get_set_eq k v m : Map_get k (Map_set k v m) = Some v.
Proof.
  induction m as [|[k' v'] m IH]; simpl.
  - by rewrite Z.eqb_refl.
  - destruct (Z.eqb k k') eqn:E; simpl; [by rewrite Z.eqb_refl|by rewrite E].
Qed.

Lemma Map_get_set_ne k k' v m : k ≠ k' → Map_get k (Map_set k' v m) = Map_get k m.
Proof.
  intros Hne. induction m as [|[k1 v1] m IH]; simpl.
  - by destruct (Z.eqb_spec k k').
  - destruct (Z.eqb_spec k' k1) as [->|]; simpl.
    + by destruct (Z.eqb_spec k k1).
    + by rewrite IH.
Qed.

Lemma pageDone_get k m m' : Map_get k m = Map_get k m' → pageDone k m = pageDone k m'.
Proof. unfold pageDone, Map_has. by intros ->. Qed.

Lemma pageDone_set k v m : isAnalyzed v = true → pageDone k (Map_set k v m) = true.
Proof. intros H. unfold pageDone, Map_has. by rewrite Map_get_set_eq. Qed.

(** ** The progress made by the retry loop *)

Section LoopFacets.

Variable gemini : Gemini Parsed.
Variable store : Store.
Variable extract : string → Z → Z → string.

Lemma retryable_lt e attempt mr : retryable e attempt mr = true → attempt < mr - 1.
Proof. unfold retryable. intros H. apply andb_prop in H as [_ H]. lia. Qed.

Lemma retryable_includes e attempt mr :
  retryable e attempt mr = true → Str.includes "429" e = true.
Proof.
  unfold retryable. intros H. apply andb_prop in H as [H _].
  by apply andb_prop in H as [_ H].
Qed.

Lemma PageLoop_progress r page mr rem attempt delay w res w' t :
  PageLoop gemini store extract r page mr rem attempt delay w (res, w', t) →
  attempt + Z.of_nat rem = mr → (0 < rem)%nat →
  match res with
  | Throw _ => sameHeap w w'
  | Normal _ => pageStored page w w'
  end.
Proof.
  intros H. remember (res, w', t) as out eqn:Hout. revert res w' t Hout.
  induction H as [attempt delay w
                 |rem attempt delay w w1 t1 Ha
                 |rem attempt delay w e w1 t1 Ha Hr
                 |rem attempt delay w e w1 t1 res2 w2 t2 Ha Hr Hloop IH];
    intros res w' t [= <- <- <-] Hinv Hpos.
  - lia.
  - apply attempt_normal in Ha
      as [(Hb & -> & ->)|(a & n1 & t0 & w3 & t3 & _ & _ & _ & _ & _ & _ & Hc & -> & ->)].
    + exists (emptyAnalysis page), w. done.
    + exists (markAnalyzed a), (set_net n1 w). split_and!; [done|done|].
      apply Consolidated_sameProgress, sameProgress_sameHeap in Hc.
      destruct Hc. by split.
  - apply attempt_throw in Ha as (n1 & t0 & _ & _ & _ & _ & -> & ->). done.
  - apply attempt_throw in Ha as (n1 & t0 & _ & _ & _ & _ & -> & ->).
    apply retryable_lt in Hr.
    specialize (IH _ _ _ eq_refl). destruct res2.
    + destruct IH as (a' & w0 & Ha' & H0 & H1); [lia|lia|].
      by exists a', w0.
    + destruct IH as [? ?]; [lia|lia|]. by split.
Qed.

(** *** The shape of the trace of the retry loop *)

Lemma notCompletion_net t : Forall isNetEvent t → Forall notCompletion t.
Proof. intros H. eapply Forall_impl; [exact H|]. by intros []. Qed.

Lemma notCompletion_persist t : Forall isPersistEvent t → Forall notCompletion t.
Proof.
  intros H. eapply Forall_impl; [exact H|].
  intros [| | |[] m| |]; try done. unfold isPersistEvent, notCompletion, isAnalysisError.
  simpl. by intros ->%Is_true_true.
Qed.

Lemma PageLoop_trace r page mr rem attempt delay w res w' t :
  PageLoop gemini store extract r page mr rem attempt delay w (res, w', t) →
  attempt + Z.of_nat rem = mr → (0 < rem)%nat →
  ∃ body final,
    t = body ++ [final] ∧ Forall notCompletion body ∧
    match res with
    | Throw _ => ∃ n, final = EvToast toast_error (msgFailed page n)
    | Normal _ => isCompletion final
    end.
Proof.
  intros H. remember (res, w', t) as out eqn:Hout. revert res w' t Hout.
  induction H as [attempt delay w
                 |rem attempt delay w w1 t1 Ha
                 |rem attempt delay w e w1 t1 Ha Hr
                 |rem attempt delay w e w1 t1 res2 w2 t2 Ha Hr Hloop IH];
    intros res w' t [= <- <- <-] Hinv Hpos.
  - lia.
  - apply attempt_normal in Ha
      as [(Hb & -> & ->)|(a & n1 & t0 & w3 & t3 & _ & _ & _ & _ & Hnet & _ & Hc & -> & ->)].
    + by exists [], (EvToast toast_warning (msgSkipping page)).
    + exists (EvAnalyze (clock (net w)) page (extract (fullText r) page page) None
                :: t0 ++ t3), (EvToast toast_success (msgAnalyzed page)).
      split_and!.
      * simpl. by rewrite <- app_assoc.
      * constructor; [done|]. apply Forall_app. split.
        -- by apply notCompletion_net.
        -- eapply notCompletion_persist, Consolidated_persist; eauto.
      * done.
  - apply attempt_throw in Ha as (n1 & t0 & _ & _ & _ & Hnet & -> & ->).
    eexists _, _. split_and!; [reflexivity| |by eexists].
    constructor; [done|]. by apply notCompletion_net.
  - apply attempt_throw in Ha as (n1 & t0 & _ & _ & _ & Hnet & -> & ->).
    apply retryable_lt in Hr.
    destruct (IH _ _ _ eq_refl) as (body & final & -> & Hbody & Hfinal); [lia|lia|].
    exists ((EvAnalyze (clock (net w)) page (extract (fullText r) page page) (Some e)
               :: t0) ++ EvToast toast_info (msgRetrying page delay)
                      :: EvSleep delay :: body), final.
    split_and!; [|  |done].
    + by rewrite <- !app_assoc.
    + apply Forall_app. split.
      * constructor; [done|]. by apply notCompletion_net.
      * by repeat constructor.
Qed.

(** *** The identifier discipline of the retry loop *)

Lemma PageLoop_idRun r page mr rem attempt delay w res w' t :
  PageLoop gemini store extract r page mr rem attempt delay w (res, w', t) →
  truthyId (r_studyHistoryId r) = truthyId (studyHistoryId w) →
  idRun (truthyId (studyHistoryId w)) t = Some (truthyId (studyHistoryId w')).
Proof.
  intros H. remember (res, w', t) as out eqn:Hout. revert res w' t Hout.
  induction H as [attempt delay w
                 |rem attempt delay w w1 t1 Ha
                 |rem attempt delay w e w1 t1 Ha Hr
                 |rem attempt delay w e w1 t1 res2 w2 t2 Ha Hr Hloop IH];
    intros res w' t [= <- <- <-] Hfresh.
  - done.
  - apply attempt_normal in Ha
      as [(Hb & -> & ->)|(a & n1 & t0 & w3 & t3 & _ & _ & _ & _ & Hnet & _ & Hc & -> & ->)].
    + done.
    + simpl. rewrite idRun_app_net, idRun_app by done.
      apply Consolidated_idRun in Hc; [|exact Hfresh]. simpl in Hc. by rewrite Hc.
  - apply attempt_throw in Ha as (n1 & t0 & _ & _ & _ & Hnet & -> & ->).
    simpl. by rewrite idRun_app_net.
  - apply attempt_throw in Ha as (n1 & t0 & _ & _ & _ & Hnet & -> & ->).
    simpl. rewrite idRun_app_net by done. simpl.
    by apply (IH _ _ _ eq_refl).
Qed.

End LoopFacets.

(** ** [analyzePage] and [analyzeAllPages], unfolded *)

Lemma idRun_known id t k : idRun (Some id) t = Some k → k = Some id.
Proof.
  induction t as [|e t IH]; simpl; [by intros [= <-]|].
  destruct e; simpl; try done. destruct (String.eqb id0 id); [done|done].
Qed.

Section Unfoldings.

Variable gemini : Gemini Parsed.
Variable store : Store.
Variable extract : string → Z → Z → string.

Lemma analyzePage_eq r page w :
  analyzePage gemini store extract r page w =
  if pageDone page (deref (heap w) (r_pageAnalyses r)) then (Normal tt, w, [])
  else analyzePageLoop gemini store extract r page maxRetries 3 0 initialDelay
         (withIsAnalyzing true w).
Proof.
  unfold analyzePage, bind, gets.
  destruct (pageDone page (deref (heap w) (r_pageAnalyses r))); [done|].
  unfold setIsAnalyzing, modify.
  change (Z.to_nat maxRetries) with 3%nat. cbv iota beta.
  by destruct (analyzePageLoop gemini store extract r page maxRetries 3 0 initialDelay
              (withIsAnalyzing true w)) as [[res w2] t2].
Qed.

Lemma analyzePage_run r page w :
  pageDone page (deref (heap w) (r_pageAnalyses r)) = false →
  PageLoop gemini store extract r page maxRetries 3 0 initialDelay
    (withIsAnalyzing true w) (analyzePage gemini store extract r page w).
Proof.
  intros Hnew. rewrite analyzePage_eq, Hnew. apply analyzePageLoop_run.
Qed.

Lemma analyzePage_idRun r page w :
  truthyId (r_studyHistoryId r) = truthyId (studyHistoryId w) →
  idRun (truthyId (studyHistoryId w)) (events (analyzePage gemini store extract r page w))
  = Some (truthyId (studyHistoryId (world_of (analyzePage gemini store extract r page w)))).
Proof.
  intros Hfresh.
  destruct (pageDone page (deref (heap w) (r_pageAnalyses r))) eqn:Hdone.
  - by rewrite analyzePage_eq, Hdone.
  - pose proof (analyzePage_run r page w Hdone) as Hrun.
    destruct (analyzePage gemini store extract r page w) as [[res w'] t].
    by apply PageLoop_idRun in Hrun.
Qed.

Lemma analyzeAllLoop_step r rem i w :
  analyzeAllLoop gemini store extract r (S rem) i w =
  if pageDone i (deref (heap w) (r_pageAnalyses r))
  then analyzeAllLoop gemini store extract r rem (i + 1) w
  else
    match analyzePage gemini store extract r i w with
    | (Normal _, w1, t1) =>
        if i <? totalPages r then
          match analyzeAllLoop gemini store extract r rem (i + 1) (asleep 1000 w1) with
          | (res, w3, t3) => (res, w3, t1 ++ EvSleep 1000 :: t3)
          end
        else
          match analyzeAllLoop gemini store extract r rem (i + 1) w1 with
          | (res, w3, t3) => (res, w3, t1 ++ t3)
          end
    | (Throw e, w1, t1) =>
        (Normal false, w1, t1 ++ [EvToast toast_error (msgStopped i)])
    end.
Proof.
  simpl. unfold bind at 1, gets at 1. cbv iota beta.
  destruct (pageDone i (deref (heap w) (r_pageAnalyses r))); simpl.
  - by destruct (analyzeAllLoop gemini store extract r rem (i + 1) w) as [[res w3] t3].
  - unfold bind at 1, try_catch, bind at 1.
    destruct (analyzePage gemini store extract r i w) as [[[[]|e] w1] t1].
    + destruct (i <? totalPages r).
      * unfold bind. change (sleep 1000 w1) with (Normal tt, asleep 1000 w1, [EvSleep 1000]).
        cbv iota beta. unfold ret.
        destruct (analyzeAllLoop gemini store extract r rem (i + 1) (asleep 1000 w1))
          as [[res w3] t3]. simpl. rewrite <- app_assoc. reflexivity.
      * unfold bind, ret. cbv iota beta.
        destruct (analyzeAllLoop gemini store extract r rem (i + 1) w1)
          as [[res w3] t3]. simpl. by rewrite app_nil_r.
    + unfold bind, emit, ret. simpl. by rewrite app_nil_r.
Qed.

End Unfoldings.

(** ** The identifier discipline of a session *)

Lemma idRun_grants known t k :
  idRun known t = Some k →
  (length (List.filter grantsIdentifier t) ≤ match known with Some _ => 0 | None => 1 end)%nat ∧
  (is_Some known → List.filter isCreate t = []).
Proof.
  revert known. induction t as [|e t IH]; intros known; simpl.
  - intros _. split; [destruct known; lia|done].
  - destruct (idStep known e) as [known'|] eqn:Hstep; [|done].
    intros Hrun. destruct (IH _ Hrun) as [IH1 IH2].
    destruct e; simpl in *; simplify_eq; try done.
    + destruct known; [done|]. simplify_eq. split; [|by intros []].
      destruct outcome as [id|]; simpl in *; [|done].
      destruct (Str.truthy id); simpl in *; lia.
    + destruct known as [id'|]; [|done].
      destruct (String.eqb id id'); by simplify_eq.
Qed.

Section IdentifierFacts.

Variable gemini : Gemini Parsed.
Variable store : Store.
Variable extract : string → Z → Z → string.

Lemma analyzeAllLoop_idRun r rem i w id :
  truthyId (r_studyHistoryId r) = Some id →
  truthyId (studyHistoryId w) = Some id →
  idRun (Some id) (events (analyzeAllLoop gemini store extract r rem i w)) = Some (Some id) ∧
  truthyId (studyHistoryId (world_of (analyzeAllLoop gemini store extract r rem i w)))
  = Some id.
Proof.
  intros Hr. revert i w. induction rem as [|rem IH]; intros i w Hw; [done|].
  rewrite analyzeAllLoop_step.
  destruct (pageDone i (deref (heap w) (r_pageAnalyses r))); [by apply IH|].
  pose proof (analyzePage_idRun gemini store extract r i w) as Hp.
  rewrite Hr, Hw in Hp. specialize (Hp eq_refl).
  destruct (analyzePage gemini store extract r i w) as [[[[]|e] w1] t1];
    unfold events, world_of in Hp; simpl in Hp;
    pose proof (idRun_known _ _ _ Hp) as Hw1.
  - destruct (i <? totalPages r).
    + specialize (IH (i + 1) (asleep 1000 w1) Hw1).
      destruct (analyzeAllLoop gemini store extract r rem (i + 1) (asleep 1000 w1))
        as [[res w3] t3]. unfold events, world_of in *. simpl in *.
      destruct IH as [IH1 IH2]. split; [|done].
      rewrite idRun_app, Hp, Hw1. simpl. done.
    + specialize (IH (i + 1) w1 Hw1).
      destruct (analyzeAllLoop gemini store extract r rem (i + 1) w1)
        as [[res w3] t3]. unfold events, world_of in *. simpl in *.
      destruct IH as [IH1 IH2]. split; [|done].
      rewrite idRun_app, Hp, Hw1. simpl. done.
  - unfold events, world_of. simpl. split; [|done].
    rewrite idRun_app, Hp, Hw1. done.
Qed.

Lemma analyzeAllPages_eq r w :
  analyzeAllPages gemini store extract r w =
  match analyzeAllLoop gemini store extract r (Z.to_nat (totalPages r)) 1
          (withIsAnalyzing true w) with
  | (Normal ok, w1, t1) =>
      (Normal tt, withIsAnalyzing false w1,
       t1 ++
       if ok && (Z.of_nat (length (analyzedPagesListOf
                                     (deref (heap w1) (r_pageAnalyses r))))
                 =? totalPages r)
       then [EvToast toast_success msgAllDone] else [])
  | (Throw e, w1, t1) => (Throw e, w1, t1)
  end.
Proof.
  unfold analyzeAllPages, bind at 1, setIsAnalyzing at 1, modify at 1.
  cbv iota beta. unfold bind at 1.
  destruct (analyzeAllLoop gemini store extract r (Z.to_nat (totalPages r)) 1
              (withIsAnalyzing true w)) as [[[ok|e] w1] t1]; [|done].
  unfold bind, gets, setIsAnalyzing, modify, emit, ret.
  destruct ok; simpl; [|done].
  destruct (Z.of_nat _ =? totalPages r); simpl; by rewrite ?app_nil_r.
Qed.

Lemma analyzeAllLoop_normal r rem i w :
  ∃ ok, completion (analyzeAllLoop gemini store extract r rem i w) = Normal ok.
Proof.
  revert i w. induction rem as [|rem IH]; intros i w; [by exists true|].
  rewrite analyzeAllLoop_step.
  destruct (pageDone i (deref (heap w) (r_pageAnalyses r))); [by apply IH|].
  destruct (analyzePage gemini store extract r i w) as [[[[]|e] w1] t1].
  - destruct (i <? totalPages r).
    + specialize (IH (i + 1) (asleep 1000 w1)).
      by destruct (analyzeAllLoop gemini store extract r rem (i + 1) (asleep 1000 w1))
        as [[res w3] t3].
    + specialize (IH (i + 1) w1).
      by destruct (analyzeAllLoop gemini store extract r rem (i + 1) w1)
        as [[res w3] t3].
  - by exists false.
Qed.

(** One operation respects the identifier discipline when it is not the
    batch, or when the identifier is already known. *)
Lemma runOp_idRun props u op w :
  notBatch op ∨ is_Some (truthyId (studyHistoryId w)) →
  idRun (truthyId (studyHistoryId w))
    (events (runOp gemini store extract props u op w))
  = Some (truthyId (studyHistoryId
            (world_of (runOp gemini store extract props u op w)))) ∧
  completion (runOp gemini store extract props u op w) = Normal tt.
Proof.
  intros Hok. unfold runOp. destruct op as [page| | |].
  - unfold try_catch.
    pose proof (analyzePage_idRun gemini store extract (render props u w) page w
                  eq_refl) as Hp.
    destruct (analyzePage gemini store extract (render props u w) page w)
      as [[[[]|e] w1] t1]; unfold events, world_of in *; simpl in *.
    + done.
    + by rewrite app_nil_r.
  - destruct Hok as [?|[id Hid]]; [done|].
    rewrite analyzeAllPages_eq.
    pose proof (analyzeAllLoop_idRun (render props u w)
                  (Z.to_nat (totalPages (render props u w))) 1
                  (withIsAnalyzing true w) id Hid Hid) as [H1 H2].
    pose proof (analyzeAllLoop_normal (render props u w)
                  (Z.to_nat (totalPages (render props u w))) 1
                  (withIsAnalyzing true w)) as [ok Hn].
    destruct (analyzeAllLoop gemini store extract (render props u w) _ 1
                (withIsAnalyzing true w)) as [[res w1] t1].
    unfold events, world_of, completion in *. simpl in *. subst res.
    simpl. split; [|done]. rewrite Hid, idRun_app, H1. simpl.
    rewrite H2. by destruct (ok && _).
  - unfold consolidateEffect, bind, gets. simpl.
    destruct (0 <? length _)%nat; [|by unfold ret].
    destruct (saveConsolidatedHistory_result store (render props u w) w)
      as (w' & t & Hs & Hc).
    rewrite Hs. simpl. destruct w', t; simpl.
    + split; [|done]. by apply Consolidated_idRun in Hc.
    + split; [|done]. by apply Consolidated_idRun in Hc.
  - unfold syncSessionStorage. simpl.
    destruct (truthyId (studyHistoryId w)) eqn:E; simpl;
      unfold sessionStorage_setItem, modify, ret, events, world_of; simpl;
      by rewrite E.
Qed.

Lemma runOps_idRun props u ops w :
  Forall notBatch ops ∨ is_Some (truthyId (studyHistoryId w)) →
  idRun (truthyId (studyHistoryId w))
    (events (runOps gemini store extract props u ops w))
  = Some (truthyId (studyHistoryId
            (world_of (runOps gemini store extract props u ops w)))) ∧
  completion (runOps gemini store extract props u ops w) = Normal tt.
Proof.
  revert w. induction ops as [|op ops IH]; intros w Hok; [done|].
  simpl. unfold bind.
  assert (Hop : notBatch op ∨ is_Some (truthyId (studyHistoryId w))).
  { destruct Hok as [H|H]; [left; by inversion H|by right]. }
  pose proof (runOp_idRun props u op w Hop) as [H1 H2].
  destruct (runOp gemini store extract props u op w) as [[res w1] t1].
  unfold events, world_of, completion in *. simpl in *. subst res.
  assert (Hrest : Forall notBatch ops ∨ is_Some (truthyId (studyHistoryId w1))).
  { destruct Hok as [H|[id Hid]]; [left; by inversion H|right].
    rewrite Hid in H1. apply idRun_known in H1. rewrite H1. by eexists. }
  specialize (IH w1 Hrest). destruct IH as [IH1 IH2].
  destruct (runOps gemini store extract props u ops w1) as [[res w2] t2].
  unfold events, world_of, completion in *. simpl in *.
  split; [|done]. rewrite idRun_app, H1. simpl. done.
Qed.

End IdentifierFacts.

(** ** The batch *)

Lemma politeDelays_nil : politeDelays [].
Proof. intros [|x l] e t2; by intros [=]. Qed.

Lemma politeDelays_body body rest :
  Forall (λ e, ¬ isCompletion e) body → politeDelays rest → politeDelays (body ++ rest).
Proof.
  induction 1 as [|b body Hb _ IH]; intros Hrest; [done|].
  intros [|x t1] e t2; simpl; intros [= -> Heq] He Hex.
  - done.
  - by apply (IH Hrest t1 e t2).
Qed.

Lemma politeDelays_cons e rest :
  ¬ isCompletion e → politeDelays rest → politeDelays (e :: rest).
Proof. intros He. apply (politeDelays_body [e]). by constructor. Qed.

Lemma notCompletion_not e : notCompletion e → ¬ isCompletion e.
Proof. unfold notCompletion. intros H1 H2. by destruct (isCompletion e). Qed.

Lemma notCompletion_notAnalysisError e : notCompletion e → notAnalysisError e.
Proof.
  unfold notCompletion, notAnalysisError. by destruct (isCompletion e).
Qed.

Lemma isCompletion_notAnalysisError e : isCompletion e → notAnalysisError e.
Proof. by destruct e as [| | |[]| |]. Qed.

Lemma politeDelays_completion e rest :
  (Exists isAttempt rest → ∃ t3, rest = EvSleep 1000 :: t3) →
  politeDelays rest → politeDelays (e :: rest).
Proof.
  intros Hnext Hrest [|x t1] e' t2; simpl; intros [= -> Heq] He Hex.
  - subst. by apply Hnext.
  - by apply (Hrest t1 e' t2).
Qed.

Lemma politeDelays_snoc t e : politeDelays t → ¬ isAttempt e → politeDelays (t ++ [e]).
Proof.
  intros Ht He t1 e1 t2 Heq He1 Hex.
  destruct t2 as [|x t2 _] using rev_ind; [by apply Exists_nil in Hex|].
  rewrite app_comm_cons, app_assoc in Heq.
  apply app_inj_tail in Heq as [-> ->].
  apply Exists_app in Hex as [Hex|Hex].
  - destruct (Ht t1 e1 t2 eq_refl He1 Hex) as [t3 ->]. by eexists.
  - apply Exists_cons in Hex as [?|Hex]; [done|by apply Exists_nil in Hex].
Qed.

Lemma analyzedPages_app t1 t2 :
  analyzedPages (t1 ++ t2) = analyzedPages t1 ++ analyzedPages t2.
Proof. unfold analyzedPages. by rewrite analyzeCalls_app, map_app. Qed.

Lemma StronglySorted_constant (i : Z) l : Forall (λ p, p = i) l → StronglySorted Z.le l.
Proof.
  induction 1 as [|p l -> Hl IH]; constructor; [done|].
  eapply Forall_impl; [exact Hl|]. intros ? ->. lia.
Qed.

Section PageInBatch.

Variable gemini : Gemini Parsed.
Variable store : Store.
Variable extract : string → Z → Z → string.

(** One page analysis inside a batch. *)
Lemma analyzePage_batch r page w :
  wellFormedRefs r w →
  pageDone page (deref (heap w) (r_pageAnalyses r)) = false →
  ∃ res w' body final,
    analyzePage gemini store extract r page w = (res, w', body ++ [final]) ∧
    wellFormedRefs r w' ∧
    (∀ j, j ≠ page →
          Map_get j (pagesOf w') = Map_get j (pagesOf w) ∧
          Map_get j (deref (heap w') (r_pageAnalyses r))
          = Map_get j (deref (heap w) (r_pageAnalyses r))) ∧
    Forall (λ p, p = page) (analyzedPages (body ++ [final])) ∧
    Forall notCompletion body ∧
    match res with
    | Normal _ => pageDone page (pagesOf w') = true ∧ isCompletion final
    | Throw _ =>
        pagesOf w' = pagesOf w ∧
        ∃ n, final = EvToast toast_error (msgFailed page n)
    end.
Proof.
  intros [Hr0 Hcur] Hnew.
  pose proof (analyzePage_run gemini store extract r page w Hnew) as Hrun.
  destruct (analyzePage gemini store extract r page w) as [[res w'] t].
  pose proof (PageLoop_calls _ _ _ _ _ _ _ _ _ _ _ _ _ Hrun) as (_ & Hpages & _).
  pose proof (PageLoop_progress _ _ _ _ _ _ _ _ _ _ _ _ _ Hrun eq_refl) as Hprog.
  pose proof (PageLoop_trace _ _ _ _ _ _ _ _ _ _ _ _ _ Hrun eq_refl)
    as (body & final & -> & Hbody & Hfinal); [lia|].
  specialize (Hprog ltac:(lia)).
  exists res, w', body, final. split; [done|].
  assert (Hp : Forall (λ p, p = page) (analyzedPages (body ++ [final]))).
  { unfold analyzedPages. apply Forall_fmap.
    eapply Forall_impl; [exact Hpages|]. by intros [[? ?] ?]. }
  destruct res as [[]|e].
  - destruct Hprog as (a & w0 & Ha & H0 & H1).
    assert (Hpages' : pagesOf w' = Map_set page a (pagesOf w)).
    { rewrite (sameHeap_pagesOf _ _ H1), withPage_pagesOf.
      by rewrite (sameHeap_pagesOf _ _ H0). }
    destruct H0 as [Hh0 Hr0'], H1 as [Hh1 Hr1]. simpl in Hh0, Hr0'.
    assert (Hderef : deref (heap w') (r_pageAnalyses r) =
              if decide (r_pageAnalyses r = pageAnalysesRef w)
              then Map_set page a (deref (heap w) (r_pageAnalyses r))
              else deref (heap w) (r_pageAnalyses r)).
    { rewrite Hh1, withPage_deref by (by rewrite Hh0). by rewrite Hh0, Hr0'. }
    split_and!; try done.
    + split; rewrite Hh1, ?Hr1, withPage_length; simpl; rewrite ?Hh0; lia.
    + intros j Hj. split.
      * by rewrite Hpages', Map_get_set_ne.
      * rewrite Hderef. destruct (decide _); [|done]. by rewrite Map_get_set_ne.
    + rewrite Hpages'. by apply pageDone_set.
  - destruct Hprog as [Hh Hr]. simpl in *.
    split_and!; try done.
    + split; by rewrite Hh, ?Hr.
    + intros j _. unfold pagesOf. by rewrite Hh, Hr.
    + unfold pagesOf. by rewrite Hh, Hr.
Qed.

End PageInBatch.

Section BatchLoop.

Variable gemini : Gemini Parsed.
Variable store : Store.
Variable extract : string → Z → Z → string.

Lemma wellFormedRefs_asleep r ms w : wellFormedRefs r w → wellFormedRefs r (asleep ms w).
Proof. done. Qed.

Lemma analyzeAllLoop_batch r rem i w :
  wellFormedRefs r w →
  Z.of_nat rem = Z.max 0 (totalPages r + 1 - i) →
  (∀ j, i ≤ j →
        Map_get j (pagesOf w) = Map_get j (deref (heap w) (r_pageAnalyses r))) →
  ∃ ok w' t,
    analyzeAllLoop gemini store extract r rem i w = (Normal ok, w', t) ∧
    (∀ j, j < i ∨ totalPages r < j →
          Map_get j (pagesOf w') = Map_get j (pagesOf w)) ∧
    StronglySorted Z.le (analyzedPages t) ∧
    Forall (λ p, i ≤ p ≤ totalPages r ∧ pageDone p (pagesOf w) = false)
      (analyzedPages t) ∧
    politeDelays t ∧
    if ok : bool then
      Forall notAnalysisError t ∧
      ∀ j, i ≤ j ≤ totalPages r → pageDone j (pagesOf w') = true
    else ∃ k, i ≤ k ≤ totalPages r ∧ stoppedAt i w w' t k.
Proof.
  revert i w. induction rem as [|rem IH]; intros i w Hwf Hrem Hinv.
  { exists true, w, []. split_and!; try done.
    - constructor.
    - apply politeDelays_nil.
    - intros j Hj. lia. }
  assert (Hi : i ≤ totalPages r) by lia.
  rewrite analyzeAllLoop_step.
  destruct (pageDone i (deref (heap w) (r_pageAnalyses r))) eqn:Hdone.
  - (* the page is complete: skipped *)
    destruct (IH (i + 1) w Hwf) as (ok & w' & t & -> & Hout & Hsort & Hpages & Hdel & Hok).
    { lia. } { intros j Hj. apply Hinv. lia. }
    assert (Hi' : pageDone i (pagesOf w') = true).
    { rewrite <- Hdone. apply pageDone_get. rewrite Hout by lia. apply Hinv. lia. }
    exists ok, w', t. split_and!; try done.
    + intros j Hj. apply Hout. lia.
    + eapply Forall_impl; [exact Hpages|]. intros p [? ?]. split; [lia|done].
    + destruct ok.
      * destruct Hok as [Hq Hall]. split; [done|].
        intros j Hj. destruct (decide (j = i)) as [->|]; [done|]. apply Hall. lia.
      * destruct Hok as (k & Hk & n & pre & -> & Hpre & Hbefore & Hat & Hafter & Hle).
        exists k. split; [lia|]. exists n, pre. split_and!; try done.
        intros j Hj. destruct (decide (j = i)) as [->|]; [done|]. apply Hbefore. lia.
  - (* the page is analysed *)
    destruct (analyzePage_batch gemini store extract r i w Hwf Hdone)
      as (res & w1 & body & final & -> & Hwf1 & Hframe & Hcalls & Hbody & Hres).
    assert (Hnew : pageDone i (pagesOf w) = false).
    { rewrite <- Hdone. apply pageDone_get, Hinv. lia. }
    destruct res as [[]|e].
    + destruct Hres as [Hi1 Hfinal].
      assert (Hinv1 : ∀ j, i + 1 ≤ j →
                Map_get j (pagesOf w1) = Map_get j (deref (heap w1) (r_pageAnalyses r))).
      { intros j Hj. destruct (Hframe j ltac:(lia)) as [-> ->]. apply Hinv. lia. }
      destruct (Z.ltb_spec i (totalPages r)) as [Hlt|Hge].
      * destruct (IH (i + 1) (asleep 1000 w1)) as
          (ok & w' & t & -> & Hout & Hsort & Hpages & Hdel & Hok);
          [done|lia|exact Hinv1|].
        change (pagesOf (asleep 1000 w1)) with (pagesOf w1) in *.
        exists ok, w', ((body ++ [final]) ++ EvSleep 1000 :: t).
        split_and!; try done.
        -- intros j Hj. rewrite Hout by lia. apply Hframe. lia.
        -- rewrite analyzedPages_app. apply StronglySorted_app. split_and!.
           ++ intros x1 x2 Hx1 Hx2.
              rewrite Forall_forall in Hcalls. rewrite (Hcalls _ Hx1).
              rewrite Forall_forall in Hpages. destruct (Hpages x2 Hx2). lia.
           ++ by eapply StronglySorted_constant.
           ++ exact Hsort.
        -- rewrite analyzedPages_app. apply Forall_app. split.
           ++ eapply Forall_impl; [exact Hcalls|]. intros p ->. split; [lia|done].
           ++ eapply Forall_impl; [exact Hpages|]. intros p [Hp1 Hp2].
              split; [lia|]. rewrite <- Hp2. apply pageDone_get. symmetry.
              apply Hframe. lia.
        -- rewrite <- app_assoc. apply politeDelays_body.
           { eapply Forall_impl; [exact Hbody|]. apply notCompletion_not. }
           apply politeDelays_completion; [by eexists|].
           apply politeDelays_cons; [simpl; tauto|done].
        -- destruct ok.
           ++ destruct Hok as [Hq Hall]. split.
              ** apply Forall_app. split; [apply Forall_app; split|].
                 --- eapply Forall_impl; [exact Hbody|].
                     apply notCompletion_notAnalysisError.
                 --- constructor; [by apply isCompletion_notAnalysisError|done].
                 --- by constructor.
              ** intros j Hj. destruct (decide (j = i)) as [->|].
                 --- rewrite <- Hi1. apply pageDone_get. apply Hout. lia.
                 --- apply Hall. lia.
           ++ destruct Hok as (k & Hk & n & pre & -> & Hpre & Hbefore & Hat & Hafter & Hle).
              exists k. split; [lia|].
              exists n, ((body ++ [final]) ++ EvSleep 1000 :: pre).
              split_and!.
              ** by rewrite <- !app_assoc.
              ** apply Forall_app. split; [apply Forall_app; split|].
                 --- eapply Forall_impl; [exact Hbody|].
                     apply notCompletion_notAnalysisError.
                 --- constructor; [by apply isCompletion_notAnalysisError|done].
                 --- by constructor.
              ** intros j Hj. destruct (decide (j = i)) as [->|].
                 --- rewrite <- Hi1. apply pageDone_get. apply Hout. lia.
                 --- apply Hbefore. lia.
              ** done.
              ** intros j Hj. rewrite Hafter by done. apply Hframe. lia.
              ** rewrite analyzedPages_app. apply Forall_app. split.
                 --- eapply Forall_impl; [exact Hcalls|]. intros p ->. lia.
                 --- exact Hle.
      * assert (rem = 0%nat) as -> by lia. simpl. unfold ret.
        exists true, w1, ((body ++ [final]) ++ []).
        split_and!; try done.
        -- intros j Hj. apply Hframe. lia.
        -- rewrite app_nil_r. by eapply StronglySorted_constant.
        -- rewrite app_nil_r. eapply Forall_impl; [exact Hcalls|].
           intros p ->. split; [lia|done].
        -- rewrite app_nil_r. apply politeDelays_body.
           { eapply Forall_impl; [exact Hbody|]. apply notCompletion_not. }
           apply politeDelays_completion; [by intros ?%Exists_nil|].
           apply politeDelays_nil.
        -- rewrite app_nil_r. apply Forall_app. split.
           ++ eapply Forall_impl; [exact Hbody|].
              apply notCompletion_notAnalysisError.
           ++ constructor; [by apply isCompletion_notAnalysisError|done].
        -- intros j Hj. by assert (j = i) as -> by lia.
    + destruct Hres as (Hsame & n & ->).
      exists false, w1,
        ((body ++ [EvToast toast_error (msgFailed i n)]) ++
         [EvToast toast_error (msgStopped i)]).
      assert (Hp : analyzedPages
                     ((body ++ [EvToast toast_error (msgFailed i n)]) ++
                      [EvToast toast_error (msgStopped i)])
                   = analyzedPages (body ++ [EvToast toast_error (msgFailed i n)]))
        by (by rewrite analyzedPages_app, app_nil_r).
      split_and!; try done.
      * intros j Hj. by rewrite Hsame.
      * rewrite Hp. by eapply StronglySorted_constant.
      * rewrite Hp. eapply Forall_impl; [exact Hcalls|].
        intros p ->. split; [lia|done].
      * rewrite <- app_assoc. apply politeDelays_body.
        { eapply Forall_impl; [exact Hbody|]. apply notCompletion_not. }
        do 2 (apply politeDelays_cons; [simpl; tauto|]). apply politeDelays_nil.
      * exists i. split; [lia|]. exists n, body. split_and!.
        -- by rewrite <- app_assoc.
        -- eapply Forall_impl; [exact Hbody|]. apply notCompletion_notAnalysisError.
        -- intros j Hj. lia.
        -- by rewrite Hsame.
        -- intros j Hj. by rewrite Hsame.
        -- rewrite Hp. eapply Forall_impl; [exact Hcalls|]. intros p ->. lia.
Qed.

End BatchLoop.

(** ** Backoff delays *)

Lemma retryDelays_quiet t1 t2 :
  Forall (λ e, ¬ isInfoToast e) t1 → retryDelays (t1 ++ t2) = retryDelays t2.
Proof.
  induction 1 as [|e t1 He _ IH]; [done|]. simpl.
  destruct e as [| | |kind m| |]; simpl in *; try exact IH.
  destruct kind; simpl in *; try exact IH. exfalso. by apply He.
Qed.

Lemma retryDelays_cons e t : ¬ isInfoToast e → retryDelays (e :: t) = retryDelays t.
Proof. intros He. apply (retryDelays_quiet [e]). by constructor. Qed.

Lemma noInfo_net t : Forall isNetEvent t → Forall (λ e, ¬ isInfoToast e) t.
Proof.
  intros H. eapply Forall_impl; [exact H|].
  intros [| | |[]| |]; simpl; tauto.
Qed.

Lemma noInfo_persist t : Forall isPersistEvent t → Forall (λ e, ¬ isInfoToast e) t.
Proof.
  intros H. eapply Forall_impl; [exact H|].
  intros [| | |[]| |]; simpl; tauto.
Qed.

Section BackoffFacts.

Variable gemini : Gemini Parsed.
Variable store : Store.
Variable extract : string → Z → Z → string.

Lemma PageLoop_retryDelays r page mr rem attempt delay w res w' t :
  PageLoop gemini store extract r page mr rem attempt delay w (res, w', t) →
  attempt + Z.of_nat rem = mr → (0 < rem)%nat →
  ∃ n, (n < rem)%nat ∧ retryDelays t = backoffs delay n.
Proof.
  intros H. remember (res, w', t) as out eqn:Hout. revert res w' t Hout.
  induction H as [attempt delay w
                 |rem attempt delay w w1 t1 Ha
                 |rem attempt delay w e w1 t1 Ha Hr
                 |rem attempt delay w e w1 t1 res2 w2 t2 Ha Hr Hloop IH];
    intros res w' t [= <- <- <-] Hinv Hpos.
  - lia.
  - exists 0%nat. split; [lia|].
    apply attempt_normal in Ha
      as [(Hb & -> & ->)|(a & n1 & t0 & w3 & t3 & _ & _ & _ & _ & Hnet & _ & Hc & -> & ->)].
    + done.
    + rewrite retryDelays_cons by (simpl; tauto).
      rewrite retryDelays_quiet by by apply noInfo_net.
      rewrite retryDelays_quiet; [done|].
      eapply noInfo_persist, Consolidated_persist; eauto.
  - exists 0%nat. split; [lia|].
    apply attempt_throw in Ha as (n1 & t0 & _ & _ & _ & Hnet & -> & ->).
    rewrite <- app_comm_cons, retryDelays_cons by (simpl; tauto).
    by rewrite retryDelays_quiet by by apply noInfo_net.
  - apply attempt_throw in Ha as (n1 & t0 & _ & _ & _ & Hnet & -> & ->).
    apply retryable_lt in Hr.
    destruct (IH _ _ _ eq_refl) as (n & Hn & Hd); [lia|lia|].
    exists (S n). split; [lia|].
    rewrite <- app_comm_cons, retryDelays_cons by (simpl; tauto).
    rewrite retryDelays_quiet by by apply noInfo_net.
    simpl. by rewrite Hd.
Qed.

End BackoffFacts.

(** ** The attempts of the batch *)

Lemma filter_isAttempt_none (P : Event → bool) t :
  (∀ e, P e → isAttempt e = false) → Forall P t → List.filter isAttempt t = [].
Proof.
  intros HP. induction 1 as [|e t He _ IH]; [done|].
  simpl. by rewrite (HP e He).
Qed.

Lemma filter_isAttempt_net t : Forall isNetEvent t → List.filter isAttempt t = [].
Proof. apply filter_isAttempt_none. by intros []. Qed.

Lemma filter_isAttempt_persist t :
  Forall isPersistEvent t → List.filter isAttempt t = [].
Proof. apply filter_isAttempt_none. by intros [| | |[]| |]. Qed.

Lemma attemptsFollow_nil t : List.filter isAttempt t = [] → attemptsFollow [] t.
Proof. intros H. exists []. split; [done|constructor]. Qed.

Lemma attemptsFollow_cons p ps t1 t2 :
  List.filter isAttempt t1 ≠ [] →
  Forall (λ e, startsPage p e = true) (List.filter isAttempt t1) →
  attemptsFollow ps t2 →
  attemptsFollow (p :: ps) (t1 ++ t2).
Proof.
  intros Hne Hall (groups & Hg & Hf).
  exists (List.filter isAttempt t1 :: groups). split.
  - rewrite List.filter_app, Hg. done.
  - by constructor.
Qed.

Lemma attemptsFollow_quiet ps t1 t2 :
  List.filter isAttempt t1 = [] → attemptsFollow ps t2 → attemptsFollow ps (t1 ++ t2).
Proof.
  intros Hq (groups & Hg & Hf). exists groups. split; [|done].
  by rewrite List.filter_app, Hq.
Qed.

Lemma incompleteFrom_cons i n m :
  0 < n →
  incompleteFrom i n m
  = if pageDone i m then incompleteFrom (i + 1) (n - 1) m
    else i :: incompleteFrom (i + 1) (n - 1) m.
Proof.
  intros Hn. unfold incompleteFrom. rewrite seqZ_cons by done.
  simpl. replace (Z.succ i) with (i + 1) by lia.
  replace (Z.pred n) with (n - 1) by lia. by destruct (pageDone i m).
Qed.

Lemma incompleteFrom_ext i n m m' :
  (∀ j, i ≤ j → Map_get j m = Map_get j m') →
  incompleteFrom i n m = incompleteFrom i n m'.
Proof.
  intros H. unfold incompleteFrom. apply List.filter_ext_in.
  intros p Hp. apply list_elem_of_In, elem_of_seqZ in Hp.
  f_equal. apply pageDone_get, H. lia.
Qed.

Section BatchAttempts.

Variable gemini : Gemini Parsed.
Variable store : Store.
Variable extract : string → Z → Z → string.

Lemma PageLoop_attempts r page mr rem attempt delay w res w' t :
  PageLoop gemini store extract r page mr rem attempt delay w (res, w', t) →
  (0 < rem)%nat →
  List.filter isAttempt t ≠ [] ∧
  Forall (λ e, startsPage page e = true) (List.filter isAttempt t) ∧
  match res with
  | Normal _ => True
  | Throw e =>
      ∃ at_ms n,
        last (analyzeCalls t) = Some (at_ms, page, Some e) ∧
        retryable e n mr = false ∧
        EvToast toast_error (msgFailed page n) ∈ t
  end.
Proof.
  intros H. remember (res, w', t) as out eqn:Hout. revert res w' t Hout.
  induction H as [attempt delay w
                 |rem attempt delay w w1 t1 Ha
                 |rem attempt delay w e w1 t1 Ha Hr
                 |rem attempt delay w e w1 t1 res2 w2 t2 Ha Hr Hloop IH];
    intros res w' t [= <- <- <-] Hrem.
  - lia.
  - apply attempt_normal in Ha
      as [(Hb & -> & ->)|(a & n1 & t0 & w3 & t3 & _ & _ & _ & _ & Hnet & _ & Hc & -> & ->)].
    + simpl. split_and!; [done| |done].
      constructor; [|done]. simpl. by rewrite String.eqb_refl.
    + simpl. rewrite !List.filter_app, (filter_isAttempt_net _ Hnet).
      rewrite (filter_isAttempt_persist t3) by (eapply Consolidated_persist; eauto).
      simpl. split_and!; [done| |done].
      constructor; [|done]. simpl. lia.
  - apply attempt_throw in Ha as (n1 & t0 & _ & _ & _ & Hnet & -> & ->).
    simpl. rewrite List.filter_app, (filter_isAttempt_net _ Hnet). simpl.
    split_and!; [done| |].
    + constructor; [|done]. simpl. lia.
    + exists (clock (net w)), attempt. split_and!; [|done|].
      * unfold analyzeCalls. simpl. fold (analyzeCalls (t0 ++ [EvToast toast_error (msgFailed page attempt)])).
        rewrite analyzeCalls_app, (analyzeCalls_net _ Hnet). done.
      * right. apply elem_of_app. right. left.
  - apply attempt_throw in Ha as (n1 & t0 & _ & _ & _ & Hnet & -> & ->).
    simpl. rewrite List.filter_app, (filter_isAttempt_net _ Hnet). simpl.
    split; [done|].
    destruct rem as [|rem].
    { inversion Hloop; subst. split; [by repeat constructor; simpl; lia|done]. }
    destruct (IH _ _ _ eq_refl ltac:(lia)) as (_ & Hall & Hlast).
    split.
    + constructor; [simpl; lia|done].
    + destruct res2 as [u|e2]; [done|].
      destruct Hlast as (at_ms & n & Hlast & Hretry & Hin).
      exists at_ms, n. split_and!; [|done|].
      * unfold analyzeCalls. simpl.
        fold (analyzeCalls (t0 ++ EvToast toast_info (msgRetrying page delay)
                              :: EvSleep delay :: t2)).
        rewrite analyzeCalls_app, (analyzeCalls_net _ Hnet). simpl.
        change (omap analyzeCall t2) with (analyzeCalls t2).
        destruct (analyzeCalls t2) as [|c cs]; [done|]. 
        rewrite last_cons. by rewrite Hlast.
      * right. apply elem_of_app. right. right. by right.
Qed.

Lemma analyzePage_attempts r page w :
  pageDone page (deref (heap w) (r_pageAnalyses r)) = false →
  match analyzePage gemini store extract r page w with
  | (res, w', t) =>
      List.filter isAttempt t ≠ [] ∧
      Forall (λ e, startsPage page e = true) (List.filter isAttempt t) ∧
      match res with
      | Normal _ => True
      | Throw e => failedFor page t
      end
  end.
Proof.
  intros Hdone.
  pose proof (analyzePage_run gemini store extract r page w Hdone) as Hrun.
  destruct (analyzePage gemini store extract r page w) as [[res w'] t].
  apply PageLoop_attempts in Hrun as (H1 & H2 & H3); [|lia].
  split_and!; [done|done|]. destruct res as [u|e]; [done|].
  destruct H3 as (at_ms & n & ?). by exists at_ms, e, n.
Qed.

Lemma failedFor_app_quiet k t1 t2 :
  failedFor k t1 → analyzeCalls t2 = [] → failedFor k (t1 ++ t2).
Proof.
  intros (at_ms & e & n & Hlast & Hr & Hin) Hq. exists at_ms, e, n.
  split_and!; [|done|].
  - by rewrite analyzeCalls_app, Hq, app_nil_r.
  - apply elem_of_app. by left.
Qed.

Lemma failedFor_app k t1 t2 : failedFor k t2 → failedFor k (t1 ++ t2).
Proof.
  intros (at_ms & e & n & Hlast & Hr & Hin). exists at_ms, e, n.
  split_and!; [|done|].
  - rewrite analyzeCalls_app, last_app, Hlast. done.
  - apply elem_of_app. by right.
Qed.

Lemma analyzeAllLoop_attempts r rem i w :
  wellFormedRefs r w →
  Z.of_nat rem = Z.max 0 (totalPages r + 1 - i) →
  (∀ j, i ≤ j →
        Map_get j (pagesOf w) = Map_get j (deref (heap w) (r_pageAnalyses r))) →
  match analyzeAllLoop gemini store extract r rem i w with
  | (Normal true, w', t) =>
      attemptsFollow (incompleteFrom i (Z.of_nat rem) (pagesOf w)) t
  | (Normal false, w', t) =>
      ∃ k, i ≤ k ≤ totalPages r ∧
           pageDone k (pagesOf w) = false ∧
           pageDone k (pagesOf w') = false ∧
           attemptsFollow (incompleteFrom i (k + 1 - i) (pagesOf w)) t ∧
           failedFor k t
  | (Throw _, _, _) => False
  end.
Proof.
  revert i w. induction rem as [|rem IH]; intros i w Hwf Hrem Hinv.
  { simpl. by apply attemptsFollow_nil. }
  assert (Hi : i ≤ totalPages r) by lia.
  rewrite analyzeAllLoop_step.
  destruct (pageDone i (deref (heap w) (r_pageAnalyses r))) eqn:Hdone.
  - assert (Hi' : pageDone i (pagesOf w) = true).
    { rewrite <- Hdone. apply pageDone_get, Hinv. lia. }
    specialize (IH (i + 1) w Hwf ltac:(lia) ltac:(intros j Hj; apply Hinv; lia)).
    destruct (analyzeAllLoop _ _ _ _ _ _ _) as [[[[|]|e] w'] t]; [| |done].
    + rewrite incompleteFrom_cons, Hi' by lia.
      by replace (Z.of_nat (S rem) - 1) with (Z.of_nat rem) by lia.
    + destruct IH as (k & Hk & Hkd & Hkd' & Hf & Hfail). exists k.
      split; [lia|]. split; [done|]. split; [done|]. split; [|done].
      rewrite incompleteFrom_cons, Hi' by lia.
      by replace (k + 1 - i - 1) with (k + 1 - (i + 1)) by lia.
  - assert (Hnew : pageDone i (pagesOf w) = false).
    { rewrite <- Hdone. apply pageDone_get, Hinv. lia. }
    destruct (analyzePage_batch gemini store extract r i w Hwf Hdone)
      as (res & w1 & body & final & Heq & Hwf1 & Hframe & _ & _ & Hout).
    pose proof (analyzePage_attempts r i w Hdone) as Hatt.
    rewrite Heq in Hatt |- *. destruct Hatt as (Hne & Hall & Hres).
    assert (Hinv1 : ∀ j, i + 1 ≤ j →
              Map_get j (pagesOf w1) = Map_get j (deref (heap w1) (r_pageAnalyses r))).
    { intros j Hj. destruct (Hframe j ltac:(lia)) as [-> ->]. apply Hinv. lia. }
    assert (Hext : ∀ n, incompleteFrom (i + 1) n (pagesOf w1)
                        = incompleteFrom (i + 1) n (pagesOf w)).
    { intros n. apply incompleteFrom_ext. intros j Hj. apply Hframe. lia. }
    destruct res as [[]|e].
    + destruct (Z.ltb_spec i (totalPages r)) as [Hlt|Hge].
      * specialize (IH (i + 1) (asleep 1000 w1) Hwf1 ltac:(lia) Hinv1).
        change (pagesOf (asleep 1000 w1)) with (pagesOf w1) in IH.
        destruct (analyzeAllLoop _ _ _ _ _ _ _) as [[[[|]|e] w'] t]; [| |done].
        -- rewrite incompleteFrom_cons, Hnew by lia.
           replace (Z.of_nat (S rem) - 1) with (Z.of_nat rem) by lia.
           apply attemptsFollow_cons; [done|done|].
           apply (attemptsFollow_quiet _ [EvSleep 1000]); [done|].
           by rewrite <- Hext.
        -- destruct IH as (k & Hk & Hkd & Hkd' & Hf & Hfail). exists k.
           split; [lia|]. split; [|split; [done|split]].
           ++ rewrite <- Hkd. apply pageDone_get. symmetry. apply Hframe. lia.
           ++ rewrite incompleteFrom_cons, Hnew by lia.
              replace (k + 1 - i - 1) with (k + 1 - (i + 1)) by lia.
              apply attemptsFollow_cons; [done|done|].
              apply (attemptsFollow_quiet _ [EvSleep 1000]); [done|].
              by rewrite <- Hext.
           ++ apply failedFor_app. by apply (failedFor_app k [EvSleep 1000]).
      * assert (rem = 0%nat) as -> by lia. simpl. unfold ret.
        rewrite incompleteFrom_cons, Hnew by lia.
        apply attemptsFollow_cons; [done|done|]. by apply attemptsFollow_nil.
    + destruct Hout as [Hsame _].
      exists i. split; [lia|]. split; [done|]. split; [by rewrite Hsame|]. split.
      * replace (i + 1 - i) with 1 by lia.
        rewrite incompleteFrom_cons, Hnew by lia.
        apply attemptsFollow_cons; [done|done|]. by apply attemptsFollow_nil.
      * by apply failedFor_app_quiet.
Qed.

End BatchAttempts.

(** ** Retry, batch and backoff *)

Lemma includes_truthy needle s :
  Str.truthy needle = true → Str.includes needle s = true → Str.truthy s = true.
Proof. destruct s; [|done]. by destruct needle. Qed.

Section NavigatorClaims.

Variable gemini : Gemini Parsed.
Variable store : Store.
Variable extract : string → Z → Z → string.

(** C3: in one run of [analyzePage] a call of the analysis client is
    followed by another call only when it failed with a message that
    contains 429.  At most three calls are made, and a call that fails with
    any other message is the last one: [analyzePage] throws that error. *)
Theorem C3_retry_only_rate_limited (r : Render) (page : Z) (w : World) :
  let res := analyzePage gemini store extract r page w in
  retriesOnlyRateLimited (failures (events res)) = true ∧
  (length (failures (events res)) ≤ 3)%nat ∧
  (∀ pre e post,
     failures (events res) = pre ++ Some e :: post →
     Str.includes "429" e = false →
     post = [] ∧ completion res = Throw e).
Proof.
  intros res. subst res.
  destruct (pageDone page (deref (heap w) (r_pageAnalyses r))) eqn:Hdone.
  - rewrite analyzePage_eq, Hdone. split_and!; [done|simpl; lia|].
    by intros [|x l] e post.
  - pose proof (analyzePage_run gemini store extract r page w Hdone) as Hrun.
    destruct (analyzePage gemini store extract r page w) as [[res w'] t].
    apply PageLoop_calls in Hrun as (H1 & _ & H3 & H4). done.
Qed.

(** C4: [analyzeAllPages], started by the closures of an up-to-date render,
    always returns.  Its attempts, the calls of the client and the
    blank-page warnings, go in ascending order through the pages between 1
    and [totalPages] that were not analysed when it started, with at least
    one attempt for each of them and none for a page that was analysed; a
    completed page that is followed by another attempt is followed at once
    by a sleep of 1000 ms.  Either no analysis failed: every incomplete page
    was attempted and every page is analysed.  Or there is a page [k], not
    analysed at the start, where the batch stopped: the incomplete pages up
    to [k] were attempted and no page after [k], the last call of the client
    was for page [k] and failed with an error that the retry loop does not
    retry, the pages before [k] are analysed, page [k] is not, the pages
    after [k] are as they were, and the two last notifications report the
    failure of page [k]. *)
Theorem C4_batch_analysis (r : Render) (w : World) :
  r_pageAnalyses r = pageAnalysesRef w →
  (pageAnalysesRef w < length (heap w))%nat →
  let res := analyzeAllPages gemini store extract r w in
  completion res = Normal tt ∧
  StronglySorted Z.le (analyzedPages (events res)) ∧
  Forall (λ p, 1 ≤ p ≤ totalPages r ∧ pageDone p (pagesOf w) = false)
    (analyzedPages (events res)) ∧
  politeDelays (events res) ∧
  ((Forall notAnalysisError (events res) ∧
    attemptsFollow (incompletePages (totalPages r) (pagesOf w)) (events res) ∧
    ∀ j, 1 ≤ j ≤ totalPages r → pageDone j (pagesOf (world_of res)) = true) ∨
   (∃ k, 1 ≤ k ≤ totalPages r ∧
         pageDone k (pagesOf w) = false ∧
         attemptsFollow (incompletePages k (pagesOf w)) (events res) ∧
         failedFor k (events res) ∧
         stoppedAt 1 w (world_of res) (events res) k)).
Proof.
  intros Hfresh Hlt res. subst res. rewrite analyzeAllPages_eq.
  assert (Hwf : wellFormedRefs r (withIsAnalyzing true w)).
  { split; simpl; [by rewrite Hfresh|done]. }
  assert (Hinv : ∀ j, 1 ≤ j →
            Map_get j (pagesOf (withIsAnalyzing true w))
            = Map_get j (deref (heap (withIsAnalyzing true w)) (r_pageAnalyses r))).
  { intros j _. unfold pagesOf. simpl. by rewrite Hfresh. }
  pose proof (analyzeAllLoop_attempts gemini store extract r (Z.to_nat (totalPages r)) 1
                (withIsAnalyzing true w) Hwf ltac:(lia) Hinv) as Hatt.
  destruct (analyzeAllLoop_batch gemini store extract r (Z.to_nat (totalPages r)) 1
              (withIsAnalyzing true w) Hwf ltac:(lia) Hinv)
    as (ok & w1 & t & Heq & Hout & Hsort & Hpages & Hdel & Hok).
  rewrite Heq in Hatt |- *.
  change (pagesOf (withIsAnalyzing true w)) with (pagesOf w) in *.
  unfold completion, events, world_of. simpl.
  change (pagesOf (withIsAnalyzing false w1)) with (pagesOf w1).
  assert (Hquiet : ∀ ps (b : bool),
            attemptsFollow ps t →
            attemptsFollow ps (t ++ if b then [EvToast toast_success msgAllDone] else [])).
  { intros ps b (groups & Hg & Hf). exists groups. split; [|done].
    rewrite List.filter_app, Hg. destruct b; simpl; by rewrite app_nil_r. }
  destruct ok; simpl.
  - destruct Hok as [Hq Hall].
    assert (Hfollow : attemptsFollow (incompletePages (totalPages r) (pagesOf w)) t).
    { unfold incompletePages, incompleteFrom in *.
      replace (seqZ 1 (totalPages r))
        with (seqZ 1 (Z.of_nat (Z.to_nat (totalPages r)))); [done|].
      unfold seqZ. by rewrite Nat2Z.id. }
    destruct (_ =? totalPages r).
    + split_and!; try done.
      * by rewrite analyzedPages_app, app_nil_r.
      * by rewrite analyzedPages_app, app_nil_r.
      * apply politeDelays_snoc; [done|simpl; tauto].
      * left. split_and!; [|by apply (Hquiet _ true)|done].
        apply Forall_app. split; [done|by repeat constructor].
    + rewrite app_nil_r. split_and!; try done. by left.
  - rewrite app_nil_r. split_and!; try done. right.
    destruct Hok as (k & Hk & n & pre & -> & Hpre & Hbefore & Hat & Hafter & Hle).
    destruct Hatt as (k' & Hk' & Hkd & Hkd' & Hf & Hfail).
    assert (k' = k) as ->.
    { destruct Hfail as (at_ms & e & n' & Hlast & _).
      assert (Hin : k' ∈ analyzedPages
                      (pre ++ [EvToast toast_error (msgFailed k n);
                               EvToast toast_error (msgStopped k)])).
      { unfold analyzedPages. apply last_Some in Hlast as (l' & ->).
        rewrite map_app. apply elem_of_app. right. by left. }
      rewrite Forall_forall in Hle. specialize (Hle _ Hin).
      destruct (Z_lt_le_dec k' k) as [Hlt'|Hge]; [|lia].
      rewrite Hbefore in Hkd' by lia. done. }
    exists k. split; [done|]. split; [done|]. split.
    { unfold incompletePages. by replace k with (k + 1 - 1) at 1 by lia. }
    split; [done|]. by exists n, pre.
Qed.

(** C5: the initial delay is 2000 ms and at most 3 attempts are made.  When
    the first call of the client for a page fails with a message containing
    429 and the second call succeeds, [analyzePage] returns normally with the
    page analysed after exactly two client calls, the second one issued
    2000 ms after the first one returned, hence at least 2000 ms after the
    first was issued, and the only delay slept is the initial one.  In every
    run the delays slept before the retries are the initial delay doubled
    at each retry. *)
Theorem C5_rate_limited_once_then_success (r : Render) (page : Z) (w : World)
    (e : string) (n1 : Net) (t1 : list Event)
    (a : PageAnalysis) (n2 : Net) (t2 : list Event) :
  pageDone page (deref (heap w) (r_pageAnalyses r)) = false →
  Str.trim (extract (fullText r) page page) ≠ "" →
  analyzeIndividualPage gemini (extract (fullText r) page page) page
    (outputLanguage r) (net w) = (Throw e, n1, t1) →
  Str.includes "429" e = true →
  analyzeIndividualPage gemini (extract (fullText r) page page) page
    (outputLanguage r) (advance 2000 n1) = (Normal a, n2, t2) →
  let res := analyzePage gemini store extract r page w in
  completion res = Normal tt ∧
  pageDone page (pagesOf (world_of res)) = true ∧
  analyzeCalls (events res) =
    [(clock (net w), page, Some e); (clock n1 + 2000, page, None)] ∧
  clock (net w) + 2000 ≤ clock n1 + 2000 ∧
  retryDelays (events res) = [initialDelay] ∧
  initialDelay = 2000 ∧ maxRetries = 3 ∧
  (∀ r' page' w',
     ∃ n, (n < 3)%nat ∧
          retryDelays (events (analyzePage gemini store extract r' page' w'))
          = backoffs initialDelay n).
Proof.
  intros Hnew Hne Hfirst H429 Hsecond res.
  assert (Hclock : clock (net w) ≤ clock n1).
  { pose proof (analyzeIndividualPage_net gemini (extract (fullText r) page page)
                  page (outputLanguage r) (net w)) as Hn.
    rewrite Hfirst in Hn. tauto. }
  assert (Hnet1 : Forall isNetEvent t1).
  { pose proof (analyzeIndividualPage_net gemini (extract (fullText r) page page)
                  page (outputLanguage r) (net w)) as Hn.
    rewrite Hfirst in Hn. tauto. }
  assert (Hnet2 : Forall isNetEvent t2).
  { pose proof (analyzeIndividualPage_net gemini (extract (fullText r) page page)
                  page (outputLanguage r) (advance 2000 n1)) as Hn.
    rewrite Hsecond in Hn. tauto. }
  assert (Hlast : ∀ r' page' w',
     ∃ n, (n < 3)%nat ∧
          retryDelays (events (analyzePage gemini store extract r' page' w'))
          = backoffs initialDelay n).
  { intros r' page' w'.
    destruct (pageDone page' (deref (heap w') (r_pageAnalyses r'))) eqn:Hdone.
    - rewrite analyzePage_eq, Hdone. by exists 0%nat; split; [lia|].
    - pose proof (analyzePage_run gemini store extract r' page' w' Hdone) as Hrun.
      destruct (analyzePage gemini store extract r' page' w') as [[res' w''] t'].
      by apply PageLoop_retryDelays in Hrun; [|done|lia]. }
  destruct (saveConsolidatedHistoryForPage_result store r page (markAnalyzed a)
              (withPage page (markAnalyzed a)
                 (set_net n2 (asleep 2000 (set_net n1 (withIsAnalyzing true w))))))
    as (w3 & t3 & Hsave & Hcons).
  assert (Hres : res =
    (Normal tt, withIsAnalyzing false w3,
     (EvAnalyze (clock (net w)) page (extract (fullText r) page page) (Some e) :: t1)
     ++ EvToast toast_info (msgRetrying page initialDelay) :: EvSleep initialDelay ::
        (EvAnalyze (clock n1 + 2000) page (extract (fullText r) page page) None
           :: t2 ++ t3 ++ [EvToast toast_success (msgAnalyzed page)]))).
  { subst res. rewrite analyzePage_eq, Hnew.
    assert (Hattempt1 :
      analyzePageAttempt gemini store extract r page (withIsAnalyzing true w) =
      (Throw e, set_net n1 (withIsAnalyzing true w),
       EvAnalyze (clock (net w)) page (extract (fullText r) page page) (Some e) :: t1)).
    { unfold analyzePageAttempt.
      destruct (Str.truthy (Str.trim (extract (fullText r) page page))) eqn:Hb;
        [|by apply truthy_false in Hb].
      simpl. unfold bind at 1, callAnalyzeIndividualPage, liftNet. simpl.
      by rewrite Hfirst. }
    assert (Hattempt2 :
      analyzePageAttempt gemini store extract r page
        (asleep 2000 (set_net n1 (withIsAnalyzing true w))) =
      (Normal tt, withIsAnalyzing false w3,
       EvAnalyze (clock n1 + 2000) page (extract (fullText r) page page) None
         :: t2 ++ t3 ++ [EvToast toast_success (msgAnalyzed page)])).
    { unfold analyzePageAttempt.
      destruct (Str.truthy (Str.trim (extract (fullText r) page page))) eqn:Hb;
        [|by apply truthy_false in Hb].
      simpl. unfold bind at 1, callAnalyzeIndividualPage, liftNet. simpl.
      change (advance (Z.max 0 2000) n1) with (advance 2000 n1).
      rewrite Hsecond.
      unfold bind at 1, setPageAnalyses at 1, modify at 1.
      unfold bind at 1. cbv iota beta.
      rewrite Hsave. unfold bind, emit, setIsAnalyzing, modify. simpl.
      change (0 `max` 2000) with 2000.
      done. }
    rewrite analyzePageLoop_step, Hattempt1.
    assert (Hretry : retryable e 0 maxRetries = true).
    { unfold retryable. rewrite H429, (includes_truthy "429" e) by done. done. }
    rewrite Hretry.
    change (asleep initialDelay ?x) with (asleep 2000 x).
    rewrite analyzePageLoop_step, Hattempt2. done. }
  pose proof (sameProgress_sameHeap _ _ (Consolidated_sameProgress _ _ _ _ Hcons))
    as Hheap.
  pose proof (Consolidated_persist _ _ _ _ Hcons) as Hpers.
  rewrite Hres. unfold completion, events, world_of. simpl.
  split_and!; try done.
  - change (pagesOf (withIsAnalyzing false w3)) with (pagesOf w3).
    rewrite (sameHeap_pagesOf _ _ Hheap), withPage_pagesOf. by apply pageDone_set.
  - change (EvAnalyze ?a ?b ?c ?d :: ?l) with ([EvAnalyze a b c d] ++ l).
    change (EvToast ?a ?b :: EvSleep ?c :: ?l) with ([EvToast a b; EvSleep c] ++ l).
    rewrite !analyzeCalls_app, (analyzeCalls_net t1), (analyzeCalls_net t2),
      (analyzeCalls_persist t3) by done. done.
  - lia.
  - rewrite retryDelays_quiet by by apply noInfo_net.
    simpl. rewrite retryDelays_quiet by by apply noInfo_net.
    rewrite retryDelays_quiet by by apply noInfo_persist. done.
Qed.

End NavigatorClaims.

(** ** Independence of the record store

    Two runs that differ in the answers of the store, and so in the
    identifier that their renders captured, make the same progress. *)

Lemma progressOf_eq w1 w2 :
  progressOf w1 = progressOf w2 ↔
  heap w1 = heap w2 ∧ pageAnalysesRef w1 = pageAnalysesRef w2 ∧
  isAnalyzing w1 = isAnalyzing w2 ∧ modelCalls (net w1) = modelCalls (net w2).
Proof. unfold progressOf. split; [by intros [= -> -> -> ->]|by intros (-> & -> & -> & ->)]. Qed.

Lemma sameProgress_progressOf w w' : sameProgress w w' → progressOf w' = progressOf w.
Proof. intros (? & ? & ? & ? & _). by apply progressOf_eq. Qed.

Lemma progressOf_pagesOf w1 w2 : progressOf w1 = progressOf w2 → pagesOf w1 = pagesOf w2.
Proof. intros (Hh & Hr & _)%progressOf_eq. unfold pagesOf. by rewrite Hh, Hr. Qed.

Lemma progressOf_withPage p a w1 w2 :
  progressOf w1 = progressOf w2 →
  progressOf (withPage p a w1) = progressOf (withPage p a w2).
Proof.
  intros (Hh & Hr & Hi & Hm)%progressOf_eq. apply progressOf_eq.
  unfold withPage. simpl. by rewrite Hh, Hr, Hi, Hm.
Qed.

Lemma generateContentLoop_rel {A} (gemini : Gemini A) prompt maxTok retries rem i last n1 n2 :
  modelCalls n1 = modelCalls n2 →
  completion (generateContentLoop gemini prompt maxTok retries rem i last n1)
  = completion (generateContentLoop gemini prompt maxTok retries rem i last n2) ∧
  modelCalls (world_of (generateContentLoop gemini prompt maxTok retries rem i last n1))
  = modelCalls (world_of (generateContentLoop gemini prompt maxTok retries rem i last n2)).
Proof.
  revert i last n1 n2. induction rem as [|rem IH]; intros i last n1 n2 Hn; [done|].
  simpl. unfold try_catch, generateContent. rewrite Hn.
  destruct (gemini (modelCalls n2) prompt maxTok) as [lat [a|e]]; simpl; [done|].
  unfold bind. destruct (i <? retries - 1).
  - unfold sleepNet. cbv iota beta.
    specialize (IH (i + 1) (Some e)
      (advance (Z.max 0 (1000 * (i + 1)))
         {| clock := clock n1 + Z.of_N lat; modelCalls := S (modelCalls n2) |})
      (advance (Z.max 0 (1000 * (i + 1)))
         {| clock := clock n2 + Z.of_N lat; modelCalls := S (modelCalls n2) |})
      eq_refl).
    destruct (generateContentLoop gemini prompt maxTok retries rem (i + 1) (Some e)
                (advance _ {| clock := clock n1 + _; modelCalls := _ |}))
      as [[res1 m1] u1].
    destruct (generateContentLoop gemini prompt maxTok retries rem (i + 1) (Some e)
                (advance _ {| clock := clock n2 + _; modelCalls := _ |}))
      as [[res2 m2] u2].
    exact IH.
  - unfold ret. cbv iota beta.
    specialize (IH (i + 1) (Some e)
         {| clock := clock n1 + Z.of_N lat; modelCalls := S (modelCalls n2) |}
         {| clock := clock n2 + Z.of_N lat; modelCalls := S (modelCalls n2) |}
      eq_refl).
    destruct (generateContentLoop gemini prompt maxTok retries rem (i + 1) (Some e)
                {| clock := clock n1 + _; modelCalls := _ |})
      as [[res1 m1] u1].
    destruct (generateContentLoop gemini prompt maxTok retries rem (i + 1) (Some e)
                {| clock := clock n2 + _; modelCalls := _ |})
      as [[res2 m2] u2].
    exact IH.
Qed.

Lemma analyzeIndividualPage_rel gemini content page lang n1 n2 :
  modelCalls n1 = modelCalls n2 →
  completion (analyzeIndividualPage gemini content page lang n1)
  = completion (analyzeIndividualPage gemini content page lang n2) ∧
  modelCalls (world_of (analyzeIndividualPage gemini content page lang n1))
  = modelCalls (world_of (analyzeIndividualPage gemini content page lang n2)).
Proof.
  intros Hn. unfold analyzeIndividualPage, bind, generateContentWithRetry.
  pose proof (generateContentLoop_rel gemini (pagePrompt content page lang) 2500 3
                (Z.to_nat 3) 0 None n1 n2 Hn) as [H1 H2].
  destruct (generateContentLoop gemini _ 2500 3 (Z.to_nat 3) 0 None n1)
    as [[[[|a1]|e1] m1] u1];
  destruct (generateContentLoop gemini _ 2500 3 (Z.to_nat 3) 0 None n2)
    as [[[[|a2]|e2] m2] u2];
    unfold completion, world_of in *; simpl in *; by simplify_eq.
Qed.

Section Independence.

Variable gemini : Gemini Parsed.
Variables store1 store2 : Store.
Variable extract : string → Z → Z → string.

Lemma attempt_rel r1 r2 page w1 w2 :
  sameClosures r1 r2 → progressOf w1 = progressOf w2 →
  completion (analyzePageAttempt gemini store1 extract r1 page w1)
  = completion (analyzePageAttempt gemini store2 extract r2 page w2) ∧
  progressOf (world_of (analyzePageAttempt gemini store1 extract r1 page w1))
  = progressOf (world_of (analyzePageAttempt gemini store2 extract r2 page w2)).
Proof.
  intros (_ & _ & _ & Htext & Hlang & _) (Hh & Hr & Hi & Hm')%progressOf_eq.
  pose proof (analyzePageAttempt_result gemini store1 extract r1 page w1) as H1.
  pose proof (analyzePageAttempt_result gemini store2 extract r2 page w2) as H2.
  pose proof (analyzeIndividualPage_rel gemini (extract (fullText r1) page page)
                page (outputLanguage r1) (net w1) (net w2) Hm') as [Hc Hm].
  rewrite Htext, Hlang in Hc, Hm.
  destruct (analyzePageAttempt gemini store1 extract r1 page w1) as [[res1 w1'] t1].
  destruct (analyzePageAttempt gemini store2 extract r2 page w2) as [[res2 w2'] t2].
  unfold completion, world_of. simpl.
  destruct res1 as [[]|e1].
  - apply attempt_normal in H1
      as [(Hb1 & -> & _)|(a1 & n1 & u1 & w3 & t3 & Hne1 & Hcall1 & _ & _ & _ & _ & Hcons1 & -> & _)].
    + destruct res2 as [[]|e2].
      * apply attempt_normal in H2
          as [(Hb2 & -> & _)|(a2 & n2 & u2 & w4 & t4 & Hne2 & _)].
        -- split; [done|].
           apply progressOf_eq. unfold withPage. simpl. by rewrite Hh, Hr, Hm'.
        -- by rewrite <- Htext in Hne2.
      * apply attempt_throw in H2 as (n2 & u2 & Hne2 & _). by rewrite <- Htext in Hne2.
    + rewrite Htext, Hlang in Hcall1. rewrite Hcall1 in Hc, Hm.
      destruct res2 as [[]|e2].
      * apply attempt_normal in H2
          as [(Hb2 & -> & _)|(a2 & n2 & u2 & w4 & t4 & Hne2 & Hcall2 & _ & _ & _ & _ & Hcons2 & -> & _)].
        -- by rewrite Htext in Hne1.
        -- rewrite Hcall2 in Hc, Hm. unfold completion, world_of in Hc, Hm.
           simpl in Hc, Hm. injection Hc as ->. split; [done|].
           apply Consolidated_sameProgress, sameProgress_progressOf in Hcons1, Hcons2.
           apply progressOf_eq in Hcons1 as (Hh1 & Hr1 & Hi1 & Hm1).
           apply progressOf_eq in Hcons2 as (Hh2 & Hr2 & Hi2 & Hm2).
           apply progressOf_eq. simpl in *.
           rewrite Hh1, Hh2, Hr1, Hr2, Hm1, Hm2, Hh, Hr, Hm. done.
      * apply attempt_throw in H2 as (n2 & u2 & _ & Hcall2 & _).
        rewrite Hcall2 in Hc. done.
  - apply attempt_throw in H1 as (n1 & u1 & Hne1 & Hcall1 & _ & _ & -> & _).
    rewrite Htext, Hlang in Hcall1. rewrite Hcall1 in Hc, Hm.
    destruct res2 as [[]|e2].
    + apply attempt_normal in H2
        as [(Hb2 & -> & _)|(a2 & n2 & u2 & w4 & t4 & Hne2 & Hcall2 & _)].
      * by rewrite Htext in Hne1.
      * rewrite Hcall2 in Hc. done.
    + apply attempt_throw in H2 as (n2 & u2 & _ & Hcall2 & _ & _ & -> & _).
      rewrite Hcall2 in Hc, Hm. unfold completion, world_of in Hc, Hm.
      simpl in Hc, Hm. injection Hc as ->. split; [done|].
      apply progressOf_eq. simpl. by rewrite Hh, Hr, Hi, Hm.
Qed.

Lemma analyzePageLoop_rel r1 r2 page mr rem attempt delay w1 w2 :
  sameClosures r1 r2 → progressOf w1 = progressOf w2 →
  completion (analyzePageLoop gemini store1 extract r1 page mr rem attempt delay w1)
  = completion (analyzePageLoop gemini store2 extract r2 page mr rem attempt delay w2) ∧
  progressOf (world_of (analyzePageLoop gemini store1 extract r1 page mr rem attempt delay w1))
  = progressOf (world_of (analyzePageLoop gemini store2 extract r2 page mr rem attempt delay w2)).
Proof.
  intros Hr. revert attempt delay w1 w2.
  induction rem as [|rem IH]; intros attempt delay w1 w2 Hw; [done|].
  rewrite !analyzePageLoop_step.
  pose proof (attempt_rel r1 r2 page w1 w2 Hr Hw) as [Hc Hp].
  destruct (analyzePageAttempt gemini store1 extract r1 page w1) as [[res1 w1'] t1].
  destruct (analyzePageAttempt gemini store2 extract r2 page w2) as [[res2 w2'] t2].
  unfold completion, world_of in Hc, Hp. simpl in Hc, Hp. subst res2.
  destruct res1 as [[]|e]; [done|].
  destruct (retryable e attempt mr).
  - specialize (IH (attempt + 1) (delay * 2) (asleep delay w1') (asleep delay w2')).
    destruct IH as [IH1 IH2].
    { apply progressOf_eq in Hp as (Hh & Hr' & Hi & Hm).
      apply progressOf_eq. simpl. by rewrite Hh, Hr', Hi, Hm. }
    destruct (analyzePageLoop gemini store1 extract r1 page mr rem (attempt + 1)
                (delay * 2) (asleep delay w1')) as [[res3 w3] t3].
    destruct (analyzePageLoop gemini store2 extract r2 page mr rem (attempt + 1)
                (delay * 2) (asleep delay w2')) as [[res4 w4] t4].
    done.
  - unfold completion, world_of. simpl. split; [done|].
    apply progressOf_eq in Hp as (Hh & Hr' & Hi & Hm).
    apply progressOf_eq. simpl. by rewrite Hh, Hr', Hm.
Qed.

Lemma analyzePage_rel r1 r2 page w1 w2 :
  sameClosures r1 r2 → progressOf w1 = progressOf w2 →
  completion (analyzePage gemini store1 extract r1 page w1)
  = completion (analyzePage gemini store2 extract r2 page w2) ∧
  progressOf (world_of (analyzePage gemini store1 extract r1 page w1))
  = progressOf (world_of (analyzePage gemini store2 extract r2 page w2)).
Proof.
  intros Hr Hw. rewrite !analyzePage_eq.
  destruct Hr as (Hu & Hf & Ht & Htext & Hlang & Href).
  apply progressOf_eq in Hw as Hw'. destruct Hw' as (Hh & Hr' & Hi & Hm).
  rewrite Hh, Href.
  destruct (pageDone page (deref (heap w2) (r_pageAnalyses r2))); [done|].
  apply analyzePageLoop_rel; [done|].
  apply progressOf_eq. simpl. by rewrite Hh, Hr', Hm.
Qed.

Lemma analyzeAllLoop_rel r1 r2 rem i w1 w2 :
  sameClosures r1 r2 → progressOf w1 = progressOf w2 →
  completion (analyzeAllLoop gemini store1 extract r1 rem i w1)
  = completion (analyzeAllLoop gemini store2 extract r2 rem i w2) ∧
  progressOf (world_of (analyzeAllLoop gemini store1 extract r1 rem i w1))
  = progressOf (world_of (analyzeAllLoop gemini store2 extract r2 rem i w2)).
Proof.
  intros Hr. revert i w1 w2.
  induction rem as [|rem IH]; intros i w1 w2 Hw; [done|].
  rewrite !analyzeAllLoop_step.
  pose proof Hr as (Hu & Hf & Ht & Htext & Hlang & Href).
  apply progressOf_eq in Hw as Hw'. destruct Hw' as (Hh & Hr' & Hi & Hm).
  rewrite Hh, Href, Ht.
  destruct (pageDone i (deref (heap w2) (r_pageAnalyses r2))); [by apply IH|].
  pose proof (analyzePage_rel r1 r2 i w1 w2 Hr Hw) as [Hc Hp].
  destruct (analyzePage gemini store1 extract r1 i w1) as [[res1 w1'] t1].
  destruct (analyzePage gemini store2 extract r2 i w2) as [[res2 w2'] t2].
  unfold completion, world_of in Hc, Hp. simpl in Hc, Hp. subst res2.
  destruct res1 as [[]|e]; [|done].
  destruct (i <? totalPages r2).
  - specialize (IH (i + 1) (asleep 1000 w1') (asleep 1000 w2')).
    destruct IH as [IH1 IH2].
    { apply progressOf_eq in Hp as (Hh1 & Hr1 & Hi1 & Hm1).
      apply progressOf_eq. simpl. by rewrite Hh1, Hr1, Hi1, Hm1. }
    destruct (analyzeAllLoop gemini store1 extract r1 rem (i + 1) (asleep 1000 w1'))
      as [[res3 w3] t3].
    destruct (analyzeAllLoop gemini store2 extract r2 rem (i + 1) (asleep 1000 w2'))
      as [[res4 w4] t4].
    done.
  - specialize (IH (i + 1) w1' w2' Hp). destruct IH as [IH1 IH2].
    destruct (analyzeAllLoop gemini store1 extract r1 rem (i + 1) w1')
      as [[res3 w3] t3].
    destruct (analyzeAllLoop gemini store2 extract r2 rem (i + 1) w2')
      as [[res4 w4] t4].
    done.
Qed.

Lemma runOp_rel props u op w1 w2 :
  progressOf w1 = progressOf w2 →
  completion (runOp gemini store1 extract props u op w1)
  = completion (runOp gemini store2 extract props u op w2) ∧
  progressOf (world_of (runOp gemini store1 extract props u op w1))
  = progressOf (world_of (runOp gemini store2 extract props u op w2)).
Proof.
  intros Hw.
  assert (Hr : sameClosures (render props u w1) (render props u w2)).
  { apply progressOf_eq in Hw as (_ & Hr & _). by repeat split. }
  unfold runOp. destruct op as [page| | |].
  - unfold try_catch.
    pose proof (analyzePage_rel _ _ page w1 w2 Hr Hw) as [Hc Hp].
    destruct (analyzePage gemini store1 extract (render props u w1) page w1)
      as [[res1 w1'] t1].
    destruct (analyzePage gemini store2 extract (render props u w2) page w2)
      as [[res2 w2'] t2].
    unfold completion, world_of in *. simpl in *. subst res2.
    by destruct res1 as [[]|e].
  - rewrite !analyzeAllPages_eq.
    pose proof (analyzeAllLoop_rel _ _ (Z.to_nat (p_totalPages props)) 1
                  (withIsAnalyzing true w1) (withIsAnalyzing true w2) Hr) as [Hc Hp].
    { apply progressOf_eq in Hw as (Hh & Hr' & Hi & Hm).
      apply progressOf_eq. simpl. by rewrite Hh, Hr', Hm. }
    simpl.
    destruct (analyzeAllLoop gemini store1 extract (render props u w1) _ 1
                (withIsAnalyzing true w1)) as [[res1 w1'] t1].
    destruct (analyzeAllLoop gemini store2 extract (render props u w2) _ 1
                (withIsAnalyzing true w2)) as [[res2 w2'] t2].
    unfold completion, world_of in *. simpl in *. subst res2.
    destruct res1 as [ok|e]; simpl; [|done]. split; [done|].
    apply progressOf_eq in Hp as (Hh & Hr' & Hi & Hm).
    apply progressOf_eq. simpl. by rewrite Hh, Hr', Hm.
  - unfold consolidateEffect, bind, gets. simpl.
    apply progressOf_eq in Hw as Hw'. destruct Hw' as (Hh & Hr' & Hi & Hm).
    rewrite Hh, Hr'.
    destruct (0 <? length _)%nat; [|by unfold ret].
    destruct (saveConsolidatedHistory_result store1 (render props u w1) w1)
      as (w1' & t1 & -> & Hc1).
    destruct (saveConsolidatedHistory_result store2 (render props u w2) w2)
      as (w2' & t2 & -> & Hc2).
    unfold completion, world_of. simpl. split; [done|].
    apply Consolidated_sameProgress, sameProgress_progressOf in Hc1, Hc2.
    by rewrite Hc1, Hc2.
  - unfold syncSessionStorage. simpl.
    destruct (truthyId (studyHistoryId w1)), (truthyId (studyHistoryId w2));
      unfold sessionStorage_setItem, modify, ret, completion, world_of; simpl;
      (split; [done|]); apply progressOf_eq in Hw as (Hh & Hr' & Hi & Hm);
      apply progressOf_eq; simpl; by rewrite Hh, Hr', Hi, Hm.
Qed.

Lemma runOps_rel props u ops w1 w2 :
  progressOf w1 = progressOf w2 →
  completion (runOps gemini store1 extract props u ops w1)
  = completion (runOps gemini store2 extract props u ops w2) ∧
  progressOf (world_of (runOps gemini store1 extract props u ops w1))
  = progressOf (world_of (runOps gemini store2 extract props u ops w2)).
Proof.
  revert w1 w2. induction ops as [|op ops IH]; intros w1 w2 Hw; [done|].
  simpl. unfold bind.
  pose proof (runOp_rel props u op w1 w2 Hw) as [Hc Hp].
  destruct (runOp gemini store1 extract props u op w1) as [[res1 w1'] t1].
  destruct (runOp gemini store2 extract props u op w2) as [[res2 w2'] t2].
  unfold completion, world_of in Hc, Hp. simpl in Hc, Hp. subst res2.
  destruct res1 as [[]|e]; [|done].
  specialize (IH w1' w2' Hp). destruct IH as [IH1 IH2].
  destruct (runOps gemini store1 extract props u ops w1') as [[res3 w3] t3].
  destruct (runOps gemini store2 extract props u ops w2') as [[res4 w4] t4].
  done.
Qed.

End Independence.

(** ** The merged record *)

Lemma Map_set_fresh k v m : k ∉ Map_keys m → Map_set k v m = m ++ [(k, v)].
Proof.
  induction m as [|[k' v'] m IH]; simpl; [done|].
  intros Hk. apply not_elem_of_cons in Hk as [Hne Hk].
  destruct (Z.eqb_spec k k'); [done|]. by rewrite IH.
Qed.

Lemma completedInOrder_from m l :
  NoDup (Map_keys m ++ map pageNumber l) →
  fold_left (λ m a, Map_set (pageNumber a) a m) l m
  = m ++ map (λ a, (pageNumber a, a)) l.
Proof.
  revert m. induction l as [|a l IH]; intros m Hnd; simpl.
  - by rewrite app_nil_r.
  - rewrite Map_set_fresh.
    + rewrite IH.
      * by rewrite <- app_assoc.
      * unfold Map_keys. rewrite map_app. simpl. by rewrite <- app_assoc.
    + apply NoDup_app in Hnd as (_ & Hnd & _). intros Hin.
      apply (Hnd _ Hin). simpl. left.
Qed.

Lemma completedInOrder_values l :
  NoDup (map pageNumber l) → Map_values (completedInOrder l) = l.
Proof.
  intros Hnd. unfold completedInOrder. rewrite completedInOrder_from by done.
  unfold Map_values. simpl. rewrite map_map. simpl. apply map_id.
Qed.

Lemma filter_all {A} (f : A → bool) l : Forall (λ a, f a = true) l → List.filter f l = l.
Proof. induction 1 as [|a l Ha _ IH]; simpl; [done|]. by rewrite Ha, IH. Qed.

Lemma sortNumbers_perm l1 l2 : l1 ≡ₚ l2 → sortNumbers l1 = sortNumbers l2.
Proof.
  intros Hp. unfold sortNumbers.
  apply (Sorted_unique Z.le).
  - apply Sorted_merge_sort. apply _.
  - apply Sorted_merge_sort. apply _.
  - by rewrite !merge_sort_Permutation.
Qed.

Lemma completedInOrder_snoc l a :
  completedInOrder (l ++ [a]) = Map_set (pageNumber a) a (completedInOrder l).
Proof. unfold completedInOrder. by rewrite fold_left_app. Qed.

Lemma analyzedPagesListOf_completedInOrder l :
  NoDup (map pageNumber l) → Forall (λ a, isAnalyzed a = true) l →
  analyzedPagesListOf (completedInOrder l) = l.
Proof.
  intros Hnd Hall. unfold analyzedPagesListOf.
  rewrite completedInOrder_values by done. by apply filter_all.
Qed.

(** ** The identifier, blank pages and reloads *)


Lemma analyzedPagesListOf_set k a m :
  isAnalyzed a = true → (length (analyzedPagesListOf (Map_set k a m)) =? 0)%nat = false.
Proof.
  intros Ha. unfold analyzedPagesListOf, Map_values.
  induction m as [|[k' v'] m IH]; simpl.
  - by rewrite Ha.
  - destruct (Z.eqb k k'); simpl; [by rewrite Ha|].
    destruct (isAnalyzed v'); [done|apply IH].
Qed.

Lemma Consolidated_known_events rid w w' t id :
  Consolidated rid w w' t → truthyId rid = Some id →
  List.filter isCreate t = [] ∧
  Forall (λ e, isStoreCall e → ∃ res pages out, e = EvUpdate id res pages out) t.
Proof.
  destruct 1 as [|id' res pages out w' toasts Hid _ _ _ Htoasts| |];
    intros Hknown; simplify_eq; [done|].
  split.
  - simpl. induction Htoasts as [|e l He _ IH]; [done|]. simpl. by destruct e.
  - constructor; [by eexists _, _, _|].
    eapply Forall_impl; [exact Htoasts|]. by intros [| | |[]| |].
Qed.




Section SessionClaims.

Variable gemini : Gemini Parsed.
Variable store : Store.
Variable extract : string → Z → Z → string.



(** C6: for a page that is not yet analysed and whose extracted text is
    blank, [analyzePage] returns normally, makes no call of the analysis
    client and no model call, and stores for the page a completed analysis
    with no key points and no study points.  Analysing the page again, from
    any later render, does nothing. *)
Theorem C6_blank_page (r : Render) (page : Z) (w : World) :
  Str.trim (extract (fullText r) page page) = "" →
  pageDone page (deref (heap w) (r_pageAnalyses r)) = false →
  let res := analyzePage gemini store extract r page w in
  completion res = Normal tt ∧
  events res = [EvToast toast_warning (msgSkipping page)] ∧
  analyzeCalls (events res) = [] ∧
  modelCalls (net (world_of res)) = modelCalls (net w) ∧
  Map_get page (pagesOf (world_of res)) = Some (emptyAnalysis page) ∧
  keyPoints (emptyAnalysis page) = [] ∧
  studyPoints (emptyAnalysis page) = [] ∧
  isAnalyzed (emptyAnalysis page) = true ∧
  (∀ props u,
     analyzePage gemini store extract (render props u (world_of res)) page
       (world_of res)
     = (Normal tt, world_of res, [])).
Proof.
  intros Hblank Hnew res.
  assert (Hres : res =
    (Normal tt,
     withIsAnalyzing false
       (withPage page (emptyAnalysis page) (withIsAnalyzing true w)),
     [EvToast toast_warning (msgSkipping page)])).
  { subst res. rewrite analyzePage_eq, Hnew, analyzePageLoop_step.
    unfold analyzePageAttempt. by rewrite Hblank. }
  assert (Hpages : pagesOf (world_of res)
                   = Map_set page (emptyAnalysis page) (pagesOf w)).
  { rewrite Hres. unfold world_of. simpl.
    change (pagesOf (withIsAnalyzing false ?x)) with (pagesOf x).
    by rewrite withPage_pagesOf. }
  split_and!; try done; try by rewrite Hres.
  - rewrite Hpages. apply Map_get_set_eq.
  - intros props u. rewrite analyzePage_eq. simpl.
    fold (pagesOf (world_of res)). by rewrite Hpages, pageDone_set.
Qed.

(** C7: when the props carry no identifier and the session storage holds a
    non-empty identifier under the key of the file, the mounted component
    starts with that identifier.  The consolidations run by its first render
    issue no create call, the consolidation of an analysed page for a signed
    in user starts with an update call carrying the recovered identifier,
    and no session of operations started from that state issues a create
    call. *)
Theorem C7_recovered_identifier_updates (props : Props)
    (storage : gmap string string) (n : Net) (calls : nat) (id : string)
    (u : option User) (page : Z) (a : PageAnalysis) (ops : list Op) :
  truthyId (initialStudyHistoryId props) = None →
  storage !! sessionKey (p_file props) = Some id →
  Str.truthy id = true →
  let w := mount props storage n calls in
  let r := render props u w in
  studyHistoryId w = Some id ∧
  List.filter isCreate (events (saveConsolidatedHistoryForPage store r page a w)) = [] ∧
  List.filter isCreate (events (saveConsolidatedHistory store r w)) = [] ∧
  (is_Some u → isAnalyzed a = true →
   ∃ res pages out toasts,
     events (saveConsolidatedHistoryForPage store r page a w)
     = EvUpdate id res pages out :: toasts) ∧
  List.filter isCreate (events (runOps gemini store extract props u ops w)) = [].
Proof.
  intros Hprop Hcache Htruthy w r.
  assert (Hid : studyHistoryId w = Some id).
  { subst w. unfold mount, initialStudyHistoryIdState. simpl.
    rewrite Hprop, Hcache. simpl. by rewrite Htruthy. }
  assert (Hknown : truthyId (r_studyHistoryId r) = Some id).
  { change (r_studyHistoryId r) with (studyHistoryId w).
    rewrite Hid. simpl. by rewrite Htruthy. }
  split_and!; [done| | | |].
  - destruct (saveConsolidatedHistoryForPage_result store r page a w)
      as (w' & t & -> & Hc).
    by apply (Consolidated_known_events _ _ _ _ id) in Hc as [? _].
  - destruct (saveConsolidatedHistory_result store r w) as (w' & t & -> & Hc).
    by apply (Consolidated_known_events _ _ _ _ id) in Hc as [? _].
  - intros [usr ->] Ha. unfold saveConsolidatedHistoryForPage.
    change (user r) with (Some usr).
    unfold try_catch at 1, bind at 1, gets at 1.
    rewrite analyzedPagesListOf_set by done. rewrite Hknown.
    unfold updateStudyHistory, callStore, bind, ret. cbv beta.
    destruct (store (storeCalls w)) as [lat [newId|e]]; simpl; by eexists _, _, _, _.
  - pose proof (runOps_idRun gemini store extract props u ops w) as [Hrun _].
    { right. rewrite Hid. simpl. rewrite Htruthy. by eexists. }
    apply idRun_grants in Hrun as [_ Hnone]. apply Hnone.
    rewrite Hid. simpl. rewrite Htruthy. by eexists.
Qed.

End SessionClaims.

(** ** Persistence failures *)

Section PersistenceClaims.

Variable gemini : Gemini Parsed.
Variable extract : string → Z → Z → string.

(** C9: both consolidations always return normally, whatever the store
    answers, and leave the in-memory progress (the Map objects, the state
    [pageAnalyses], the flag [isAnalyzing] and the number of model calls) as
    it was.  The completion and the progress map of [analyzePage] and of a
    whole session of operations are the same for any two stores, in
    particular for a store that fails and one that succeeds. *)
Theorem C9_persistence_failure_is_harmless (store1 store2 : Store)
    (props : Props) (u : option User) (ops : list Op) (w : World)
    (r : Render) (page : Z) (a : PageAnalysis) :
  completion (saveConsolidatedHistoryForPage store1 r page a w) = Normal tt ∧
  progressOf (world_of (saveConsolidatedHistoryForPage store1 r page a w))
  = progressOf w ∧
  completion (saveConsolidatedHistory store1 r w) = Normal tt ∧
  progressOf (world_of (saveConsolidatedHistory store1 r w)) = progressOf w ∧
  completion (analyzePage gemini store1 extract r page w)
  = completion (analyzePage gemini store2 extract r page w) ∧
  pagesOf (world_of (analyzePage gemini store1 extract r page w))
  = pagesOf (world_of (analyzePage gemini store2 extract r page w)) ∧
  completion (runOps gemini store1 extract props u ops w)
  = completion (runOps gemini store2 extract props u ops w) ∧
  progressOf (world_of (runOps gemini store1 extract props u ops w))
  = progressOf (world_of (runOps gemini store2 extract props u ops w)) ∧
  pagesOf (world_of (runOps gemini store1 extract props u ops w))
  = pagesOf (world_of (runOps gemini store2 extract props u ops w)).
Proof.
  destruct (saveConsolidatedHistoryForPage_result store1 r page a w)
    as (w1 & t1 & -> & Hc1).
  destruct (saveConsolidatedHistory_result store1 r w) as (w2 & t2 & -> & Hc2).
  pose proof (analyzePage_rel gemini store1 store2 extract r r page w w) as [Hp1 Hp2];
    [done|done|].
  pose proof (runOps_rel gemini store1 store2 extract props u ops w w eq_refl)
    as [Hr1 Hr2].
  split_and!; try done.
  - by eapply sameProgress_progressOf, Consolidated_sameProgress.
  - by eapply sameProgress_progressOf, Consolidated_sameProgress.
  - by apply progressOf_pagesOf.
  - by apply progressOf_pagesOf.
Qed.

End PersistenceClaims.

(** ** The page prompt keeps the first 15000 characters *)

Lemma substring0_length n s :
  String.length (Str.substring0 n s) = Nat.min n (String.length s).
Proof.
  unfold Str.substring0. revert s.
  induction n as [|n IH]; intros [|c s]; simpl; auto.
Qed.

Lemma substring0_prefix n s : String.prefix (Str.substring0 n s) s = true.
Proof.
  unfold Str.substring0. revert s.
  induction n as [|n IH]; intros [|c s]; simpl; auto.
  destruct (Ascii.ascii_dec c c); [apply IH|congruence].
Qed.

Lemma pagePrompt_truncates t1 t2 page lang :
  Str.substring0 contentLimit t1 = Str.substring0 contentLimit t2 →
  pagePrompt t1 page lang = pagePrompt t2 page lang.
Proof. unfold pagePrompt. by intros ->. Qed.

Lemma append_cons c (s t : string) : String c s +:+ t = String c (s +:+ t).
Proof. reflexivity. Qed.

Lemma append_empty (t : string) : "" +:+ t = t.
Proof. reflexivity. Qed.

Lemma string_app_assoc (a b c : string) : (a +:+ b) +:+ c = a +:+ (b +:+ c).
Proof. induction a as [|x a IH]; [done|]. rewrite !append_cons. by f_equal. Qed.

Lemma promptsOf_app t1 t2 : promptsOf (t1 ++ t2) = promptsOf t1 ++ promptsOf t2.
Proof. apply omap_app. Qed.

Lemma promptsOf_persist t : Forall isPersistEvent t → promptsOf t = [].
Proof.
  induction 1 as [|e t He _ IH]; [done|].
  destruct e as [| | |[]| |]; try done.
Qed.

Lemma generateContentLoop_prompts {A} (gemini : Gemini A) prompt maxTok retries rem i
    last n :
  ∃ c, (c ≤ rem)%nat ∧ (0 < rem → 0 < c)%nat ∧
       promptsOf (events (generateContentLoop gemini prompt maxTok retries rem i last n))
       = replicate c prompt.
Proof.
  revert i last n. induction rem as [|rem IH]; intros i last n.
  - exists 0%nat. split_and!; [lia|lia|done].
  - simpl. unfold try_catch, generateContent.
    destruct (gemini (modelCalls n) prompt maxTok) as [lat [a|e]]; simpl.
    + exists 1%nat. split_and!; [lia|lia|done].
    + unfold bind.
      set (n1 := {| clock := clock n + Z.of_N lat; modelCalls := S (modelCalls n) |}).
      destruct (i <? retries - 1).
      * unfold sleepNet.
        destruct (IH (i + 1) (Some e) (advance (Z.max 0 (1000 * (i + 1))) n1))
          as (c & Hc & _ & Hp).
        destruct (generateContentLoop _ _ _ _ _ _ _ _) as [[res n2] t2].
        unfold events in *. simpl in *. exists (S c).
        split_and!; [lia|lia|]. by rewrite Hp.
      * unfold ret.
        destruct (IH (i + 1) (Some e) n1) as (c & Hc & _ & Hp).
        destruct (generateContentLoop _ _ _ _ _ _ _ _) as [[res n2] t2].
        unfold events in *. simpl in *. exists (S c).
        split_and!; [lia|lia|]. by rewrite Hp.
Qed.

Lemma analyzeIndividualPage_prompts gemini text page lang n :
  ∃ c, (1 ≤ c ≤ 3)%nat ∧
       promptsOf (events (analyzeIndividualPage gemini text page lang n))
       = replicate c (pagePrompt text page lang).
Proof.
  unfold analyzeIndividualPage, bind, generateContentWithRetry.
  destruct (generateContentLoop_prompts gemini (pagePrompt text page lang) 2500 3
              (Z.to_nat 3) 0 None n) as (c & Hc & Hpos & Hp).
  exists c. split; [simpl in *; lia|].
  destruct (generateContentLoop _ _ _ _ _ _ _ _) as [[[[|raw]|e] n'] t];
    unfold events in *; simpl in *; rewrite ?app_nil_r; done.
Qed.

Lemma pagePrompt_parts page lang :
  ∃ head tail, ∀ text,
    pagePrompt text page lang
    = head +:+ Str.substring0 (Z.to_nat 15000) text +:+ tail.
Proof.
  exists (Str.nl +:+ "Analyze this content from page " +:+ pretty page +:+
          " of a PDF for TNPSC exam preparation. " +:+
          match lang with
          | tamil => "Provide all responses in Tamil."
          | english => "Provide all responses in English."
          end +:+ Str.nl +:+
          "Content: " +:+ Str.dq +:+ Str.dq +:+ Str.dq),
         (Str.dq +:+ Str.dq +:+ Str.dq +:+ Str.nl +:+ Str.join Str.nl pageSchema).
  intros text. unfold pagePrompt, contentLimit.
  by rewrite !string_app_assoc.
Qed.

Section Prompts.

Variable gemini : Gemini Parsed.
Variable store : Store.
Variable extract : string → Z → Z → string.

Lemma PageLoop_prompts r page mr rem attempt delay w res w' t :
  PageLoop gemini store extract r page mr rem attempt delay w (res, w', t) →
  Forall (λ p, p = pagePrompt (extract (fullText r) page page) page (outputLanguage r))
    (promptsOf t).
Proof.
  intros H. remember (res, w', t) as out eqn:Hout. revert res w' t Hout.
  induction H as [attempt delay w
                 |rem attempt delay w w1 t1 Ha
                 |rem attempt delay w e w1 t1 Ha Hr
                 |rem attempt delay w e w1 t1 res2 w2 t2 Ha Hr Hloop IH];
    intros res w' t [= <- <- <-].
  - constructor.
  - apply attempt_normal in Ha
      as [(Hb & -> & ->)|(a & n1 & t0 & w3 & t3 & _ & Hcall & _ & _ & _ & _ & Hc & -> & ->)].
    + constructor.
    + destruct (analyzeIndividualPage_prompts gemini (extract (fullText r) page page)
                  page (outputLanguage r) (net w)) as (c & _ & Hp).
      rewrite Hcall in Hp. unfold events in Hp. simpl in Hp.
      change (promptsOf (EvAnalyze ?a ?b ?c ?d :: ?l)) with (promptsOf l).
      rewrite !promptsOf_app, Hp.
      rewrite (promptsOf_persist t3) by (eapply Consolidated_persist; eauto).
      simpl. rewrite app_nil_r. by apply Forall_replicate.
  - apply attempt_throw in Ha as (n1 & t0 & _ & Hcall & _ & _ & -> & ->).
    destruct (analyzeIndividualPage_prompts gemini (extract (fullText r) page page)
                page (outputLanguage r) (net w)) as (c & _ & Hp).
    rewrite Hcall in Hp. unfold events in Hp. simpl in Hp.
    rewrite promptsOf_app.
    change (promptsOf (EvAnalyze ?a ?b ?c ?d :: ?l)) with (promptsOf l).
    rewrite Hp. simpl. rewrite app_nil_r. by apply Forall_replicate.
  - apply attempt_throw in Ha as (n1 & t0 & _ & Hcall & _ & _ & -> & ->).
    destruct (analyzeIndividualPage_prompts gemini (extract (fullText r) page page)
                page (outputLanguage r) (net w)) as (c & _ & Hp).
    rewrite Hcall in Hp. unfold events in Hp. simpl in Hp.
    rewrite promptsOf_app.
    change (promptsOf (EvAnalyze ?a ?b ?c ?d :: ?l)) with (promptsOf l).
    rewrite Hp. apply Forall_app. split; [by apply Forall_replicate|].
    change (promptsOf (EvToast ?k ?m :: EvSleep ?d :: ?l)) with (promptsOf l).
    by apply (IH _ _ _ eq_refl).
Qed.

Lemma analyzePage_prompts r page w :
  Forall (λ p, p = pagePrompt (extract (fullText r) page page) page (outputLanguage r))
    (promptsOf (events (analyzePage gemini store extract r page w))).
Proof.
  destruct (pageDone page (deref (heap w) (r_pageAnalyses r))) eqn:Hdone.
  - rewrite analyzePage_eq, Hdone. constructor.
  - pose proof (analyzePage_run gemini store extract r page w Hdone) as Hrun.
    destruct (analyzePage gemini store extract r page w) as [[res w'] t].
    by eapply PageLoop_prompts.
Qed.

End Prompts.

(** C10: the prompt of [analyzeIndividualPage] is a fixed head, the first
    15000 characters of the page text and a fixed tail, where head and tail
    depend on the page number and the language only.  Every model call of
    [analyzeIndividualPage], one to three of them, carries that prompt, and
    every model call of [analyzePage] carries the prompt built from the text
    extracted for the page.  The part kept is the prefix of the text of
    length min(15000, length of the text).  Two texts with the same first
    15000 characters give the same run of [analyzeIndividualPage] (same
    prompts sent, same model answers, same result), whatever the model. *)
Theorem C10_page_text_truncated (gemini : Gemini Parsed) (store : Store)
    (extract : string → Z → Z → string) (t1 t2 : string) (page : Z)
    (lang : Language) (n : Net) (r : Render) (w : World) :
  Str.substring0 (Z.to_nat 15000) t1 = Str.substring0 (Z.to_nat 15000) t2 →
  analyzeIndividualPage gemini t1 page lang n
  = analyzeIndividualPage gemini t2 page lang n ∧
  (∃ head tail, ∀ text,
     pagePrompt text page lang
     = head +:+ Str.substring0 (Z.to_nat 15000) text +:+ tail) ∧
  (∃ c, (1 ≤ c ≤ 3)%nat ∧
        promptsOf (events (analyzeIndividualPage gemini t1 page lang n))
        = replicate c (pagePrompt t1 page lang)) ∧
  Forall (λ p, p = pagePrompt (extract (fullText r) page page) page (outputLanguage r))
    (promptsOf (events (analyzePage gemini store extract r page w))) ∧
  String.length (Str.substring0 (Z.to_nat 15000) t1)
  = Nat.min (Z.to_nat 15000) (String.length t1) ∧
  String.prefix (Str.substring0 (Z.to_nat 15000) t1) t1 = true.
Proof.
  intros H. split_and!.
  - unfold analyzeIndividualPage. by rewrite (pagePrompt_truncates t1 t2 page lang H).
  - apply pagePrompt_parts.
  - apply analyzeIndividualPage_prompts.
  - apply analyzePage_prompts.
  - apply substring0_length.
  - apply substring0_prefix.
Qed.

Lemma C10_witness :
  analyzeIndividualPage Sample.steady (Sample.longText "first ending") 1 english
    Sample.start
  = analyzeIndividualPage Sample.steady (Sample.longText "another ending") 1 english
      Sample.start.
Proof.
  apply (C10_page_text_truncated Sample.steady Sample.storeUp Sample.extract
           (Sample.longText "first ending") (Sample.longText "another ending")
           1 english Sample.start
           (render (Sample.props 5) Sample.reader (Sample.fresh 5)) (Sample.fresh 5)).
  vm_compute. reflexivity.
Defined.

(** ** Question records are sanitised *)

Section QuizFacts.

Import Quiz.

Lemma getField_setField_eq name v o : getField name (setField name v o) = Some v.
Proof.
  induction o as [|[k v'] o IH]; simpl.
  - by rewrite String.eqb_refl.
  - destruct (String.eqb name k) eqn:E; simpl; rewrite E; [done|apply IH].
Qed.

Lemma getField_setField_ne name name' v o :
  name ≠ name' → getField name (setField name' v o) = getField name o.
Proof.
  intros Hne. induction o as [|[k v'] o IH]; simpl.
  - destruct (String.eqb name name') eqn:E; [|done].
    by apply String.eqb_eq in E.
  - destruct (String.eqb name' k) eqn:E; simpl.
    + apply String.eqb_eq in E as <-.
      destruct (String.eqb name name') eqn:E'; [|done].
      by apply String.eqb_eq in E'.
    + by rewrite IH.
Qed.

Lemma formatQuestion_wellFormed q q' :
  formatQuestion q = Normal q' → wellFormed q' = true.
Proof.
  unfold formatQuestion.
  destruct (prop "type" q) as [ty|] eqn:Ety; [|done].
  destruct (prop "options" q) as [op|] eqn:Eop; [|by destruct q].
  destruct (prop "answer" q) as [an|] eqn:Ean; [|by destruct q].
  destruct (prop "explanation" q) as [ex|] eqn:Eex; [|by destruct q].
  intros [= <-]. unfold wellFormed, hasFourOptions, hasAnswerTag, hasKnownType.
  rewrite !getField_setField_eq.
  rewrite !(getField_setField_ne "answer" "explanation"), !getField_setField_eq by done.
  rewrite !(getField_setField_ne "options" "explanation"),
          !(getField_setField_ne "options" "answer"), !getField_setField_eq by done.
  rewrite !(getField_setField_ne "type" "explanation"),
          !(getField_setField_ne "type" "answer"),
          !(getField_setField_ne "type" "options"), !getField_setField_eq by done.
  repeat (apply andb_true_iff; split).
  - destruct op as [[]|]; try done. by destruct (length items =? 4)%nat eqn:E.
  - destruct an as [[]|]; try done. by destruct (isTag s) eqn:E.
  - destruct ty as [[]|]; try done.
    by destruct (String.eqb s "mcq" || String.eqb s "assertion_reason") eqn:E.
  - destruct ex as [v|]; [|done]. by destruct (truthy (Some v)) eqn:E.
Qed.

Lemma formatAll_wellFormed qs qs' :
  formatAll qs = Normal qs' → Forall (λ q, wellFormed q = true) qs'.
Proof.
  revert qs'. induction qs as [|q qs IH]; simpl; intros qs'.
  - by intros [= <-].
  - destruct (formatQuestion q) as [q1|] eqn:E1; [|done].
    destruct (formatAll qs) as [qs1|] eqn:E2; [|done].
    intros [= <-]. constructor; [by eapply formatQuestion_wellFormed|by apply IH].
Qed.

Lemma formatAll_length qs qs' : formatAll qs = Normal qs' → length qs' = length qs.
Proof.
  revert qs'. induction qs as [|q qs IH]; simpl; intros qs'.
  - by intros [= <-].
  - destruct (formatQuestion q) as [q1|] eqn:E1; [|done].
    destruct (formatAll qs) as [qs1|] eqn:E2; [|done].
    intros [= <-]. simpl. f_equal. by apply IH.
Qed.

(** A record that is an object is always formatted, and the answer tag E
    becomes A. *)
Lemma formatQuestion_object fields :
  ∃ q', formatQuestion (JObj fields) = Normal q'.
Proof. unfold formatQuestion. simpl. by eexists. Qed.

Lemma formatQuestion_tag_E fields q' :
  getField "answer" fields = Some (JStr "E") →
  formatQuestion (JObj fields) = Normal q' →
  getField "answer" q' = Some (JStr "A").
Proof.
  unfold formatQuestion. simpl. intros -> [= <-]. simpl.
  by rewrite (getField_setField_ne "answer" "explanation"), getField_setField_eq.
Qed.

(** C8: every question record that [generateQuestions] returns is well
    formed: it has an array of exactly four options, an answer tag among A,
    B, C and D, a known type and an explanation; the sanitiser replaced
    whatever the model sent that was not. The number of records returned is
    [totalQuestions]. *)
Theorem C8_questions_well_formed (gemini : Gemini JSON)
    (results : list AnalysisResult) (difficulty : string) (lang : Language)
    (n : Net) (out : QuestionResult) (n' : Net) (t : list Event) :
  generateQuestions gemini results difficulty lang n = (Normal out, n', t) →
  Forall (λ q, wellFormed q = true) (questions out) ∧
  totalQuestions out = length (questions out).
Proof.
  unfold generateQuestions, bind.
  destruct (generateContentWithRetry _ _ _ _ n) as [[[parsed|e] n1] t1]; [|done].
  destruct parsed as [| | | |items|]; simpl; try done.
  unfold complete.
  destruct (formatAll items) as [qs|] eqn:E; simpl; [|done].
  intros [= <- _ _]. simpl. split; [by eapply formatAll_wellFormed|done].
Qed.

End QuizFacts.

Lemma C8_witness :
  ∃ q, Quiz.questions q
       = [[("question", Quiz.JStr "Which city is the capital of Tamil Nadu?");
           ("options", Quiz.placeholderOptions);
           ("answer", Quiz.JStr "A");
           ("type", Quiz.JStr "mcq");
           ("explanation", Quiz.JStr "No explanation provided.")]] ∧
       Forall (λ q, Quiz.wellFormed q = true) (Quiz.questions q).
Proof.
  eexists. split; [|eapply (C8_questions_well_formed Sample.quizModel [] "medium"
                              english Sample.start)].
  2: { vm_compute. reflexivity. }
  reflexivity.
Defined.

(** * Further properties *)

(** ** The service helper *)

Lemma linearDelays_S i k : linearDelays i (S k) = 1000 * (i + 1) :: linearDelays (i + 1) k.
Proof.
  unfold linearDelays. simpl. f_equal; [f_equal; lia|].
  rewrite <- seq_shift, map_map. apply map_ext. intros j. f_equal. lia.
Qed.

Lemma generateContentLoop_shape {A} (gemini : Gemini A) prompt maxTok retries rem i last n :
  i + Z.of_nat rem = retries →
  match generateContentLoop gemini prompt maxTok retries rem i last n with
  | (res, n', t) =>
      ∃ c : nat,
        (c ≤ rem)%nat ∧
        modelCalls n' = (modelCalls n + c)%nat ∧
        sleepsOf t = linearDelays i (pred c) ∧
        (∀ j, (j < pred c)%nat → isModelErr (answerAt gemini n prompt maxTok j)) ∧
        match res with
        | Normal a =>
            ∃ c', c = S c' ∧
                  modelCallsOf t = replicate c' false ++ [true] ∧
                  answerAt gemini n prompt maxTok c' = ModelOk a
        | Throw _ =>
            c = rem ∧ modelCallsOf t = replicate c false ∧
            (∀ j, (j < c)%nat → isModelErr (answerAt gemini n prompt maxTok j))
        end
  end.
Proof.
  unfold answerAt.
  revert i last n. induction rem as [|rem IH]; intros i last n Hinv; simpl.
  - exists 0%nat. split_and!; try done; simpl; intros j Hj; exfalso; lia.
  - unfold try_catch, generateContent.
    destruct (gemini (modelCalls n) prompt maxTok) as [lat [a|e]] eqn:Hg; simpl.
    + exists 1%nat. split_and!; try done; try lia.
      exists 0%nat. split_and!; try done. by rewrite Nat.add_0_r, Hg.
    + unfold bind.
      set (n1 := {| clock := clock n + Z.of_N lat; modelCalls := S (modelCalls n) |}).
      assert (Hshift : ∀ (P : ModelOutcome A → Prop) (k : nat),
                (∀ j, (j < k)%nat → P (gemini (S (modelCalls n) + j)%nat prompt maxTok).2) →
                P (ModelErr e) →
                ∀ j, (j < S k)%nat → P (gemini (modelCalls n + j)%nat prompt maxTok).2).
      { intros P k Hk He [|j] Hj.
        - by rewrite Nat.add_0_r, Hg.
        - replace (modelCalls n + S j)%nat with (S (modelCalls n) + j)%nat by lia.
          apply Hk. lia. }
      destruct (i <? retries - 1) eqn:Hi.
      * unfold sleepNet.
        specialize (IH (i + 1) (Some e) (advance (Z.max 0 (1000 * (i + 1))) n1)).
        destruct (generateContentLoop _ _ _ _ _ _ _ _) as [[res n2] t2].
        destruct IH as (c & Hc & Hm & Hs & Hpre & Hres); [lia|].
        assert (Hc0 : c ≠ 0%nat).
        { destruct res as [a|e']; [by destruct Hres as (? & -> & _)|].
          destruct Hres as [-> _]. lia. }
        exists (S c). simpl in *. split_and!; try lia.
        -- destruct c as [|c]; [done|]. simpl. by rewrite Hs, linearDelays_S.
        -- destruct c as [|c]; [done|]. simpl in *. by apply (Hshift (λ o, isModelErr o)).
        -- destruct res as [a|e'].
           ++ destruct Hres as (c' & -> & Ht & Ha). exists (S c'). split_and!; try done.
              ** simpl. by rewrite Ht.
              ** by replace (modelCalls n + S c')%nat with (S (modelCalls n) + c')%nat by lia.
           ++ destruct Hres as (-> & Ht & Hall). split_and!; [done|simpl; by rewrite Ht|].
              by apply (Hshift (λ o, isModelErr o)).
      * unfold ret. specialize (IH (i + 1) (Some e) n1).
        destruct (generateContentLoop _ _ _ _ _ _ _ _) as [[res n2] t2].
        destruct IH as (c & Hc & Hm & Hs & Hpre & Hres); [lia|].
        assert (rem = 0%nat) as -> by lia.
        assert (c = 0%nat) as -> by lia.
        exists 1%nat. simpl in *. split_and!; try lia; try done.
        destruct res as [a|e']; [by destruct Hres as (? & ? & _)|].
        destruct Hres as (_ & Ht & _). split_and!; [done|simpl; by rewrite Ht|].
        intros [|j] Hj; [|lia]. by rewrite Nat.add_0_r, Hg.
Qed.

Lemma generateContentLoop_message {A} (gemini : Gemini A) prompt maxTok retries rem i last n :
  match generateContentLoop gemini prompt maxTok retries rem i last n with
  | (Throw m, n', t) =>
      ∃ lastError, m = exhaustedMessage retries lastError ∧
        match rem with
        | O => lastError = last
        | S rem' =>
            ∃ e, lastError = Some e ∧
                 answerAt gemini n prompt maxTok rem' = ModelErr e
        end
  | _ => True
  end.
Proof.
  unfold answerAt.
  revert i last n. induction rem as [|rem IH]; intros i last n; simpl.
  - by exists last.
  - unfold try_catch, generateContent.
    destruct (gemini (modelCalls n) prompt maxTok) as [lat [a|e]] eqn:Hg; simpl; [done|].
    unfold bind.
    set (n1 := {| clock := clock n + Z.of_N lat; modelCalls := S (modelCalls n) |}).
    assert (Hnext : ∀ n2, modelCalls n2 = S (modelCalls n) →
      match generateContentLoop gemini prompt maxTok retries rem (i + 1) (Some e) n2 with
      | (Throw m, n', t) =>
          ∃ lastError, m = exhaustedMessage retries lastError ∧
            ∃ e', lastError = Some e' ∧
                  answerAt gemini n prompt maxTok rem = ModelErr e'
      | _ => True
      end).
    { intros n2 Hn2. specialize (IH (i + 1) (Some e) n2). unfold answerAt.
      destruct (generateContentLoop _ _ _ _ _ _ _ _) as [[[a|m] n3] t3]; [done|].
      destruct IH as (le & -> & Hle). exists le. split; [done|].
      destruct rem as [|rem'].
      - subst le. exists e. split; [done|]. by rewrite Nat.add_0_r, Hg.
      - destruct Hle as (e' & -> & He'). exists e'. split; [done|].
        rewrite Hn2 in He'.
        by replace (modelCalls n + S rem')%nat with (S (modelCalls n) + rem')%nat by lia. }
    destruct (i <? retries - 1).
    + unfold sleepNet.
      specialize (Hnext (advance (Z.max 0 (1000 * (i + 1))) n1) eq_refl).
      unfold answerAt in Hnext.
      by destruct (generateContentLoop _ _ _ _ _ _ _ _) as [[[a|m] n3] t3].
    + unfold ret. specialize (Hnext n1 eq_refl). unfold answerAt in Hnext.
      by destruct (generateContentLoop _ _ _ _ _ _ _ _) as [[[a|m] n3] t3].
Qed.

(** Every run of the service helper: the number of model calls, the waits
    between them and the answer that decided the outcome. *)
Lemma generateContentWithRetry_run {A} (gemini : Gemini A) (prompt : string)
    (maxTok retries : Z) (n : Net) :
  let res := generateContentWithRetry gemini prompt maxTok retries n in
  ∃ c : nat,
    (c ≤ Z.to_nat retries)%nat ∧
    modelCalls (world_of res) = (modelCalls n + c)%nat ∧
    sleepsOf (events res) = linearDelays 0 (pred c) ∧
    (∀ j, (j < pred c)%nat → isModelErr (answerAt gemini n prompt maxTok j)) ∧
    match completion res with
    | Normal a =>
        ∃ c', c = S c' ∧
              modelCallsOf (events res) = replicate c' false ++ [true] ∧
              answerAt gemini n prompt maxTok c' = ModelOk a
    | Throw m =>
        c = Z.to_nat retries ∧ modelCallsOf (events res) = replicate c false ∧
        (∀ j, (j < c)%nat → isModelErr (answerAt gemini n prompt maxTok j)) ∧
        ∃ lastError, m = exhaustedMessage retries lastError ∧
          match c with
          | O => lastError = None
          | S c' => ∃ e, lastError = Some e ∧
                         answerAt gemini n prompt maxTok c' = ModelErr e
          end
    end.
Proof.
  intros res. subst res. unfold generateContentWithRetry.
  pose proof (generateContentLoop_message gemini prompt maxTok retries
                (Z.to_nat retries) 0 None n) as Hmsg.
  destruct (Z_lt_le_dec retries 0) as [Hneg|Hpos].
  - replace (Z.to_nat retries) with 0%nat in * by lia. simpl in *.
    exists 0%nat. split_and!; try done; intros; lia.
  - pose proof (generateContentLoop_shape gemini prompt maxTok retries
                  (Z.to_nat retries) 0 None n) as Hshape.
    destruct (generateContentLoop _ _ _ _ _ _ _ _) as [[res n'] t].
    destruct Hshape as (c & Hc & Hm & Hs & Hpre & Hres); [lia|].
    exists c. unfold world_of, events, completion. simpl.
    split_and!; try done.
    destruct res as [a|m]; [done|].
    destruct Hres as (-> & Ht & Hall). split_and!; try done.
Qed.

(** X1: when the first [k] answers of the model are errors and the next one
    is an answer, with [k] below the number of attempts allowed,
    [generateContentWithRetry] returns that answer after exactly [k + 1]
    model calls, having slept 1000 ms, 2000 ms, ... once after each failed
    call. *)
Theorem generateContentWithRetry_first_success {A} (gemini : Gemini A)
    (prompt : string) (maxTok retries : Z) (n : Net) (k : nat) (a : A) :
  (k < Z.to_nat retries)%nat →
  (∀ j, (j < k)%nat → isModelErr (answerAt gemini n prompt maxTok j)) →
  answerAt gemini n prompt maxTok k = ModelOk a →
  let res := generateContentWithRetry gemini prompt maxTok retries n in
  completion res = Normal a ∧
  modelCalls (world_of res) = (modelCalls n + S k)%nat ∧
  modelCallsOf (events res) = replicate k false ++ [true] ∧
  sleepsOf (events res) = linearDelays 0 k.
Proof.
  intros Hk Hfail Hok res.
  destruct (generateContentWithRetry_run gemini prompt maxTok retries n)
    as (c & Hc & Hm & Hs & Hpre & Hres).
  fold res in Hc, Hm, Hs, Hres.
  destruct (completion res) as [a'|m].
  - destruct Hres as (c' & -> & Ht & Ha). simpl in *.
    assert (c' = k) as ->.
    { destruct (lt_eq_lt_dec c' k) as [[Hlt| ->]|Hgt]; [|done|].
      - specialize (Hfail c' Hlt). by rewrite Ha in Hfail.
      - specialize (Hpre k Hgt). by rewrite Hok in Hpre. }
    rewrite Hok in Ha. by injection Ha as ->.
  - destruct Hres as (-> & _ & Hall & _).
    specialize (Hall k Hk). by rewrite Hok in Hall.
Qed.

(** X2: when every allowed attempt fails, [generateContentWithRetry] makes
    exactly [retries] model calls, sleeps after each of them but the last,
    and throws a message that names the number of attempts and carries the
    message of the last error ([undefined] when no attempt was allowed). *)
Theorem generateContentWithRetry_exhausted {A} (gemini : Gemini A)
    (prompt : string) (maxTok retries : Z) (n : Net) :
  (∀ j, (j < Z.to_nat retries)%nat → isModelErr (answerAt gemini n prompt maxTok j)) →
  let res := generateContentWithRetry gemini prompt maxTok retries n in
  modelCalls (world_of res) = (modelCalls n + Z.to_nat retries)%nat ∧
  modelCallsOf (events res) = replicate (Z.to_nat retries) false ∧
  sleepsOf (events res) = linearDelays 0 (pred (Z.to_nat retries)) ∧
  ∃ lastError,
    completion res = Throw (exhaustedMessage retries lastError) ∧
    match Z.to_nat retries with
    | O => lastError = None
    | S c' => ∃ e, lastError = Some e ∧
                   answerAt gemini n prompt maxTok c' = ModelErr e
    end.
Proof.
  intros Hfail res.
  destruct (generateContentWithRetry_run gemini prompt maxTok retries n)
    as (c & Hc & Hm & Hs & Hpre & Hres).
  fold res in Hc, Hm, Hs, Hres.
  destruct (completion res) as [a'|m].
  - destruct Hres as (c' & -> & Ht & Ha).
    specialize (Hfail c'). rewrite Ha in Hfail. exfalso. apply Hfail. lia.
  - destruct Hres as (-> & Ht & _ & le & -> & Hle).
    split_and!; try done. by exists le.
Qed.

Lemma includes_exhausted_3 e :
  Str.includes "429" (exhaustedMessage 3 (Some e)) = Str.includes "429" e.
Proof. reflexivity. Qed.

(** ** The analysis client, call by call *)

Lemma analyzeIndividualPage_run gemini textContent page lang n :
  match analyzeIndividualPage gemini textContent page lang n with
  | (Normal a, n', t) =>
      ∃ k raw,
        (k < 3)%nat ∧
        (∀ j, (j < k)%nat →
              isModelErr (answerAt gemini n (pagePrompt textContent page lang) 2500 j)) ∧
        answerAt gemini n (pagePrompt textContent page lang) 2500 k
        = ModelOk (ParsedValue raw) ∧
        a = analysisOfAnswer page raw ∧
        modelCalls n' = (modelCalls n + S k)%nat ∧
        modelCallsOf t = replicate k false ++ [true] ∧
        sleepsOf t = linearDelays 0 k
  | (Throw m, n', t) =>
      (modelCalls n' = (modelCalls n + 3)%nat ∧
       modelCallsOf t = [false; false; false] ∧
       sleepsOf t = [1000; 2000] ∧
       (∀ j, (j < 3)%nat →
             isModelErr (answerAt gemini n (pagePrompt textContent page lang) 2500 j)) ∧
       ∃ e, answerAt gemini n (pagePrompt textContent page lang) 2500 2 = ModelErr e ∧
            m = exhaustedMessage 3 (Some e)) ∨
      (∃ k,
         (k < 3)%nat ∧
         (∀ j, (j < k)%nat →
               isModelErr (answerAt gemini n (pagePrompt textContent page lang) 2500 j)) ∧
         answerAt gemini n (pagePrompt textContent page lang) 2500 k
         = ModelOk ParsedNull ∧
         m = msgNullAnalysis ∧
         modelCalls n' = (modelCalls n + S k)%nat ∧
         modelCallsOf t = replicate k false ++ [true] ∧
         sleepsOf t = linearDelays 0 k)
  end.
Proof.
  unfold analyzeIndividualPage, bind.
  pose proof (generateContentWithRetry_run gemini (pagePrompt textContent page lang)
                2500 3 n) as Hshape.
  destruct (generateContentWithRetry _ _ _ _ _) as [[[[|raw]|m'] n1] t1];
    destruct Hshape as (c & Hc & Hm & Hs & Hpre & Hres);
    unfold world_of, events, completion in *; simpl in *.
  - destruct Hres as (k & -> & Ht & Ha). right. exists k.
    rewrite app_nil_r. split_and!; try done; lia.
  - destruct Hres as (k & -> & Ht & Ha). exists k, raw.
    rewrite app_nil_r. split_and!; try done; lia.
  - destruct Hres as (-> & Ht & Hall & le & -> & e & -> & He).
    left. split_and!; try done. by exists e.
Qed.

(** X3: [analyzeIndividualPage] throws in two ways only.  Either three
    model calls were made and all failed, with sleeps of 1000 ms and 2000 ms
    between them, and the message thrown carries the message of the third
    error only, so that it mentions 429 exactly when the third error does.
    Or the first answer that could be parsed, one of the first three, was
    [null]: no model call follows it, and the message is that of the
    TypeError of reading a property of [null], which does not mention
    429. *)
Theorem analyzeIndividualPage_failure (gemini : Gemini Parsed)
    (textContent : string) (page : Z) (lang : Language) (n n' : Net)
    (m : string) (t : list Event) :
  analyzeIndividualPage gemini textContent page lang n = (Throw m, n', t) →
  (modelCalls n' = (modelCalls n + 3)%nat ∧
   modelCallsOf t = [false; false; false] ∧
   sleepsOf t = [1000; 2000] ∧
   ∃ e, answerAt gemini n (pagePrompt textContent page lang) 2500 2 = ModelErr e ∧
        m = exhaustedMessage 3 (Some e) ∧
        Str.includes "429" m = Str.includes "429" e) ∨
  (∃ k,
     (k < 3)%nat ∧
     (∀ j, (j < k)%nat →
           isModelErr (answerAt gemini n (pagePrompt textContent page lang) 2500 j)) ∧
     answerAt gemini n (pagePrompt textContent page lang) 2500 k = ModelOk ParsedNull ∧
     m = msgNullAnalysis ∧
     Str.includes "429" m = false ∧
     modelCalls n' = (modelCalls n + S k)%nat ∧
     modelCallsOf t = replicate k false ++ [true] ∧
     sleepsOf t = linearDelays 0 k).
Proof.
  intros Hrun.
  pose proof (analyzeIndividualPage_run gemini textContent page lang n) as H.
  rewrite Hrun in H.
  destruct H as [(Hm & Ht & Hs & _ & e & He & ->)
                |(k & Hk & Hfail & Hnull & -> & Hm & Ht & Hs)].
  - left. split_and!; try done. by exists e.
  - right. exists k. split_and!; done.
Qed.

(** X4: the first answer of the model that can be parsed, when it is one
    of the first three, decides the call.  If it is not [null],
    [analyzeIndividualPage] returns the object built from it: the page
    number that was asked for, the lists and texts of the answer with
    missing properties replaced by empty ones, and no [isAnalyzed] mark.  If
    it is [null], the call throws the TypeError of reading a property of
    [null].  In both cases no model call follows that answer. *)
Theorem analyzeIndividualPage_success (gemini : Gemini Parsed)
    (textContent : string) (page : Z) (lang : Language) (n : Net)
    (k : nat) (parsed : Parsed) :
  (k < 3)%nat →
  (∀ j, (j < k)%nat →
        isModelErr (answerAt gemini n (pagePrompt textContent page lang) 2500 j)) →
  answerAt gemini n (pagePrompt textContent page lang) 2500 k = ModelOk parsed →
  let res := analyzeIndividualPage gemini textContent page lang n in
  completion res
  = match parsed with
    | ParsedValue raw => Normal (analysisOfAnswer page raw)
    | ParsedNull => Throw msgNullAnalysis
    end ∧
  modelCalls (world_of res) = (modelCalls n + S k)%nat ∧
  modelCallsOf (events res) = replicate k false ++ [true] ∧
  sleepsOf (events res) = linearDelays 0 k.
Proof.
  intros Hk Hfail Hok res.
  pose proof (analyzeIndividualPage_run gemini textContent page lang n) as H.
  fold res in H.
  assert (Hsame : ∀ k' parsed',
            (∀ j, (j < k')%nat →
                  isModelErr (answerAt gemini n (pagePrompt textContent page lang)
                                2500 j)) →
            answerAt gemini n (pagePrompt textContent page lang) 2500 k'
            = ModelOk parsed' →
            k' = k ∧ parsed' = parsed).
  { intros k' parsed' Hfail' Hok'.
    destruct (lt_eq_lt_dec k' k) as [[Hlt| ->]|Hgt].
    - specialize (Hfail k' Hlt). by rewrite Hok' in Hfail.
    - rewrite Hok in Hok'. by injection Hok' as <-.
    - specialize (Hfail' k Hgt). by rewrite Hok in Hfail'. }
  destruct res as [[[a|m] n'] t].
  - destruct H as (k' & raw' & Hk' & Hfail' & Hok' & -> & Hm & Ht & Hs).
    destruct (Hsame k' _ Hfail' Hok') as [-> <-]. done.
  - destruct H as [(_ & _ & _ & Hall & _)
                  |(k' & Hk' & Hfail' & Hok' & -> & Hm & Ht & Hs)].
    + specialize (Hall k Hk). by rewrite Hok in Hall.
    + destruct (Hsame k' _ Hfail' Hok') as [-> <-]. done.
Qed.

Lemma analyzeIndividualPage_modelCalls gemini content page lang n :
  (modelCalls (world_of (analyzeIndividualPage gemini content page lang n))
   ≤ modelCalls n + 3)%nat.
Proof.
  unfold analyzeIndividualPage, bind.
  pose proof (generateContentWithRetry_run gemini (pagePrompt content page lang)
                2500 3 n) as (c & Hc & Hm & _).
  destruct (generateContentWithRetry _ _ _ _ _) as [[[[|a]|m'] n1] t1];
    unfold world_of in *; simpl in *; lia.
Qed.

Section CallBudget.

Variable gemini : Gemini Parsed.
Variable store : Store.
Variable extract : string → Z → Z → string.

Lemma PageLoop_modelCalls r page mr rem attempt delay w res w' t :
  PageLoop gemini store extract r page mr rem attempt delay w (res, w', t) →
  (modelCalls (net w') ≤ modelCalls (net w) + 3 * rem)%nat.
Proof.
  intros H. remember (res, w', t) as out eqn:Hout. revert res w' t Hout.
  induction H as [attempt delay w
                 |rem attempt delay w w1 t1 Ha
                 |rem attempt delay w e w1 t1 Ha Hr
                 |rem attempt delay w e w1 t1 res2 w2 t2 Ha Hr Hloop IH];
    intros res w' t [= <- <- <-].
  - lia.
  - apply attempt_normal in Ha
      as [(Hb & -> & ->)|(a & n1 & t0 & w3 & t3 & _ & Hcall & _ & _ & _ & _ & Hc & -> & ->)].
    + simpl. lia.
    + apply Consolidated_sameProgress in Hc as (_ & _ & _ & Hmc & _).
      pose proof (analyzeIndividualPage_modelCalls gemini
                    (extract (fullText r) page page) page (outputLanguage r) (net w)) as Hb.
      rewrite Hcall in Hb. unfold world_of in Hb. simpl in *. lia.
  - apply attempt_throw in Ha as (n1 & t0 & _ & Hcall & _ & _ & -> & ->).
    pose proof (analyzeIndividualPage_modelCalls gemini
                  (extract (fullText r) page page) page (outputLanguage r) (net w)) as Hb.
    rewrite Hcall in Hb. unfold world_of in Hb. simpl in *. lia.
  - apply attempt_throw in Ha as (n1 & t0 & _ & Hcall & _ & _ & -> & ->).
    pose proof (analyzeIndividualPage_modelCalls gemini
                  (extract (fullText r) page page) page (outputLanguage r) (net w)) as Hb.
    rewrite Hcall in Hb. unfold world_of in Hb.
    specialize (IH _ _ _ eq_refl). simpl in *. lia.
Qed.

Lemma analyzePage_modelCalls r page w :
  (modelCalls (net (world_of (analyzePage gemini store extract r page w)))
   ≤ modelCalls (net w) + 9)%nat.
Proof.
  destruct (pageDone page (deref (heap w) (r_pageAnalyses r))) eqn:Hdone.
  - rewrite analyzePage_eq, Hdone. unfold world_of. simpl. lia.
  - pose proof (analyzePage_run gemini store extract r page w Hdone) as Hrun.
    destruct (analyzePage gemini store extract r page w) as [[res w'] t].
    apply PageLoop_modelCalls in Hrun. unfold world_of. simpl in *. lia.
Qed.

Lemma analyzeAllLoop_modelCalls r rem i w :
  (modelCalls (net (world_of (analyzeAllLoop gemini store extract r rem i w)))
   ≤ modelCalls (net w) + 9 * rem)%nat.
Proof.
  revert i w. induction rem as [|rem IH]; intros i w.
  - unfold world_of. simpl. lia.
  - rewrite analyzeAllLoop_step.
    destruct (pageDone i (deref (heap w) (r_pageAnalyses r))).
    + specialize (IH (i + 1) w). lia.
    + pose proof (analyzePage_modelCalls r i w) as Hp.
      destruct (analyzePage gemini store extract r i w) as [[[u|e] w1] t1].
      * destruct (i <? totalPages r).
        -- specialize (IH (i + 1) (asleep 1000 w1)).
           destruct (analyzeAllLoop _ _ _ _ _ _ _) as [[res w3] t3].
           unfold world_of in *. simpl in *. lia.
        -- specialize (IH (i + 1) w1).
           destruct (analyzeAllLoop _ _ _ _ _ _ _) as [[res w3] t3].
           unfold world_of in *. simpl in *. lia.
      * unfold world_of in *. simpl in *. lia.
Qed.

(** X5: one [analyzePage] makes at most 9 model calls (three client calls
    of three attempts each), and [analyzeAllPages] at most 9 per page of the
    document. *)
Theorem navigator_model_call_budget (r : Render) (page : Z) (w : World) :
  (modelCalls (net (world_of (analyzePage gemini store extract r page w)))
   ≤ modelCalls (net w) + 9)%nat ∧
  (modelCalls (net (world_of (analyzeAllPages gemini store extract r w)))
   ≤ modelCalls (net w) + 9 * Z.to_nat (totalPages r))%nat.
Proof.
  split; [apply analyzePage_modelCalls|].
  rewrite analyzeAllPages_eq.
  pose proof (analyzeAllLoop_modelCalls r (Z.to_nat (totalPages r)) 1
                (withIsAnalyzing true w)) as Hb.
  destruct (analyzeAllLoop _ _ _ _ _ _ _) as [[[ok|e] w1] t1];
    unfold world_of in *; simpl in *; lia.
Qed.

End CallBudget.

(** ** A model that is always rate limited *)

Lemma sleepsOf_app t1 t2 : sleepsOf (t1 ++ t2) = sleepsOf t1 ++ sleepsOf t2.
Proof. apply omap_app. Qed.

Section RateLimited.

Variable gemini : Gemini Parsed.
Variable store : Store.
Variable extract : string → Z → Z → string.

Hypothesis always_limited :
  ∀ i prompt tok, ∃ e, (gemini i prompt tok).2 = ModelErr e ∧ Str.includes "429" e = true.

Lemma analyzeIndividualPage_limited content page lang n :
  ∃ m n' t,
    analyzeIndividualPage gemini content page lang n = (Throw m, n', t) ∧
    Str.includes "429" m = true ∧
    modelCalls n' = (modelCalls n + 3)%nat ∧
    sleepsOf t = [1000; 2000].
Proof.
  pose proof (analyzeIndividualPage_run gemini content page lang n) as Hrun.
  destruct (analyzeIndividualPage gemini content page lang n) as [[[a|m] n'] t].
  - exfalso. destruct Hrun as (k & raw & _ & _ & Hok & _). unfold answerAt in Hok.
    destruct (always_limited (modelCalls n + k)%nat (pagePrompt content page lang) 2500)
      as (e & He & _). by rewrite He in Hok.
  - destruct Hrun as [(Hm & _ & Hs & _ & e & He & ->)|(k & _ & _ & Hok & _)].
    + exists (exhaustedMessage 3 (Some e)), n', t. split_and!; try done.
      rewrite includes_exhausted_3. unfold answerAt in He.
      destruct (always_limited (modelCalls n + 2)%nat (pagePrompt content page lang)
                  2500) as (e' & He' & H429).
      rewrite He' in He. by injection He as <-.
    + exfalso. unfold answerAt in Hok.
      destruct (always_limited (modelCalls n + k)%nat (pagePrompt content page lang)
                  2500) as (e & He & _).
      by rewrite He in Hok.
Qed.

Lemma attempt_limited r page w :
  Str.trim (extract (fullText r) page page) ≠ "" →
  ∃ m n' t,
    analyzePageAttempt gemini store extract r page w
    = (Throw m, set_net n' w,
       EvAnalyze (clock (net w)) page (extract (fullText r) page page) (Some m) :: t) ∧
    Str.includes "429" m = true ∧
    modelCalls n' = (modelCalls (net w) + 3)%nat ∧
    sleepsOf t = [1000; 2000] ∧ Forall isNetEvent t.
Proof.
  intros Hne.
  destruct (analyzeIndividualPage_limited (extract (fullText r) page page) page
              (outputLanguage r) (net w)) as (m & n' & t & Hcall & H429 & Hm & Hs).
  exists m, n', t. split_and!; try done.
  2:{ pose proof (analyzeIndividualPage_net gemini (extract (fullText r) page page)
                    page (outputLanguage r) (net w)) as Hn.
      rewrite Hcall in Hn. tauto. }
  unfold analyzePageAttempt.
  destruct (Str.truthy (Str.trim (extract (fullText r) page page))) eqn:Hb;
    [|by apply truthy_false in Hb].
  simpl. unfold bind at 1, callAnalyzeIndividualPage, liftNet. simpl.
  by rewrite Hcall.
Qed.


(** X6: when every answer of the model is an error that mentions 429, the
    analysis of a page with text makes three client calls and nine model
    calls, sleeps 1000, 2000, 2000, 1000, 2000, 4000, 1000 and 2000 ms,
    reports the failure after 3 attempts, throws a message that mentions
    429, and leaves the progress map as it was with the busy flag lowered. *)
Theorem analyzePage_always_rate_limited (r : Render) (page : Z) (w : World) :
  pageDone page (deref (heap w) (r_pageAnalyses r)) = false →
  Str.trim (extract (fullText r) page page) ≠ "" →
  let res := analyzePage gemini store extract r page w in
  (∃ m, completion res = Throw m ∧ Str.includes "429" m = true) ∧
  modelCalls (net (world_of res)) = (modelCalls (net w) + 9)%nat ∧
  length (analyzeCalls (events res)) = 3%nat ∧
  sleepsOf (events res) = [1000; 2000; 2000; 1000; 2000; 4000; 1000; 2000] ∧
  last (events res) = Some (EvToast toast_error (msgFailed page 2)) ∧
  pagesOf (world_of res) = pagesOf w ∧
  isAnalyzing (world_of res) = false.
Proof.
  intros Hdone Hne res. subst res.
  rewrite analyzePage_eq, Hdone.
  set (w0 := withIsAnalyzing true w).
  destruct (attempt_limited r page w0 Hne) as (m1 & n1 & t1 & Ha1 & H1 & Hm1 & Hs1 & Hn1).
  set (w1 := asleep initialDelay (set_net n1 w0)).
  destruct (attempt_limited r page w1 Hne) as (m2 & n2 & t2 & Ha2 & H2 & Hm2 & Hs2 & Hn2).
  set (w2 := asleep (initialDelay * 2) (set_net n2 w1)).
  destruct (attempt_limited r page w2 Hne) as (m3 & n3 & t3 & Ha3 & H3 & Hm3 & Hs3 & Hn3).
  assert (Hr1 : retryable m1 0 maxRetries = true).
  { unfold retryable. by rewrite H1, (includes_truthy "429" m1). }
  assert (Hr2 : retryable m2 (0 + 1) maxRetries = true).
  { unfold retryable. by rewrite H2, (includes_truthy "429" m2). }
  assert (Hr3 : retryable m3 (0 + 1 + 1) maxRetries = false).
  { unfold retryable. by rewrite H3, (includes_truthy "429" m3). }
  rewrite analyzePageLoop_step, Ha1, Hr1.
  fold w1. rewrite analyzePageLoop_step, Ha2, Hr2.
  fold w2. rewrite analyzePageLoop_step, Ha3, Hr3.
  unfold completion, world_of, events. simpl.
  split_and!.
  - by exists m3.
  - rewrite Hm3. simpl. rewrite Hm2. simpl. rewrite Hm1. simpl. lia.
  - rewrite !analyzeCalls_app. simpl. rewrite !analyzeCalls_app. simpl.
    rewrite !analyzeCalls_app. simpl.
    by rewrite (analyzeCalls_net t1), (analyzeCalls_net t2), (analyzeCalls_net t3).
  - rewrite !sleepsOf_app. simpl. rewrite !sleepsOf_app. simpl.
    rewrite !sleepsOf_app. simpl. by rewrite Hs1, Hs2, Hs3.
  - repeat (rewrite app_comm_cons || rewrite app_assoc). apply last_snoc.
  - done.
  - done.
Qed.

End RateLimited.

(** ** The busy flag and the progress of a session *)

Section BusyFlag.

Variable gemini : Gemini Parsed.
Variable store : Store.
Variable extract : string → Z → Z → string.

Lemma PageLoop_isAnalyzing r page mr rem attempt delay w res w' t :
  PageLoop gemini store extract r page mr rem attempt delay w (res, w', t) →
  attempt + Z.of_nat rem = mr → (0 < rem)%nat →
  isAnalyzing w' = false.
Proof.
  intros H. remember (res, w', t) as out eqn:Hout. revert res w' t Hout.
  induction H as [attempt delay w
                 |rem attempt delay w w1 t1 Ha
                 |rem attempt delay w e w1 t1 Ha Hr
                 |rem attempt delay w e w1 t1 res2 w2 t2 Ha Hr Hloop IH];
    intros res w' t [= <- <- <-] Hinv Hpos.
  - lia.
  - apply attempt_normal in Ha
      as [(Hb & -> & ->)|(a & n1 & t0 & w3 & t3 & _ & _ & _ & _ & _ & _ & _ & -> & ->)];
      done.
  - done.
  - apply retryable_lt in Hr. apply (IH _ _ _ eq_refl); lia.
Qed.

Lemma analyzePage_isAnalyzing r page w :
  pageDone page (deref (heap w) (r_pageAnalyses r)) = false →
  isAnalyzing (world_of (analyzePage gemini store extract r page w)) = false.
Proof.
  intros Hdone.
  pose proof (analyzePage_run gemini store extract r page w Hdone) as Hrun.
  destruct (analyzePage gemini store extract r page w) as [[res w'] t].
  by apply PageLoop_isAnalyzing in Hrun; [|done|lia].
Qed.

(** X7: [analyzePage] on a page that its render sees as analysed does
    nothing; otherwise it returns or throws with [isAnalyzing] false.
    [analyzeAllPages] always ends with [isAnalyzing] false. *)
Theorem isAnalyzing_is_reset (r : Render) (page : Z) (w : World) :
  (pageDone page (deref (heap w) (r_pageAnalyses r)) = true →
   analyzePage gemini store extract r page w = (Normal tt, w, [])) ∧
  (pageDone page (deref (heap w) (r_pageAnalyses r)) = false →
   isAnalyzing (world_of (analyzePage gemini store extract r page w)) = false) ∧
  isAnalyzing (world_of (analyzeAllPages gemini store extract r w)) = false.
Proof.
  split_and!.
  - intros Hdone. by rewrite analyzePage_eq, Hdone.
  - apply analyzePage_isAnalyzing.
  - rewrite analyzeAllPages_eq.
    destruct (analyzeAllLoop_normal gemini store extract r (Z.to_nat (totalPages r)) 1
                (withIsAnalyzing true w)) as [ok Hok].
    destruct (analyzeAllLoop _ _ _ _ _ _ _) as [[[ok'|e] w1] t1]; [done|].
    by unfold completion in Hok.
Qed.

(** Completed pages stay completed. *)

Lemma pageStored_pagesOf page w w' :
  pageStored page w w' →
  ∃ a, isAnalyzed a = true ∧ pagesOf w' = Map_set page a (pagesOf w).
Proof.
  intros (a & w0 & Ha & H1 & H2). exists a. split; [done|].
  rewrite (sameHeap_pagesOf _ _ H2), withPage_pagesOf.
  by rewrite (sameHeap_pagesOf _ _ H1).
Qed.

Lemma pageDone_set_mono j k a m :
  isAnalyzed a = true → pageDone j m = true → pageDone j (Map_set k a m) = true.
Proof.
  intros Ha Hj. destruct (decide (j = k)) as [->|Hne].
  - by apply pageDone_set.
  - rewrite <- Hj. apply pageDone_get. by apply Map_get_set_ne.
Qed.

Lemma analyzePage_mono r page w j :
  pageDone j (pagesOf w) = true →
  pageDone j (pagesOf (world_of (analyzePage gemini store extract r page w))) = true.
Proof.
  intros Hj.
  destruct (pageDone page (deref (heap w) (r_pageAnalyses r))) eqn:Hdone.
  - by rewrite analyzePage_eq, Hdone.
  - pose proof (analyzePage_run gemini store extract r page w Hdone) as Hrun.
    destruct (analyzePage gemini store extract r page w) as [[res w'] t].
    apply PageLoop_progress in Hrun; [|done|lia].
    unfold world_of. simpl. destruct res as [u|e].
    + apply pageStored_pagesOf in Hrun as (a & Ha & ->).
      by apply pageDone_set_mono.
    + by rewrite (sameHeap_pagesOf _ _ Hrun).
Qed.

Lemma analyzeAllLoop_mono r rem i w j :
  pageDone j (pagesOf w) = true →
  pageDone j (pagesOf (world_of (analyzeAllLoop gemini store extract r rem i w))) = true.
Proof.
  revert i w. induction rem as [|rem IH]; intros i w Hj; [done|].
  rewrite analyzeAllLoop_step.
  destruct (pageDone i (deref (heap w) (r_pageAnalyses r))); [by apply IH|].
  pose proof (analyzePage_mono r i w j Hj) as Hp.
  destruct (analyzePage gemini store extract r i w) as [[[u|e] w1] t1];
    unfold world_of in Hp; simpl in Hp; [|done].
  destruct (i <? totalPages r).
  - specialize (IH (i + 1) (asleep 1000 w1) Hp).
    by destruct (analyzeAllLoop _ _ _ _ _ _ _) as [[res w3] t3].
  - specialize (IH (i + 1) w1 Hp).
    by destruct (analyzeAllLoop _ _ _ _ _ _ _) as [[res w3] t3].
Qed.

Lemma Consolidated_pagesOf rid w w' t : Consolidated rid w w' t → pagesOf w' = pagesOf w.
Proof.
  intros H. apply Consolidated_sameProgress, sameProgress_sameHeap in H.
  by apply sameHeap_pagesOf.
Qed.

Lemma runOp_mono props u op w j :
  pageDone j (pagesOf w) = true →
  pageDone j (pagesOf (world_of (runOp gemini store extract props u op w))) = true.
Proof.
  intros Hj. destruct op as [page| | |]; unfold runOp.
  - pose proof (analyzePage_mono (render props u w) page w j Hj) as Hp.
    unfold try_catch.
    by destruct (analyzePage _ _ _ _ _ _) as [[[x|e] w1] t1].
  - rewrite analyzeAllPages_eq.
    pose proof (analyzeAllLoop_mono (render props u w) (Z.to_nat (totalPages (render props u w)))
                  1 (withIsAnalyzing true w) j Hj) as Hp.
    by destruct (analyzeAllLoop _ _ _ _ _ _ _) as [[[ok|e] w1] t1].
  - unfold consolidateEffect, bind, gets.
    destruct (0 <? _)%nat; [|done].
    destruct (saveConsolidatedHistory_result store (render props u w) w)
      as (w' & t & -> & Hc).
    unfold world_of. simpl. by rewrite (Consolidated_pagesOf _ _ _ _ Hc).
  - unfold syncSessionStorage.
    by destruct (truthyId _).
Qed.

(** X8: a page that is analysed in the state stays analysed after
    [analyzePage] and [analyzeAllPages] run by the closures of any render,
    also an outdated one, and after any session of operations. *)
Theorem completed_pages_are_kept (props : Props) (u : option User) (ops : list Op)
    (r : Render) (page : Z) (w : World) (j : Z) :
  pageDone j (pagesOf w) = true →
  pageDone j (pagesOf (world_of (analyzePage gemini store extract r page w))) = true ∧
  pageDone j (pagesOf (world_of (analyzeAllPages gemini store extract r w))) = true ∧
  pageDone j (pagesOf (world_of (runOps gemini store extract props u ops w))) = true.
Proof.
  intros Hj. split_and!.
  - by apply analyzePage_mono.
  - rewrite analyzeAllPages_eq.
    pose proof (analyzeAllLoop_mono r (Z.to_nat (totalPages r)) 1
                  (withIsAnalyzing true w) j Hj) as Hp.
    by destruct (analyzeAllLoop _ _ _ _ _ _ _) as [[[ok|e] w1] t1].
  - revert w Hj. induction ops as [|op ops IH]; intros w Hj; [done|].
    simpl. unfold bind.
    pose proof (runOp_mono props u op w j Hj) as Hp.
    destruct (runOp _ _ _ _ _ _ _) as [[[x|e] w1] t1]; [|done].
    specialize (IH w1 Hp).
    by destruct (runOps _ _ _ _ _ _ _) as [[res w2] t2].
Qed.

End BusyFlag.

(** ** Sessions without a signed-in user, and reloads *)

Lemma storeUntouched_refl w : storeUntouched w w [].
Proof. done. Qed.

Lemma storeUntouched_trans w1 w2 w3 t1 t2 :
  storeUntouched w1 w2 t1 → storeUntouched w2 w3 t2 → storeUntouched w1 w3 (t1 ++ t2).
Proof.
  intros (H1 & H2 & H3) (H4 & H5 & H6). split_and!; [|congruence..].
  by rewrite List.filter_app, H1, H4.
Qed.

Lemma filter_isStoreCall_net t : Forall isNetEvent t → List.filter isStoreCall t = [].
Proof.
  induction 1 as [|e t He _ IH]; [done|]. simpl. rewrite IH. by destruct e.
Qed.

Lemma saveConsolidatedHistoryForPage_signed_out store r p a w :
  user r = None → saveConsolidatedHistoryForPage store r p a w = (Normal tt, w, []).
Proof. intros Hu. unfold saveConsolidatedHistoryForPage. by rewrite Hu. Qed.

Lemma saveConsolidatedHistory_signed_out store r w :
  user r = None → saveConsolidatedHistory store r w = (Normal tt, w, []).
Proof. intros Hu. unfold saveConsolidatedHistory. by rewrite Hu. Qed.

Section SignedOut.

Variable gemini : Gemini Parsed.
Variable store : Store.
Variable extract : string → Z → Z → string.

Lemma PageLoop_signed_out r page mr rem attempt delay w res w' t :
  PageLoop gemini store extract r page mr rem attempt delay w (res, w', t) →
  user r = None → storeUntouched w w' t.
Proof.
  intros H. remember (res, w', t) as out eqn:Hout. revert res w' t Hout.
  induction H as [attempt delay w
                 |rem attempt delay w w1 t1 Ha
                 |rem attempt delay w e w1 t1 Ha Hr
                 |rem attempt delay w e w1 t1 res2 w2 t2 Ha Hr Hloop IH];
    intros res w' t [= <- <- <-] Hu.
  - done.
  - apply attempt_normal in Ha
      as [(Hb & -> & ->)|(a & n1 & t0 & w3 & t3 & _ & _ & _ & _ & Hnet & Hsave & _ & -> & ->)].
    + done.
    + rewrite saveConsolidatedHistoryForPage_signed_out in Hsave by done.
      injection Hsave as <- <-. split_and!; [|done..].
      simpl. rewrite List.filter_app, filter_isStoreCall_net by done. done.
  - apply attempt_throw in Ha as (n1 & t0 & _ & _ & _ & Hnet & -> & ->).
    split_and!; [|done..].
    simpl. rewrite List.filter_app, filter_isStoreCall_net by done. done.
  - apply attempt_throw in Ha as (n1 & t0 & _ & _ & _ & Hnet & -> & ->).
    destruct (IH _ _ _ eq_refl Hu) as (H1 & H2 & H3).
    split_and!; [|done..].
    simpl. rewrite List.filter_app, filter_isStoreCall_net by done. done.
Qed.

Lemma analyzePage_signed_out r page w :
  user r = None →
  match analyzePage gemini store extract r page w with
  | (_, w', t) => storeUntouched w w' t
  end.
Proof.
  intros Hu.
  destruct (pageDone page (deref (heap w) (r_pageAnalyses r))) eqn:Hdone.
  - by rewrite analyzePage_eq, Hdone.
  - pose proof (analyzePage_run gemini store extract r page w Hdone) as Hrun.
    destruct (analyzePage gemini store extract r page w) as [[res w'] t].
    by apply PageLoop_signed_out in Hrun.
Qed.

Lemma analyzeAllLoop_signed_out r rem i w :
  user r = None →
  match analyzeAllLoop gemini store extract r rem i w with
  | (_, w', t) => storeUntouched w w' t
  end.
Proof.
  intros Hu. revert i w. induction rem as [|rem IH]; intros i w; [done|].
  rewrite analyzeAllLoop_step.
  destruct (pageDone i (deref (heap w) (r_pageAnalyses r))); [apply IH|].
  pose proof (analyzePage_signed_out r i w Hu) as Hp.
  destruct (analyzePage gemini store extract r i w) as [[[u|e] w1] t1].
  - destruct (i <? totalPages r).
    + specialize (IH (i + 1) (asleep 1000 w1)).
      destruct (analyzeAllLoop _ _ _ _ _ _ _) as [[res w3] t3].
      apply (storeUntouched_trans w w1 w3 t1 (EvSleep 1000 :: t3)); [done|].
      destruct IH as (H1 & H2 & H3). by split_and!.
    + specialize (IH (i + 1) w1).
      destruct (analyzeAllLoop _ _ _ _ _ _ _) as [[res w3] t3].
      by apply (storeUntouched_trans w w1 w3).
  - by apply (storeUntouched_trans w w1 w1 t1 [_]).
Qed.

Lemma runOp_signed_out props op w :
  match runOp gemini store extract props None op w with
  | (_, w', t) => storeUntouched w w' t
  end.
Proof.
  destruct op as [page| | |]; unfold runOp.
  - pose proof (analyzePage_signed_out (render props None w) page w eq_refl) as Hp.
    unfold try_catch.
    destruct (analyzePage _ _ _ _ _ _) as [[[x|e] w1] t1]; [done|].
    simpl. by rewrite app_nil_r.
  - rewrite analyzeAllPages_eq.
    pose proof (analyzeAllLoop_signed_out (render props None w)
                  (Z.to_nat (totalPages (render props None w))) 1
                  (withIsAnalyzing true w) eq_refl) as Hp.
    destruct (analyzeAllLoop _ _ _ _ _ _ _) as [[[ok|e] w1] t1]; [|done].
    apply (storeUntouched_trans w w1 _ t1); [done|].
    split_and!; [|done..]. by destruct (_ && _).
  - unfold consolidateEffect, bind, gets.
    destruct (0 <? _)%nat; [|done].
    by rewrite saveConsolidatedHistory_signed_out.
  - unfold syncSessionStorage.
    by destruct (truthyId _).
Qed.

(** X9: without a signed-in user no session of operations calls the record
    store, and the identifier stays as it was. *)
Theorem signed_out_never_stores (props : Props) (ops : list Op) (w : World) :
  let res := runOps gemini store extract props None ops w in
  List.filter isStoreCall (events res) = [] ∧
  storeCalls (world_of res) = storeCalls w ∧
  studyHistoryId (world_of res) = studyHistoryId w.
Proof.
  revert w. induction ops as [|op ops IH]; intros w; [done|].
  simpl. unfold bind.
  pose proof (runOp_signed_out props op w) as Hp.
  destruct (runOp _ _ _ _ _ _ _) as [[[x|e] w1] t1]; [|done].
  specialize (IH w1).
  destruct (runOps _ _ _ _ _ _ _) as [[res w2] t2].
  by apply (storeUntouched_trans w w1 w2).
Qed.

End SignedOut.

(** X10: when the consolidation of an analysed page creates the record and
    the store returns a non-empty identifier, the identifier becomes the
    state, is written to the session storage under the key of the file, and
    a component mounted later for the same file without an identifier in its
    props starts with it. *)
Theorem created_identifier_survives_reload (store : Store) (r : Render) (page : Z)
    (a : PageAnalysis) (w : World) (newId : string) (props : Props) (n : Net)
    (calls : nat) :
  is_Some (user r) →
  isAnalyzed a = true →
  truthyId (r_studyHistoryId r) = None →
  (store (storeCalls w)).2 = Stored newId →
  Str.truthy newId = true →
  p_file props = file r →
  truthyId (initialStudyHistoryId props) = None →
  let res := saveConsolidatedHistoryForPage store r page a w in
  List.filter isCreate (events res) ≠ [] ∧
  studyHistoryId (world_of res) = Some newId ∧
  sessionStorage (world_of res) !! sessionKey (file r) = Some newId ∧
  studyHistoryId (mount props (sessionStorage (world_of res)) n calls) = Some newId.
Proof.
  intros [usr Hu] Ha Hid Hstore Htruthy Hfile Hprop res.
  assert (Hres : ∃ owner result meta,
    res = (Normal tt,
           withSessionItem (sessionKey (file r)) newId
             (withStudyHistoryId (Some newId)
                (afterStoreCall (store (storeCalls w)).1 w)),
           [EvCreate owner result meta (Stored newId)])).
  { subst res. unfold saveConsolidatedHistoryForPage. rewrite Hu.
    unfold try_catch at 1, bind at 1, gets at 1.
    rewrite analyzedPagesListOf_set by done. rewrite Hid.
    unfold saveStudyHistory, callStore, setStudyHistoryId, sessionStorage_setItem.
    unfold bind, modify. cbv beta. rewrite Hstore. simpl. by eexists _, _, _. }
  destruct Hres as (owner & result & meta & ->).
  unfold events, world_of. simpl. split_and!; try done.
  - by rewrite lookup_insert_eq.
  - unfold initialStudyHistoryIdState. rewrite Hprop, Hfile, lookup_insert_eq.
    simpl. by rewrite Htruthy.
Qed.

(** ** The outcome of one page analysis *)

Section Outcome.

Variable gemini : Gemini Parsed.
Variable store : Store.
Variable extract : string → Z → Z → string.

Lemma PageLoop_throw_store r page mr rem attempt delay w e w' t :
  PageLoop gemini store extract r page mr rem attempt delay w (Throw e, w', t) →
  storeUntouched w w' t.
Proof.
  intros H. remember (Throw e, w', t) as out eqn:Hout. revert e w' t Hout.
  induction H as [attempt delay w
                 |rem attempt delay w w1 t1 Ha
                 |rem attempt delay w e0 w1 t1 Ha Hr
                 |rem attempt delay w e0 w1 t1 res2 w2 t2 Ha Hr Hloop IH];
    intros e' w' t' Heq; try discriminate.
  - injection Heq as -> <- <-.
    apply attempt_throw in Ha as (n1 & t0 & _ & _ & _ & Hnet & -> & ->).
    split_and!; [|done..].
    simpl. rewrite List.filter_app, filter_isStoreCall_net by done. done.
  - injection Heq as -> <- <-.
    apply attempt_throw in Ha as (n1 & t0 & _ & _ & _ & Hnet & -> & ->).
    destruct (IH _ _ _ eq_refl) as (H1 & H2 & H3).
    split_and!; [|done..].
    simpl. rewrite List.filter_app, filter_isStoreCall_net by done. done.
Qed.

(** X11: the trace of [analyzePage] on a page that is not analysed ends
    with a notification and has none before it that completes or fails the
    analysis.  When it returns the last event is the success or the
    blank-page notification and the page is analysed; when it throws the
    last event reports the failure of that page, the progress map and the
    identifier are as before and the record store was not called. *)
Theorem analyzePage_reports_outcome (r : Render) (page : Z) (w : World) :
  pageDone page (deref (heap w) (r_pageAnalyses r)) = false →
  let res := analyzePage gemini store extract r page w in
  ∃ body final,
    events res = body ++ [final] ∧ Forall notCompletion body ∧
    match completion res with
    | Normal _ =>
        isCompletion final ∧ pageDone page (pagesOf (world_of res)) = true
    | Throw _ =>
        (∃ k, final = EvToast toast_error (msgFailed page k)) ∧
        pagesOf (world_of res) = pagesOf w ∧
        List.filter isStoreCall (events res) = [] ∧
        studyHistoryId (world_of res) = studyHistoryId w
    end.
Proof.
  intros Hdone res.
  pose proof (analyzePage_run gemini store extract r page w Hdone) as Hrun.
  fold res in Hrun. destruct res as [[c w'] t].
  assert (Htrace := Hrun). assert (Hprog := Hrun).
  apply PageLoop_trace in Htrace as (body & final & -> & Hbody & Hfinal); [|done|lia].
  apply PageLoop_progress in Hprog; [|done|lia].
  exists body, final. unfold events, completion, world_of. simpl.
  split_and!; try done.
  destruct c as [u|e].
  - split; [done|]. apply pageStored_pagesOf in Hprog as (a & Ha & Hp).
    rewrite Hp. by apply pageDone_set.
  - apply PageLoop_throw_store in Hrun as (H1 & _ & H3).
    split_and!; try done. by rewrite (sameHeap_pagesOf _ _ Hprog).
Qed.

End Outcome.

Section StoredAnswer.

Variable gemini : Gemini Parsed.
Variable store : Store.
Variable extract : string → Z → Z → string.

(** X12: after [analyzePage] returned for a page, the page is analysed and
    [analyzePage] for it, run by the closures of any later render, does
    nothing. *)
Theorem analyzePage_once (r : Render) (page : Z) (w : World) :
  let res := analyzePage gemini store extract r page w in
  completion res = Normal tt →
  pageDone page (deref (heap w) (r_pageAnalyses r)) = false →
  pageDone page (pagesOf (world_of res)) = true ∧
  ∀ props u,
    analyzePage gemini store extract (render props u (world_of res)) page (world_of res)
    = (Normal tt, world_of res, []).
Proof.
  intros res Hres Hdone.
  pose proof (analyzePage_run gemini store extract r page w Hdone) as Hrun.
  fold res in Hrun. destruct res as [[c w'] t]. unfold completion in Hres.
  simpl in Hres. subst c.
  apply PageLoop_progress in Hrun; [|done|lia].
  apply pageStored_pagesOf in Hrun as (a & Ha & Hp).
  unfold world_of. simpl.
  assert (Hd : pageDone page (pagesOf w') = true) by (rewrite Hp; by apply pageDone_set).
  split; [done|]. intros props u. rewrite analyzePage_eq. simpl.
  fold (pagesOf w'). by rewrite Hd.
Qed.

(** X13: when the client answers at once, [analyzePage] stores the answer
    with the [isAnalyzed] mark under the page number, leaves the entries of
    the other pages alone, makes one client call and no retry. *)
Theorem analyzePage_stores_answer (r : Render) (page : Z) (w : World)
    (a : PageAnalysis) (n1 : Net) (t1 : list Event) :
  pageDone page (deref (heap w) (r_pageAnalyses r)) = false →
  Str.trim (extract (fullText r) page page) ≠ "" →
  analyzeIndividualPage gemini (extract (fullText r) page page) page
    (outputLanguage r) (net w) = (Normal a, n1, t1) →
  let res := analyzePage gemini store extract r page w in
  completion res = Normal tt ∧
  Map_get page (pagesOf (world_of res)) = Some (markAnalyzed a) ∧
  pageNumber a = page ∧
  (∀ j, j ≠ page → Map_get j (pagesOf (world_of res)) = Map_get j (pagesOf w)) ∧
  analyzeCalls (events res) = [(clock (net w), page, None)] ∧
  retryDelays (events res) = [].
Proof.
  intros Hdone Hne Hcall res.
  destruct (saveConsolidatedHistoryForPage_result store r page (markAnalyzed a)
              (withPage page (markAnalyzed a) (set_net n1 (withIsAnalyzing true w))))
    as (w3 & t3 & Hsave & Hcons).
  assert (Hres : res =
    (Normal tt, withIsAnalyzing false w3,
     EvAnalyze (clock (net w)) page (extract (fullText r) page page) None
       :: t1 ++ t3 ++ [EvToast toast_success (msgAnalyzed page)])).
  { subst res. rewrite analyzePage_eq, Hdone, analyzePageLoop_step.
    unfold analyzePageAttempt.
    destruct (Str.truthy (Str.trim (extract (fullText r) page page))) eqn:Hb;
      [|by apply truthy_false in Hb].
    simpl. unfold bind at 1, callAnalyzeIndividualPage, liftNet. simpl.
    rewrite Hcall.
    unfold bind at 1, setPageAnalyses at 1, modify at 1.
    unfold bind at 1. cbv iota beta.
    rewrite Hsave. unfold bind, emit, setIsAnalyzing, modify. simpl. done. }
  pose proof (analyzeIndividualPage_net gemini (extract (fullText r) page page)
                page (outputLanguage r) (net w)) as Hn.
  rewrite Hcall in Hn. destruct Hn as (_ & Hnet & Hpn).
  pose proof (Consolidated_pagesOf _ _ _ _ Hcons) as Hp.
  pose proof (Consolidated_persist _ _ _ _ Hcons) as Hpers.
  rewrite Hres. unfold completion, events, world_of. simpl.
  change (pagesOf (withIsAnalyzing false w3)) with (pagesOf w3).
  rewrite Hp, withPage_pagesOf.
  change (pagesOf (set_net n1 (withIsAnalyzing true w))) with (pagesOf w).
  split_and!; try done.
  - apply Map_get_set_eq.
  - intros j Hj. by apply Map_get_set_ne.
  - change (EvAnalyze ?a ?b ?c ?d :: ?l) with ([EvAnalyze a b c d] ++ l).
    rewrite !analyzeCalls_app, (analyzeCalls_net t1), (analyzeCalls_persist t3) by done.
    done.
  - rewrite retryDelays_quiet by by apply noInfo_net.
    rewrite retryDelays_quiet by by apply noInfo_persist. done.
Qed.

End StoredAnswer.

(** ** The page map sent to the record store *)

Lemma Map_get_None k m : k ∉ Map_keys m → Map_get k m = None.
Proof.
  induction m as [|[k' v] m IH]; simpl; [done|].
  intros Hk. apply not_elem_of_cons in Hk as [Hne Hk].
  destruct (Z.eqb_spec k k'); [done|]. by apply IH.
Qed.

Lemma Map_get_of_elem k a m : NoDup (Map_keys m) → (k, a) ∈ m → Map_get k m = Some a.
Proof.
  induction m as [|[k' v] m IH]; simpl; [by intros _ ?%elem_of_nil|].
  intros [Hk' Hnd]%NoDup_cons [[= <- <-]|Hin]%elem_of_cons.
  - by rewrite Z.eqb_refl.
  - destruct (Z.eqb_spec k k') as [->|Hne]; [|by apply IH].
    exfalso. apply Hk'. unfold Map_keys. by apply (list_elem_of_fmap_2 fst _ (k', a)).
Qed.

Lemma forFirestore_from k (m : JSMap) (acc : gmap string PageAnalysis) :
  NoDup (Map_keys m) →
  fold_left (λ acc kv, if isAnalyzed kv.2 then <[pretty kv.1 := kv.2]> acc else acc) m acc
    !! pretty k
  = match Map_get k m ≫= analysedOnly with
    | Some a => Some a
    | None => acc !! pretty k
    end.
Proof.
  revert acc. induction m as [|[k' v] m IH]; intros acc Hnd; simpl; [done|].
  apply NoDup_cons in Hnd as [Hk' Hnd]. rewrite IH by done.
  destruct (Z.eqb_spec k k') as [->|Hne].
  - rewrite (Map_get_None k' m) by done. simpl. unfold analysedOnly.
    destruct (isAnalyzed v); [|done]. by rewrite lookup_insert_eq.
  - destruct (Map_get k m ≫= analysedOnly); [done|].
    destruct (isAnalyzed v); [|done].
    rewrite lookup_insert_ne; [done|]. intros Heq. by apply (inj pretty) in Heq.
Qed.

Lemma forFirestore_keys s a (m : JSMap) (acc : gmap string PageAnalysis) :
  fold_left (λ acc kv, if isAnalyzed kv.2 then <[pretty kv.1 := kv.2]> acc else acc) m acc
    !! s = Some a →
  acc !! s = Some a ∨ ∃ k, s = pretty k ∧ (k, a) ∈ m ∧ isAnalyzed a = true.
Proof.
  revert acc. induction m as [|[k' v] m IH]; intros acc; simpl; [by left|].
  intros H. apply IH in H as [H|(k & -> & Hin & Ha)].
  - destruct (isAnalyzed v) eqn:Hv; [|by left].
    destruct (decide (s = pretty k')) as [->|Hne].
    + rewrite lookup_insert_eq in H. injection H as ->. right. exists k'.
      split_and!; [done|left|done].
    + rewrite lookup_insert_ne in H by done. by left.
  - right. exists k. split_and!; [done|by right|done].
Qed.

(** X14: the object built for the record store has, under the decimal
    page number, exactly the pages of the progress map that are analysed,
    and no other property. *)
Theorem pageAnalysesMapForFirestore_lookup (m : JSMap) :
  NoDup (Map_keys m) →
  (∀ k, pageAnalysesMapForFirestore m !! pretty k = Map_get k m ≫= analysedOnly) ∧
  (∀ s a, pageAnalysesMapForFirestore m !! s = Some a →
          ∃ k, s = pretty k ∧ Map_get k m = Some a ∧ isAnalyzed a = true).
Proof.
  intros Hnd. split.
  - intros k. unfold pageAnalysesMapForFirestore. rewrite forFirestore_from by done.
    rewrite lookup_empty. by destruct (Map_get k m ≫= analysedOnly).
  - intros s a H. unfold pageAnalysesMapForFirestore in H.
    apply forFirestore_keys in H as [H|(k & -> & Hin & Ha)]; [by rewrite lookup_empty in H|].
    exists k. split_and!; try done. by apply Map_get_of_elem.
Qed.

(** ** The current page and the quiz range *)

Lemma sortNumbers_last l k :
  last (sortNumbers l) = Some k → k ∈ l ∧ ∀ j, j ∈ l → j ≤ k.
Proof.
  unfold sortNumbers. intros Hlast.
  assert (Hs : StronglySorted Z.le (merge_sort Z.le l)).
  { apply StronglySorted_merge_sort; apply _. }
  apply last_Some in Hlast as [l' Hl'].
  assert (Hperm : merge_sort Z.le l ≡ₚ l) by apply merge_sort_Permutation.
  split.
  - rewrite <- Hperm, Hl'. apply elem_of_app. right. apply list_elem_of_singleton. done.
  - intros j Hj. rewrite <- Hperm, Hl' in Hj. rewrite Hl' in Hs.
    apply elem_of_app in Hj as [Hj|Hj%list_elem_of_singleton]; [|lia].
    eapply StronglySorted_app_1_elem_of; [exact Hs|exact Hj|]. by apply list_elem_of_singleton.
Qed.

Lemma sortNumbers_nonempty l : l ≠ [] → is_Some (last (sortNumbers l)).
Proof.
  intros Hne. apply last_is_Some. intros Hnil. apply Hne.
  apply Permutation_nil_r. rewrite <- Hnil. unfold sortNumbers.
  by rewrite merge_sort_Permutation.
Qed.

(** X15: with initial analyses the navigator opens on the page after their
    largest key, or on the last page when there is none after it; without
    them it opens on page 1.  With non-negative keys and a document of at
    least one page the page it opens on is a page of the document. *)
Theorem initialCurrentPage_resumes (props : Props) :
  match initialPageAnalyses props with
  | Some ((k0, a0) :: m) =>
      ∃ k, k ∈ Map_keys ((k0, a0) :: m) ∧
           (∀ j, j ∈ Map_keys ((k0, a0) :: m) → j ≤ k) ∧
           initialCurrentPage props = Z.min (k + 1) (p_totalPages props) ∧
           (0 ≤ k → 1 ≤ p_totalPages props →
            1 ≤ initialCurrentPage props ≤ p_totalPages props)
  | _ => initialCurrentPage props = 1
  end.
Proof.
  unfold initialCurrentPage.
  destruct (initialPageAnalyses props) as [[|[k0 a0] m]|]; [done| |done].
  change (0 <? length ((k0, a0) :: m))%nat with true. cbv iota zeta.
  destruct (sortNumbers_nonempty (Map_keys ((k0, a0) :: m))) as [k Hk]; [done|].
  rewrite Hk. apply sortNumbers_last in Hk as [Hin Hmax]. exists k.
  split_and!; try done. lia.
Qed.

Section NavigationFacts.

Variable gemini : Gemini Parsed.
Variable store : Store.
Variable extract : string → Z → Z → string.

Lemma startAnalysis_result nr page s :
  ∃ w' t,
    startAnalysis gemini store extract nr page s
    = (Normal tt, {| nav_world := w'; currentPage := currentPage s |}, t) ∧
    w' = world_of (analyzePage gemini store extract (nr_closures nr) page (nav_world s)) ∧
    t = events (analyzePage gemini store extract (nr_closures nr) page (nav_world s)).
Proof.
  unfold startAnalysis, liftWorld, try_catch.
  destruct (analyzePage _ _ _ _ _ _) as [[[[]|e] w1] t1]; eexists _, _;
    (split; [reflexivity|]); unfold world_of, events; simpl; split; try done.
  by rewrite app_nil_r.
Qed.

Lemma navigateToPage_result nr page s :
  ∃ s' t,
    navigateToPage gemini store extract nr page s = (Normal tt, s', t) ∧
    if (1 <=? page) && (page <=? totalPages (nr_closures nr))
    then currentPage s' = page
    else s' = s ∧ t = [].
Proof.
  unfold navigateToPage.
  destruct ((1 <=? page) && (page <=? totalPages (nr_closures nr))); [|by eexists _, _].
  unfold bind at 1, setCurrentPage, modify. unfold bind, gets. cbv beta iota.
  destruct (negb _).
  - destruct (startAnalysis_result nr page
                {| nav_world := nav_world s; currentPage := page |})
      as (w' & t & -> & _). by eexists _, _.
  - by eexists _, _.
Qed.

Lemma runNavOp_range props u op s :
  1 ≤ currentPage s ≤ p_totalPages props →
  ∃ s' t,
    runNavOp gemini store extract props u op s = (Normal tt, s', t) ∧
    1 ≤ currentPage s' ≤ p_totalPages props.
Proof.
  intros Hrange.
  destruct op as [| |parsed| | | | |]; unfold runNavOp; cbv zeta.
  - destruct (_ || _); [by eexists _, _|].
    destruct (navigateToPage_result (renderNav props u s)
                (nr_currentPage (renderNav props u s) - 1) s) as (s' & t & -> & H).
    exists s', t. split; [done|].
    destruct ((1 <=? _) && _) eqn:Hin; [|by destruct H as [-> _]].
    apply andb_prop in Hin as [H1 H2]. simpl in *. lia.
  - destruct (_ || _); [by eexists _, _|].
    destruct (navigateToPage_result (renderNav props u s)
                (nr_currentPage (renderNav props u s) + 1) s) as (s' & t & -> & H).
    exists s', t. split; [done|].
    destruct ((1 <=? _) && _) eqn:Hin; [|by destruct H as [-> _]].
    apply andb_prop in Hin as [H1 H2]. simpl in *. lia.
  - destruct (navigateToPage_result (renderNav props u s) (orElse parsed 1) s)
      as (s' & t & -> & H).
    exists s', t. split; [done|].
    destruct ((1 <=? _) && _) eqn:Hin; [|by destruct H as [-> _]].
    apply andb_prop in Hin as [H1 H2]. simpl in *. lia.
  - destruct (_ || _); [by eexists _, _|].
    destruct (startAnalysis_result (renderNav props u s)
                (nr_currentPage (renderNav props u s)) s) as (w' & t & -> & _).
    by eexists _, _.
  - destruct (nr_isAnalyzing _); [by eexists _, _|].
    unfold liftWorld. rewrite analyzeAllPages_eq.
    destruct (analyzeAllLoop_normal gemini store extract
                (nr_closures (renderNav props u s))
                (Z.to_nat (totalPages (nr_closures (renderNav props u s)))) 1
                (withIsAnalyzing true (nav_world s))) as [ok Hok].
    destruct (analyzeAllLoop _ _ _ _ _ _ _) as [[[ok'|e] w1] t1]; [|done].
    by eexists _, _.
  - unfold analyzeOnLoad, bind, gets. cbv beta iota.
    destruct (negb _); [|by eexists _, _].
    destruct (startAnalysis_result (renderNav props u s)
                (nr_currentPage (renderNav props u s)) s) as (w' & t & -> & _).
    by eexists _, _.
  - unfold liftWorld, consolidateEffect, bind, gets.
    destruct (0 <? _)%nat; [|by eexists _, _].
    destruct (saveConsolidatedHistory_result store
                (nr_closures (renderNav props u s)) (nav_world s))
      as (w' & t & -> & _).
    by eexists _, _.
  - unfold liftWorld, syncSessionStorage.
    destruct (truthyId _); by eexists _, _.
Qed.

(** X16: whatever the user does on the navigator (previous, next, jump to
    any number, analyse the page, analyse all) and whichever effects run, no
    handler throws and the current page stays between 1 and the number of
    pages. *)
Theorem current_page_stays_in_range (props : Props) (u : option User)
    (ops : list NavOp) (s : Nav) :
  1 ≤ currentPage s ≤ p_totalPages props →
  let res := runNavOps gemini store extract props u ops s in
  completion res = Normal tt ∧
  1 ≤ currentPage (world_of res) ≤ p_totalPages props.
Proof.
  revert s. induction ops as [|op ops IH]; intros s Hrange; [done|].
  simpl. unfold bind.
  destruct (runNavOp_range props u op s Hrange) as (s' & t & -> & Hs').
  specialize (IH s' Hs'). simpl in IH.
  by destruct (runNavOps _ _ _ _ _ _ _) as [[res s2] t2].
Qed.

End NavigationFacts.

(** The quiz range. *)

Lemma editQuizPanel_range total q e :
  1 ≤ total →
  1 ≤ quizStartPage q ≤ total → 1 ≤ quizEndPage q ≤ total →
  1 ≤ quizStartPage (editQuizPanel total q e) ≤ total ∧
  1 ≤ quizEndPage (editQuizPanel total q e) ≤ total.
Proof. intros Ht Hs He. destruct e; simpl; lia. Qed.

(** X17: for a document of at least one page, after any sequence of edits
    of the quiz card both ends of the range are between 1 and the number of
    pages, at least 5 questions are announced, and an edit of the end never
    puts it before the start. *)
Theorem quiz_range_stays_in_document (total : Z) (edits : list QuizEdit) :
  1 ≤ total →
  let q := fold_left (editQuizPanel total) edits (initialQuizPanel total) in
  1 ≤ quizStartPage q ≤ total ∧
  1 ≤ quizEndPage q ≤ total ∧
  5 ≤ announcedQuestions q ∧
  (∀ parsed, quizStartPage q ≤ quizEndPage (editQuizPanel total q (EditEnd parsed))).
Proof.
  intros Ht q.
  assert (H : 1 ≤ quizStartPage q ≤ total ∧ 1 ≤ quizEndPage q ≤ total).
  { subst q.
    assert (Hinit : 1 ≤ quizStartPage (initialQuizPanel total) ≤ total ∧
                    1 ≤ quizEndPage (initialQuizPanel total) ≤ total) by (simpl; lia).
    revert Hinit. generalize (initialQuizPanel total).
    induction edits as [|e edits IH]; intros q0 [H1 H2]; [done|].
    simpl. apply IH. by apply editQuizPanel_range. }
  split_and!; try tauto.
  - unfold announcedQuestions. lia.
  - intros parsed. simpl. lia.
Qed.

(** X18: the quiz card of the navigator and [PageRangeQuizSelector] pass
    the same range and difficulty to their callbacks after the same edits. *)
Theorem selector_agrees_with_quiz_panel (total : Z) (edits : list QuizEdit) :
  handleGenerateQuiz (fold_left (editSelector total) edits (initialSelector total))
  = handleStartQuiz (fold_left (editQuizPanel total) edits (initialQuizPanel total)).
Proof.
  assert (H : ∀ s q, handleGenerateQuiz s = handleStartQuiz q →
              handleGenerateQuiz (fold_left (editSelector total) edits s)
              = handleStartQuiz (fold_left (editQuizPanel total) edits q)).
  { induction edits as [|e edits IH]; intros s q Hsq; [done|].
    simpl. apply IH. unfold handleGenerateQuiz, handleStartQuiz in *.
    injection Hsq as H1 H2 H3.
    destruct e; simpl; rewrite ?H1, ?H2, ?H3; try done.
    - by rewrite Z.min_comm.
    - by rewrite (Z.min_comm total). }
  by apply H.
Qed.

(** ** The sanitiser of the question records *)

Section QuizMoreFacts.

Import Quiz.

Lemma setField_same name v o : getField name o = Some v → setField name v o = o.
Proof.
  induction o as [|[k v'] o IH]; simpl; [done|].
  destruct (String.eqb name k) eqn:E.
  - by intros [= ->].
  - intros H. by rewrite IH.
Qed.

Lemma formatQuestion_valid fields :
  wellFormed fields = true → formatQuestion (JObj fields) = Normal fields.
Proof.
  unfold wellFormed, hasFourOptions, hasAnswerTag, hasKnownType.
  intros H. repeat (apply andb_true_iff in H as [H ?]).
  unfold formatQuestion. simpl.
  destruct (getField "type" fields) as [[| | |s| |]|] eqn:Ety; try done.
  destruct (getField "options" fields) as [[| | | |items|]|] eqn:Eop; try done.
  destruct (getField "answer" fields) as [[| | |tag| |]|] eqn:Ean; try done.
  destruct (getField "explanation" fields) as [v|] eqn:Eex; [|done].
  match goal with Hs : (_ || _) = true |- _ => rewrite Hs end.
  match goal with Hs : (_ =? 4)%nat = true |- _ => rewrite Hs end.
  match goal with Hs : isTag tag = true |- _ => rewrite Hs end.
  match goal with Hs : truthy (Some v) = true |- _ => rewrite Hs end.
  rewrite (setField_same "type") by done.
  rewrite (setField_same "options") by done.
  rewrite (setField_same "answer") by done.
  by rewrite (setField_same "explanation").
Qed.

Lemma formatQuestion_other_fields q o name :
  name ∉ sanitised → formatQuestion q = Normal o →
  getField name o = getField name (spread q).
Proof.
  unfold sanitised. intros Hname.
  assert (H1 : name ≠ "type") by (intros ->; apply Hname; set_solver).
  assert (H2 : name ≠ "options") by (intros ->; apply Hname; set_solver).
  assert (H3 : name ≠ "answer") by (intros ->; apply Hname; set_solver).
  assert (H4 : name ≠ "explanation") by (intros ->; apply Hname; set_solver).
  unfold formatQuestion.
  destruct (prop "type" q) as [ty|] eqn:Ety; [|done].
  destruct (prop "options" q) as [op|] eqn:Eop; [|by destruct q].
  destruct (prop "answer" q) as [an|] eqn:Ean; [|by destruct q].
  destruct (prop "explanation" q) as [ex|] eqn:Eex; [|by destruct q].
  intros [= <-]. by rewrite !getField_setField_ne.
Qed.

(** X19: a record that the sanitiser returns is returned unchanged when
    sanitised again; the properties other than type, options, answer and
    explanation are those of the record of the model; a record of the model
    that is an object and well formed is returned as it is. *)
Theorem sanitiser_keeps_valid_records (q : JSON) (o : Obj) :
  formatQuestion q = Normal o →
  formatQuestion (JObj o) = Normal o ∧
  (∀ name, name ∉ sanitised → getField name o = getField name (spread q)) ∧
  (∀ fields, q = JObj fields → wellFormed fields = true → o = fields).
Proof.
  intros H. split_and!.
  - apply formatQuestion_valid. by eapply formatQuestion_wellFormed.
  - intros name Hname. by eapply formatQuestion_other_fields.
  - intros fields -> Hwf. rewrite formatQuestion_valid in H by done. by injection H.
Qed.

Lemma formatAll_null items :
  existsb isNull items = true → ∃ e, formatAll items = Throw e.
Proof.
  induction items as [|q items IH]; simpl; [done|].
  intros H. destruct (formatQuestion q) as [o|e] eqn:Hq; [|by eexists].
  destruct q; try done; simpl in H; destruct (IH H) as [e ->]; by eexists.
Qed.

Lemma formatAll_no_null items :
  existsb isNull items = false →
  ∃ out, formatAll items = Normal out ∧
         Forall2 (λ q o, formatQuestion q = Normal o) items out.
Proof.
  induction items as [|q items IH]; simpl; [by eexists|].
  intros H. apply orb_false_iff in H as [Hq Hrest].
  destruct (IH Hrest) as (out & Hout & Hall).
  assert (Hf : ∃ o, formatQuestion q = Normal o).
  { destruct q; try done; unfold formatQuestion; simpl; by eexists. }
  destruct Hf as [o Ho]. rewrite Ho, Hout. exists (o :: out). split; [done|].
  by constructor.
Qed.

(** X20: [generateQuestions] throws what the helper throws; once the
    helper returned it makes no further model call, returns when the answer
    is an array without [null] entries, with one sanitised record per entry
    in the order of the answer, and throws for every other answer. *)
Theorem generateQuestions_outcome (gemini : Gemini JSON)
    (results : list AnalysisResult) (difficulty : string) (lang : Language)
    (n : Net) :
  let res := generateQuestions gemini results difficulty lang n in
  match generateContentWithRetry gemini (questionPrompt results difficulty lang)
          defaultMaxOutputTokens 3 n with
  | (Throw e, n1, t1) => res = (Throw e, n1, t1)
  | (Normal parsed, n1, t1) =>
      world_of res = n1 ∧ events res = t1 ∧
      match parsed with
      | JArr items =>
          if existsb isNull items
          then ∃ e, completion res = Throw e
          else ∃ out, completion res = Normal out ∧
                      Forall2 (λ q o, formatQuestion q = Normal o) items (questions out) ∧
                      totalQuestions out = length items ∧
                      qr_keyPoints out = flat_map ar_keyPoints results
      | _ => ∃ e, completion res = Throw e
      end
  end.
Proof.
  intros res. subst res. unfold generateQuestions, bind.
  destruct (generateContentWithRetry _ _ _ _ n) as [[[parsed|e] n1] t1]; [|done].
  destruct parsed as [| | | |items|]; unfold world_of, events, completion; simpl;
    try (split_and!; [done|by rewrite ?app_nil_r|by eexists]).
  unfold complete.
  destruct (existsb isNull items) eqn:Hnull.
  - destruct (formatAll_null items Hnull) as [e ->]. simpl.
    split_and!; [done|by rewrite app_nil_r|by eexists].
  - destruct (formatAll_no_null items Hnull) as (out & -> & Hall). simpl.
    split_and!; [done|by rewrite !app_nil_r|].
    eexists. split; [done|]. simpl. split_and!; try done.
    by apply Forall2_length in Hall.
Qed.

End QuizMoreFacts.

(** ** Page markers *)

Section OcrFacts.
Import Ocr OcrText.

Lemma stripPrefix_app p s : stripPrefix p (p +:+ s) = Some s.
Proof.
  induction p as [|a p IH]; [done|].
  rewrite append_cons. simpl. by rewrite Ascii.eqb_refl.
Qed.

Lemma takeDigits_number d rest :
  allChars isDigit d = true →
  takeDigits (d +:+ "==" +:+ rest) = (d, "==" +:+ rest).
Proof.
  induction d as [|c d IH]; [done|].
  rewrite append_cons. simpl.
  intros [Hc Hd]%andb_prop. rewrite Hc, IH by done. done.
Qed.

Lemma stripPrefix_equals_first p c s :
  Ascii.eqb c "=" = false → stripPrefix (String "=" p) (String c s) = None.
Proof. intros H. cbn [stripPrefix]. rewrite Ascii.eqb_sym. by rewrite H. Qed.

Lemma endMarker_cons d : ∃ p, endMarker d = String "=" p.
Proof. by eexists. Qed.

Lemma splitAtFirst_here needle rest :
  splitAtFirst needle (needle +:+ rest) = Some ("", rest).
Proof.
  destruct (needle +:+ rest) eqn:E; simpl; rewrite <- E, stripPrefix_app; done.
Qed.

Lemma splitAtFirst_content d content rest :
  noEquals content = true →
  splitAtFirst (endMarker d) (content +:+ endMarker d +:+ rest) = Some (content, rest).
Proof.
  induction content as [|c content IH]; intros Hc.
  - rewrite append_empty. apply splitAtFirst_here.
  - simpl in Hc. apply andb_prop in Hc as [Hc Hrest].
    apply negb_true_iff in Hc.
    rewrite append_cons. cbn [splitAtFirst].
    destruct (endMarker_cons d) as [p Hp]. rewrite Hp at 1.
    rewrite stripPrefix_equals_first by done.
    by rewrite IH.
Qed.

Lemma matchAt_block p rest :
  isNumber p.1 = true → noEquals p.2 = true →
  matchAt (block p +:+ rest) = Some (p.1, p.2, rest).
Proof.
  destruct p as [d content]. cbn [fst snd]. intros [Hd Hne]%andb_prop Hc.
  unfold matchAt, block. cbn [fst snd].
  rewrite !string_app_assoc, stripPrefix_app.
  rewrite takeDigits_number by done.
  destruct d as [|c d]; [done|].
  rewrite (stripPrefix_app "==").
  by rewrite splitAtFirst_content.
Qed.

Lemma matchAt_other c s :
  Ascii.eqb c "=" = false → matchAt (String c s) = None.
Proof.
  intros H. unfold matchAt, startMarker.
  by rewrite stripPrefix_equals_first.
Qed.

Lemma length_append (s t : string) :
  String.length (s +:+ t) = (String.length s + String.length t)%nat.
Proof. induction s as [|c s IH]; [done|]. rewrite append_cons. simpl. by rewrite IH. Qed.

Lemma scan_skip fuel before s :
  noEquals before = true →
  (String.length before + String.length s < fuel)%nat →
  ∃ fuel', (String.length s < fuel')%nat ∧ scan fuel (before +:+ s) = scan fuel' s.
Proof.
  revert fuel. induction before as [|c before IH]; intros fuel Hb Hfuel.
  - exists fuel. simpl in Hfuel. by split; [lia|].
  - simpl in Hb. apply andb_prop in Hb as [Hc Hb]. apply negb_true_iff in Hc.
    destruct fuel as [|fuel]; [simpl in Hfuel; lia|].
    rewrite append_cons. cbn [scan]. rewrite matchAt_other by done.
    apply IH; [done|]. simpl in Hfuel. lia.
Qed.

Lemma block_length p : (0 < String.length (block p))%nat.
Proof. unfold block, startMarker. rewrite append_cons. simpl. lia. Qed.

Lemma scan_document fuel pages tail :
  Forall (λ bp, noEquals bp.1 = true ∧ isNumber bp.2.1 = true ∧ noEquals bp.2.2 = true)
    pages →
  noEquals tail = true →
  (String.length (document pages tail) < fuel)%nat →
  scan fuel (document pages tail) = map snd pages.
Proof.
  intros Hpages Htail. revert fuel.
  induction Hpages as [|[before p] pages (Hb & Hd & Hc) _ IH]; intros fuel Hfuel.
  - simpl in *.
    destruct (scan_skip fuel tail "" Htail) as (fuel' & Hf' & Hscan).
    { simpl. lia. }
    assert (Ht : tail +:+ "" = tail).
    { clear. induction tail as [|c t IH]; [done|]. rewrite append_cons. by f_equal. }
    rewrite Ht in Hscan. rewrite Hscan. by destruct fuel'.
  - simpl in *. rewrite !length_append in Hfuel.
    destruct (scan_skip fuel before (block p +:+ document pages tail) Hb)
      as (fuel' & Hf' & ->).
    { rewrite length_append. lia. }
    rewrite length_append in Hf'.
    destruct fuel' as [|fuel']; [lia|].
    cbn [scan]. rewrite matchAt_block by done.
    destruct p as [d content]. simpl. f_equal. apply IH.
    pose proof (block_length (d, content)). lia.
Qed.

(** X21: in a text where pages are written between their start and end
    markers, each with a number of decimal digits, and neither the page texts
    nor the text around the pages contain the character [=],
    [matchAll] finds exactly these pages, in order, with their numbers and
    texts. *)
Theorem matchAll_reads_pages (pages : list (string * (string * string)))
    (tail : string) :
  Forall (λ bp, noEquals bp.1 = true ∧ isNumber bp.2.1 = true ∧ noEquals bp.2.2 = true)
    pages →
  noEquals tail = true →
  matchAll (document pages tail) = map snd pages.
Proof.
  intros Hpages Htail. unfold matchAll. apply scan_document; [done|done|lia].
Qed.

End OcrFacts.

(** ** The comprehensive analysis *)

Lemma existsb_eqb_elem x (seen : list string) :
  existsb (String.eqb x) seen = true ↔ x ∈ seen.
Proof.
  induction seen as [|y seen IH]; simpl.
  - split; [done|by intros ?%elem_of_nil].
  - rewrite orb_true_iff, IH, elem_of_cons, String.eqb_eq. done.
Qed.

Lemma uniqueFrom_elem seen xs x :
  x ∈ uniqueFrom seen xs ↔ x ∈ xs ∧ x ∉ seen.
Proof.
  revert seen. induction xs as [|y xs IH]; intros seen; simpl.
  - split; [by intros ?%elem_of_nil|by intros [?%elem_of_nil _]].
  - destruct (existsb (String.eqb y) seen) eqn:E.
    + apply existsb_eqb_elem in E. rewrite IH, elem_of_cons. split.
      * intros [? ?]. by split; [right|].
      * intros [[->|?] ?]; [done|by split].
    + assert (Hy : y ∉ seen).
      { intros Hin. apply existsb_eqb_elem in Hin. congruence. }
      rewrite !elem_of_cons, IH, not_elem_of_cons. split.
      * intros [->|(? & ? & ?)]; [by split; [left|]|by split; [right|]].
      * intros [[->|?] ?]; [by left|].
        destruct (decide (x = y)) as [->|Hne]; [by left|right; by split_and!].
Qed.

Lemma uniqueFrom_NoDup seen xs : NoDup (uniqueFrom seen xs).
Proof.
  revert seen. induction xs as [|y xs IH]; intros seen; simpl; [constructor|].
  destruct (existsb (String.eqb y) seen); [apply IH|].
  constructor; [|apply IH]. rewrite uniqueFrom_elem, not_elem_of_cons. tauto.
Qed.

Section ComprehensiveFacts.

Variable models : nat → Gemini Parsed.
Variable lang : Language.

Lemma analyzeBatch_app i l1 l2 :
  analyzeBatch models lang i (l1 ++ l2)
  = analyzeBatch models lang i l1 ++ analyzeBatch models lang (i + length l1) l2.
Proof.
  revert i. induction l1 as [|m l1 IH]; intros i; simpl.
  - by rewrite Nat.add_0_r.
  - rewrite IH. do 3 f_equal. lia.
Qed.

Lemma batchLoop_unbatched rem i ms acc :
  (length ms ≤ rem + i)%nat →
  batchLoop models lang rem i ms acc
  = acc ++ omap id (analyzeBatch models lang i (drop i ms)).
Proof.
  revert i acc. induction rem as [|rem IH]; intros i acc Hfuel; simpl.
  - rewrite drop_ge by lia. simpl. by rewrite app_nil_r.
  - destruct (Nat.ltb_spec i (length ms)) as [Hlt|Hge].
    + rewrite IH by (unfold BATCH_SIZE; lia).
      rewrite <- app_assoc. f_equal.
      rewrite <- (take_drop BATCH_SIZE (drop i ms)) at 2.
      rewrite analyzeBatch_app, omap_app, drop_drop. f_equal.
      destruct (decide (i + BATCH_SIZE ≤ length ms)%nat) as [Hfull|Hshort].
      * rewrite length_take, length_drop.
        replace (BATCH_SIZE `min` (length ms - i))%nat with BATCH_SIZE
          by (unfold BATCH_SIZE in *; lia).
        done.
      * rewrite !(drop_ge ms (i + BATCH_SIZE)) by lia. done.
    + rewrite drop_ge by lia. simpl. by rewrite app_nil_r.
Qed.

Lemma analyzeBatch_lookup i ms k a :
  omap id (analyzeBatch models lang i ms) !! k = Some a →
  ∃ j m, ms !! j = Some m ∧ analyzeMatch models lang (i + j) m = Some a.
Proof.
  revert i k. induction ms as [|m ms IH]; intros i k; simpl; [done|].
  destruct (analyzeMatch models lang i m) as [a'|] eqn:Hm; simpl.
  - destruct k as [|k]; simpl.
    + intros [= ->]. exists 0%nat, m. by rewrite Nat.add_0_r.
    + intros H. apply IH in H as (j & m' & Hj & Ha). exists (S j), m'.
      split; [done|]. by replace (i + S j)%nat with (S i + j)%nat by lia.
  - intros H. apply IH in H as (j & m' & Hj & Ha). exists (S j), m'.
    split; [done|]. by replace (i + S j)%nat with (S i + j)%nat by lia.
Qed.

Lemma analyzeBatch_elem i ms j m a :
  ms !! j = Some m → analyzeMatch models lang (i + j) m = Some a →
  a ∈ omap id (analyzeBatch models lang i ms).
Proof.
  revert i j. induction ms as [|m' ms IH]; intros i j; simpl; [done|].
  destruct j as [|j]; simpl.
  - intros [= ->]. rewrite Nat.add_0_r. intros ->. simpl. left.
  - intros Hj Ha.
    assert (Hin : a ∈ omap id (analyzeBatch models lang (S i) ms)).
    { apply (IH (S i) j); [done|]. by replace (S i + j)%nat with (i + S j)%nat by lia. }
    destruct (analyzeMatch models lang i m'); simpl; [by right|done].
Qed.

Lemma analyzeBatch_pages i ms :
  map pageNumber (omap id (analyzeBatch models lang i ms))
  `sublist_of` map (λ m, Ocr.parseDigits m.1) ms.
Proof.
  revert i. induction ms as [|m ms IH]; intros i; simpl; [done|].
  unfold analyzeMatch at 1.
  destruct (String.length (Str.trim m.2) <? 50)%nat; simpl.
  - by apply sublist_cons.
  - pose proof (analyzeIndividualPage_net (models i) (Str.trim m.2)
                  (Ocr.parseDigits m.1) lang idle) as Hn.
    destruct (analyzeIndividualPage _ _ _ _ _) as [[[a|e] n'] t]; simpl.
    + destruct Hn as (_ & _ & ->). by apply sublist_skip.
    + by apply sublist_cons.
Qed.

(** X22: the page analyses of [analyzePdfContentComprehensive] are those of
    the matches whose trimmed text has at least 50 characters and whose
    client call succeeded, in the order of the document: the batches of five
    do not show in the result, and a failed client call only leaves its page
    out. *)
Theorem comprehensive_pages (textContent : string) :
  let res := analyzePdfContentComprehensive models lang textContent in
  c_pageAnalyses res = omap id (analyzeBatch models lang 0 (Ocr.matchAll textContent)) ∧
  map pageNumber (c_pageAnalyses res)
    `sublist_of` map (λ m, Ocr.parseDigits m.1) (Ocr.matchAll textContent) ∧
  (∀ a, a ∈ c_pageAnalyses res ↔
        ∃ k m, Ocr.matchAll textContent !! k = Some m ∧
               (50 ≤ String.length (Str.trim m.2))%nat ∧
               completion (analyzeIndividualPage (models k) (Str.trim m.2)
                             (Ocr.parseDigits m.1) lang idle) = Normal a).
Proof.
  intros res.
  assert (Hres : c_pageAnalyses res
                 = omap id (analyzeBatch models lang 0 (Ocr.matchAll textContent))).
  { subst res. unfold analyzePdfContentComprehensive. simpl.
    by rewrite batchLoop_unbatched by lia. }
  rewrite Hres. split_and!; [done|apply analyzeBatch_pages|].
  intros a. split.
  - intros (k & Hk)%list_elem_of_lookup.
    apply analyzeBatch_lookup in Hk as (j & m & Hj & Ha). exists j, m.
    split; [done|]. simpl in Ha. unfold analyzeMatch in Ha.
    destruct (Nat.ltb_spec (String.length (Str.trim m.2)) 50); [done|].
    split; [lia|]. by destruct (completion _) as [a'|]; simplify_eq.
  - intros (k & m & Hk & Hlen & Ha).
    apply (analyzeBatch_elem 0 _ k m); [done|]. simpl. unfold analyzeMatch.
    destruct (Nat.ltb_spec (String.length (Str.trim m.2)) 50); [lia|].
    by rewrite Ha.
Qed.

(** X23: the categories of the comprehensive analysis are the categories
    of its page analyses without repetition, and its key points are the key
    points of its page analyses in order. *)
Theorem comprehensive_categories (textContent : string) :
  let res := analyzePdfContentComprehensive models lang textContent in
  NoDup (c_tnpscCategories res) ∧
  (∀ x, x ∈ c_tnpscCategories res ↔
        ∃ a, a ∈ c_pageAnalyses res ∧ x ∈ default [] (tnpscCategories a)) ∧
  totalKeyPoints res = flat_map keyPoints (c_pageAnalyses res).
Proof.
  intros res. subst res. unfold analyzePdfContentComprehensive. simpl.
  split_and!; [apply uniqueFrom_NoDup| |done].
  intros x. unfold unique. rewrite uniqueFrom_elem.
  rewrite list_elem_of_In, in_flat_map. split.
  - intros [(a & Ha & Hx) _]. exists a. by rewrite !list_elem_of_In.
  - intros (a & Ha & Hx). split; [|by intros ?%elem_of_nil].
    exists a. by rewrite <- !list_elem_of_In.
Qed.

End ComprehensiveFacts.

(** ** A finished document, the stored record and jumps *)

Section FinishedDocument.

Variable gemini : Gemini Parsed.
Variable store : Store.
Variable extract : string → Z → Z → string.

Lemma analyzeAllLoop_all_done r rem i w :
  (∀ j, i ≤ j < i + Z.of_nat rem →
        pageDone j (deref (heap w) (r_pageAnalyses r)) = true) →
  analyzeAllLoop gemini store extract r rem i w = (Normal true, w, []).
Proof.
  revert i. induction rem as [|rem IH]; intros i Hdone; [done|].
  rewrite analyzeAllLoop_step, Hdone by lia. apply IH. intros j Hj. apply Hdone. lia.
Qed.

(** X24: on a document whose pages are all analysed, [analyzeAllPages]
    makes no client, model or store call, emits nothing but the notification
    that all pages are analysed, and leaves the progress, the clock and the
    identifier as they were, with [isAnalyzing] false. *)
Theorem analyzeAllPages_on_finished_document (r : Render) (w : World) :
  (∀ j, 1 ≤ j ≤ totalPages r →
        pageDone j (deref (heap w) (r_pageAnalyses r)) = true) →
  let res := analyzeAllPages gemini store extract r w in
  completion res = Normal tt ∧
  Forall (λ e, e = EvToast toast_success msgAllDone) (events res) ∧
  heap (world_of res) = heap w ∧
  pageAnalysesRef (world_of res) = pageAnalysesRef w ∧
  net (world_of res) = net w ∧
  storeCalls (world_of res) = storeCalls w ∧
  studyHistoryId (world_of res) = studyHistoryId w ∧
  isAnalyzing (world_of res) = false.
Proof.
  intros Hdone res. subst res. rewrite analyzeAllPages_eq.
  rewrite analyzeAllLoop_all_done.
  - unfold completion, events, world_of. simpl. split_and!; try done.
    destruct (_ =? _); by repeat constructor.
  - intros j Hj. apply Hdone. lia.
Qed.

End FinishedDocument.

Lemma recordsOf_app t1 t2 : recordsOf (t1 ++ t2) = recordsOf t1 ++ recordsOf t2.
Proof. apply omap_app. Qed.

Lemma recordsOf_net t : Forall isNetEvent t → recordsOf t = [].
Proof.
  induction 1 as [|e t He _ IH]; [done|].
  destruct e; try done; exact IH.
Qed.

Lemma Map_set_twice k v m : Map_set k v (Map_set k v m) = Map_set k v m.
Proof.
  induction m as [|[k' v'] m IH]; simpl.
  - by rewrite Z.eqb_refl.
  - destruct (Z.eqb k k') eqn:E; simpl; rewrite ?Z.eqb_refl, ?E; [done|by rewrite IH].
Qed.

Section StoredRecord.

Variable gemini : Gemini Parsed.
Variable store : Store.
Variable extract : string → Z → Z → string.

Lemma PageLoop_records r page mr rem attempt delay w res w' t :
  PageLoop gemini store extract r page mr rem attempt delay w (res, w', t) →
  attempt + Z.of_nat rem = mr → (0 < rem)%nat →
  r_pageAnalyses r = pageAnalysesRef w →
  (pageAnalysesRef w < length (heap w))%nat →
  Str.trim (extract (fullText r) page page) ≠ "" →
  is_Some (user r) →
  recordsOf t =
    match res with
    | Normal _ =>
        [analysisResultForPage (file_name (file r)) (analyzedPagesListOf (pagesOf w'))]
    | Throw _ => []
    end.
Proof.
  intros H. remember (res, w', t) as out eqn:Hout. revert res w' t Hout.
  induction H as [attempt delay w
                 |rem attempt delay w w1 t1 Ha
                 |rem attempt delay w e w1 t1 Ha Hr
                 |rem attempt delay w e w1 t1 res2 w2 t2 Ha Hr Hloop IH];
    intros res w' t [= <- <- <-] Hinv Hpos Hfresh Hwf Hne [usr Hu].
  - lia.
  - apply attempt_normal in Ha
      as [(Hb & -> & ->)|(a & n1 & t0 & w3 & t3 & _ & _ & _ & _ & Hnet & Hsave & Hc & -> & ->)];
      [done|].
    change (recordsOf (EvAnalyze ?a ?b ?c ?d :: ?l)) with (recordsOf l).
    rewrite !recordsOf_app, recordsOf_net by done. simpl.
    pose proof (saveConsolidatedHistoryForPage_records store r page (markAnalyzed a)
                  (withPage page (markAnalyzed a) (set_net n1 w))) as Hrec.
    rewrite Hsave, Hu in Hrec. cbv zeta in Hrec.
    change (events (Normal (), w3, t3)) with t3 in Hrec.
    rewrite withPage_deref in Hrec by (rewrite Hfresh; exact Hwf).
    change (pageAnalysesRef (set_net n1 w)) with (pageAnalysesRef w) in Hrec.
    rewrite decide_True in Hrec by done.
    rewrite Map_set_twice, analyzedPagesListOf_set in Hrec by done.
    rewrite Hrec. cbn [app].
    change (pagesOf (withIsAnalyzing false w3)) with (pagesOf w3).
    rewrite (Consolidated_pagesOf _ _ _ _ Hc), withPage_pagesOf.
    unfold pagesOf. simpl. by rewrite Hfresh.
  - apply attempt_throw in Ha as (n1 & t0 & _ & _ & _ & Hnet & -> & ->).
    change (recordsOf ((EvAnalyze ?a ?b ?c ?d :: ?l) ++ ?l')) with (recordsOf (l ++ l')).
    by rewrite recordsOf_app, recordsOf_net.
  - apply attempt_throw in Ha as (n1 & t0 & _ & _ & _ & Hnet & -> & ->).
    apply retryable_lt in Hr.
    change (recordsOf ((EvAnalyze ?a ?b ?c ?d :: ?l) ++ ?x :: ?y :: ?l'))
      with (recordsOf (l ++ x :: y :: l')).
    rewrite recordsOf_app, recordsOf_net by done.
    change (recordsOf (EvToast ?a ?b :: EvSleep ?c :: ?l)) with (recordsOf l).
    simpl. apply (IH _ _ _ eq_refl); try done; lia.
Qed.

(** X26: when the closures of the current render analyse a page with text
    for a signed-in user, the record store receives exactly one record if
    the analysis returns, the merge of all the pages that are analysed in the
    state it leaves, and none if it throws. *)
Theorem stored_record_matches_progress (r : Render) (page : Z) (w : World) :
  r_pageAnalyses r = pageAnalysesRef w →
  (pageAnalysesRef w < length (heap w))%nat →
  pageDone page (pagesOf w) = false →
  Str.trim (extract (fullText r) page page) ≠ "" →
  is_Some (user r) →
  let res := analyzePage gemini store extract r page w in
  recordsOf (events res) =
    match completion res with
    | Normal _ =>
        [analysisResultForPage (file_name (file r))
           (analyzedPagesListOf (pagesOf (world_of res)))]
    | Throw _ => []
    end.
Proof.
  intros Hfresh Hwf Hdone Hne Hu res.
  assert (Hdone' : pageDone page (deref (heap w) (r_pageAnalyses r)) = false)
    by (by rewrite Hfresh).
  pose proof (analyzePage_run gemini store extract r page w Hdone') as Hrun.
  fold res in Hrun. destruct res as [[c w'] t].
  by apply PageLoop_records in Hrun; [|done|lia|done..].
Qed.

End StoredRecord.

Section JumpFacts.

Variable gemini : Gemini Parsed.
Variable store : Store.
Variable extract : string → Z → Z → string.

(** X25: a jump to a page of the document never throws, makes it the
    current page, and leaves it analysed unless the trace ends with the
    notification that its analysis failed. *)
Theorem jump_analyses_the_page (props : Props) (u : option User) (p : Z) (s : Nav) :
  1 ≤ p ≤ p_totalPages props →
  let res := runNavOp gemini store extract props u (NavJump (Some p)) s in
  completion res = Normal tt ∧
  currentPage (world_of res) = p ∧
  (pageDone p (pagesOf (nav_world (world_of res))) = true ∨
   ∃ k, last (events res) = Some (EvToast toast_error (msgFailed p k))).
Proof.
  intros Hp res. subst res. unfold runNavOp. cbv zeta.
  assert (Hor : orElse (Some p) 1 = p).
  { simpl. destruct (Z.eqb_spec p 0); [lia|done]. }
  rewrite Hor. unfold navigateToPage.
  change (totalPages (nr_closures (renderNav props u s))) with (p_totalPages props).
  replace ((1 <=? p) && (p <=? p_totalPages props)) with true
    by (symmetry; apply andb_true_iff; split; lia).
  unfold bind at 1, setCurrentPage, modify. unfold bind, gets. cbv beta iota.
  cbn [nav_world currentPage].
  change (deref (heap (nav_world s))
            (r_pageAnalyses (nr_closures (renderNav props u s))))
    with (pagesOf (nav_world s)).
  destruct (pageDone p (pagesOf (nav_world s))) eqn:Hdone; cbn [negb].
  - unfold completion, world_of, events. simpl. split_and!; try done. by left.
  - unfold startAnalysis, liftWorld, try_catch. cbn [nav_world currentPage].
    pose proof (analyzePage_run gemini store extract
                  (nr_closures (renderNav props u s)) p (nav_world s) Hdone) as Hrun.
    destruct (analyzePage _ _ _ _ _ _) as [[[[]|e] w1] t1];
      unfold completion, world_of, events; simpl.
    + split_and!; try done. left.
      apply PageLoop_progress in Hrun; [|done|lia].
      apply pageStored_pagesOf in Hrun as (a & Ha & ->). by apply pageDone_set.
    + split_and!; try done. right.
      apply PageLoop_trace in Hrun as (body & final & -> & _ & k & ->); [|done|lia].
      exists k. by rewrite !app_nil_r, last_snoc.
Qed.

End JumpFacts.

(** ** The progress of a session of the navigator *)

Lemma Grown_trans total m1 m2 m3 :
  Grown total m1 m2 → Grown total m2 m3 → Grown total m1 m3.
Proof. intros H12 H23. induction H23; [done|]. by constructor. Qed.

Lemma Map_set_keys k a m :
  Map_keys (Map_set k a m) = if decide (k ∈ Map_keys m) then Map_keys m else Map_keys m ++ [k].
Proof.
  induction m as [|[k' v'] m IH].
  - destruct (decide (k ∈ Map_keys [])) as [Hin|_]; [|done]. by apply elem_of_nil in Hin.
  - cbn [Map_set]. destruct (Z.eqb_spec k k') as [->|Hne].
    + destruct (decide (k' ∈ Map_keys ((k', v') :: m))) as [_|Hnin]; [done|].
      exfalso. apply Hnin. left.
    + change (Map_keys ((k', v') :: ?l)) with (k' :: Map_keys l). rewrite IH.
      destruct (decide (k ∈ Map_keys m)) as [Hin|Hnin].
      * destruct (decide (k ∈ k' :: Map_keys m)) as [_|Hn]; [done|].
        exfalso. apply Hn. by right.
      * destruct (decide (k ∈ k' :: Map_keys m)) as [[?|?]%elem_of_cons|_]; done.
Qed.

Lemma Map_set_count k a m :
  isAnalyzed a = true → (analyzedPagesCount m ≤ analyzedPagesCount (Map_set k a m))%nat.
Proof.
  intros Ha. unfold analyzedPagesCount, analyzedPagesListOf, Map_values.
  induction m as [|[k' v'] m IH]; simpl.
  - rewrite Ha. simpl. lia.
  - destruct (Z.eqb k k'); simpl.
    + rewrite Ha. destruct (isAnalyzed v'); simpl; lia.
    + destruct (isAnalyzed v'); simpl; lia.
Qed.

Lemma Map_set_document total k a m :
  1 ≤ k ≤ total → pagesOfDocument total m → pagesOfDocument total (Map_set k a m).
Proof.
  intros Hk [Hnd Hall]. unfold pagesOfDocument. rewrite Map_set_keys.
  destruct (decide (k ∈ Map_keys m)); [done|]. split.
  - apply NoDup_app. split_and!; [done| |apply NoDup_singleton].
    intros x Hx Hx'%list_elem_of_singleton. by subst.
  - apply Forall_app. split; [done|]. by constructor.
Qed.

Lemma Grown_facts total m m' :
  Grown total m m' →
  (analyzedPagesCount m ≤ analyzedPagesCount m')%nat ∧
  (pagesOfDocument total m → pagesOfDocument total m') ∧
  (∀ j, pageDone j m = true → pageDone j m' = true).
Proof.
  induction 1 as [|m' k a Hg (IH1 & IH2 & IH3) Hk Ha].
  - done.
  - split_and!.
    + pose proof (Map_set_count k a m' Ha). lia.
    + intros Hm. by apply Map_set_document, IH2.
    + intros j Hj. by apply pageDone_set_mono, IH3.
Qed.

Lemma document_count total m :
  0 ≤ total → pagesOfDocument total m → (Z.of_nat (analyzedPagesCount m) ≤ total).
Proof.
  intros Htotal [Hnd Hall].
  assert (Hlen : (length (Map_keys m) ≤ length (seqZ 1 total))%nat).
  { apply submseteq_length, NoDup_submseteq; [done|].
    intros k Hk. rewrite Forall_forall in Hall. specialize (Hall k Hk).
    apply elem_of_seqZ. lia. }
  rewrite length_seqZ in Hlen.
  unfold analyzedPagesCount, analyzedPagesListOf, Map_values, Map_keys in *.
  pose proof (List.filter_length_le isAnalyzed (map snd m)) as Hf.
  rewrite length_map in Hf. rewrite length_fmap in Hlen. lia.
Qed.

Section Growth.

Variable gemini : Gemini Parsed.
Variable store : Store.
Variable extract : string → Z → Z → string.

Lemma analyzePage_grown total r page w :
  1 ≤ page ≤ total →
  Grown total (pagesOf w)
    (pagesOf (world_of (analyzePage gemini store extract r page w))).
Proof.
  intros Hpage.
  destruct (pageDone page (deref (heap w) (r_pageAnalyses r))) eqn:Hdone.
  - rewrite analyzePage_eq, Hdone. constructor.
  - pose proof (analyzePage_run gemini store extract r page w Hdone) as Hrun.
    destruct (analyzePage gemini store extract r page w) as [[res w'] t].
    apply PageLoop_progress in Hrun; [|done|lia].
    unfold world_of. simpl. destruct res as [u|e].
    + apply pageStored_pagesOf in Hrun as (a & Ha & ->).
      apply grown_set; [constructor|done|done].
    + rewrite (sameHeap_pagesOf _ _ Hrun). constructor.
Qed.

Lemma analyzeAllLoop_grown total r rem i w :
  1 ≤ i → i + Z.of_nat rem ≤ total + 1 →
  Grown total (pagesOf w)
    (pagesOf (world_of (analyzeAllLoop gemini store extract r rem i w))).
Proof.
  revert i w. induction rem as [|rem IH]; intros i w Hi Hrem; [constructor|].
  rewrite analyzeAllLoop_step.
  destruct (pageDone i (deref (heap w) (r_pageAnalyses r))); [apply IH; lia|].
  pose proof (analyzePage_grown total r i w ltac:(lia)) as Hp.
  destruct (analyzePage gemini store extract r i w) as [[[u|e] w1] t1];
    unfold world_of in Hp; simpl in Hp; [|done].
  destruct (i <? totalPages r).
  - specialize (IH (i + 1) (asleep 1000 w1) ltac:(lia) ltac:(lia)).
    destruct (analyzeAllLoop _ _ _ _ _ _ _) as [[res w3] t3].
    by eapply Grown_trans.
  - specialize (IH (i + 1) w1 ltac:(lia) ltac:(lia)).
    destruct (analyzeAllLoop _ _ _ _ _ _ _) as [[res w3] t3].
    by eapply Grown_trans.
Qed.

Lemma startAnalysis_grown total nr page s :
  1 ≤ page ≤ total →
  Grown total (pagesOf (nav_world s))
    (pagesOf (nav_world (world_of (startAnalysis gemini store extract nr page s)))).
Proof.
  intros Hpage.
  destruct (startAnalysis_result gemini store extract nr page s) as (w' & t & -> & -> & _).
  unfold world_of at 1. simpl. by apply analyzePage_grown.
Qed.

Lemma navigateToPage_grown nr page s :
  Grown (totalPages (nr_closures nr)) (pagesOf (nav_world s))
    (pagesOf (nav_world (world_of (navigateToPage gemini store extract nr page s)))).
Proof.
  unfold navigateToPage.
  destruct ((1 <=? page) && (page <=? totalPages (nr_closures nr))) eqn:Hin;
    [|constructor].
  apply andb_prop in Hin as [H1 H2].
  unfold bind at 1, setCurrentPage, modify. unfold bind, gets. cbv beta iota.
  destruct (negb _); [|constructor].
  pose proof (startAnalysis_grown (totalPages (nr_closures nr)) nr page
                {| nav_world := nav_world s; currentPage := page |} ltac:(lia)) as Hg.
  by destruct (startAnalysis _ _ _ _ _ _) as [[res s'] t].
Qed.

Lemma runNavOp_grown props u op s :
  1 ≤ currentPage s ≤ p_totalPages props →
  Grown (p_totalPages props) (pagesOf (nav_world s))
    (pagesOf (nav_world (world_of (runNavOp gemini store extract props u op s)))).
Proof.
  intros Hrange.
  destruct op as [| |parsed| | | | |]; unfold runNavOp; cbv zeta.
  - destruct (_ || _); [constructor|].
    apply (navigateToPage_grown (renderNav props u s)).
  - destruct (_ || _); [constructor|].
    apply (navigateToPage_grown (renderNav props u s)).
  - apply (navigateToPage_grown (renderNav props u s)).
  - destruct (_ || _); [constructor|]. by apply startAnalysis_grown.
  - destruct (nr_isAnalyzing _); [constructor|].
    unfold liftWorld. rewrite analyzeAllPages_eq.
    pose proof (analyzeAllLoop_grown (p_totalPages props)
                  (nr_closures (renderNav props u s))
                  (Z.to_nat (totalPages (nr_closures (renderNav props u s)))) 1
                  (withIsAnalyzing true (nav_world s))) as Hg.
    destruct (analyzeAllLoop _ _ _ _ _ _ _) as [[[ok|e] w1] t1];
      apply Hg; simpl; lia.
  - unfold analyzeOnLoad, bind, gets. cbv beta iota.
    destruct (negb _); [|constructor].
    pose proof (startAnalysis_grown (p_totalPages props) (renderNav props u s)
                  (nr_currentPage (renderNav props u s)) s Hrange) as Hg.
    by destruct (startAnalysis _ _ _ _ _ _) as [[res s'] t].
  - unfold liftWorld, consolidateEffect, bind, gets.
    destruct (0 <? _)%nat; [|constructor].
    destruct (saveConsolidatedHistory_result store
                (nr_closures (renderNav props u s)) (nav_world s))
      as (w' & t & -> & Hc).
    unfold world_of. simpl. rewrite (Consolidated_pagesOf _ _ _ _ Hc). constructor.
  - unfold liftWorld, syncSessionStorage.
    destruct (truthyId _); constructor.
Qed.

Lemma runNavOps_grown props u ops s :
  1 ≤ currentPage s ≤ p_totalPages props →
  Grown (p_totalPages props) (pagesOf (nav_world s))
    (pagesOf (nav_world (world_of (runNavOps gemini store extract props u ops s)))).
Proof.
  revert s. induction ops as [|op ops IH]; intros s Hrange; [constructor|].
  simpl. unfold bind.
  pose proof (runNavOp_grown props u op s Hrange) as Hg.
  destruct (runNavOp_range gemini store extract props u op s Hrange)
    as (s' & t & Hop & Hs').
  rewrite Hop in Hg |- *. specialize (IH s' Hs').
  destruct (runNavOps _ _ _ _ _ _ _) as [[res s2] t2].
  by eapply Grown_trans.
Qed.

(** X27: whatever the user does on the navigator and whichever effects
    run, when the current page is a page of the document and the keys of the
    progress map are distinct pages of the document, they remain so, the
    number of analysed pages never decreases and never exceeds the number of
    pages, and every analysed page stays analysed. *)
Theorem progress_stays_within_document (props : Props) (u : option User)
    (ops : list NavOp) (s : Nav) :
  1 ≤ currentPage s ≤ p_totalPages props →
  pagesOfDocument (p_totalPages props) (pagesOf (nav_world s)) →
  let res := runNavOps gemini store extract props u ops s in
  let before := pagesOf (nav_world s) in
  let after := pagesOf (nav_world (world_of res)) in
  pagesOfDocument (p_totalPages props) after ∧
  (analyzedPagesCount before ≤ analyzedPagesCount after)%nat ∧
  Z.of_nat (analyzedPagesCount after) ≤ p_totalPages props ∧
  (∀ j, pageDone j before = true → pageDone j after = true).
Proof.
  intros Hrange Hdoc res before after.
  pose proof (runNavOps_grown props u ops s Hrange) as Hg.
  apply Grown_facts in Hg as (H1 & H2 & H3).
  split_and!; [by apply H2|done| |done].
  apply document_count; [lia|by apply H2].
Qed.

End Growth.

(** ** The closing notification of Analyze All *)

Lemma isAllDone_net t : Forall isNetEvent t → Forall (λ e, isAllDone e = false) t.
Proof. intros H. eapply Forall_impl; [exact H|]. by intros []. Qed.

Lemma isAllDone_persist t : Forall isPersistEvent t → Forall (λ e, isAllDone e = false) t.
Proof. intros H. eapply Forall_impl; [exact H|]. by intros [| | |[]| |]. Qed.

Lemma Map_set_count_le k a m :
  (analyzedPagesCount (Map_set k a m) ≤ analyzedPagesCount m + 1)%nat.
Proof.
  unfold analyzedPagesCount, analyzedPagesListOf, Map_values.
  induction m as [|[k' v'] m IH]; simpl.
  - destruct (isAnalyzed a); simpl; lia.
  - destruct (Z.eqb k k'); simpl.
    + destruct (isAnalyzed a), (isAnalyzed v'); simpl; lia.
    + destruct (isAnalyzed v'); simpl; lia.
Qed.

Section Captured.

Variable gemini : Gemini Parsed.
Variable store : Store.
Variable extract : string → Z → Z → string.

Lemma PageLoop_allDone r page mr rem attempt delay w res w' t :
  PageLoop gemini store extract r page mr rem attempt delay w (res, w', t) →
  Forall (λ e, isAllDone e = false) t.
Proof.
  intros H. remember (res, w', t) as out eqn:Hout. revert res w' t Hout.
  induction H as [attempt delay w
                 |rem attempt delay w w1 t1 Ha
                 |rem attempt delay w e w1 t1 Ha Hr
                 |rem attempt delay w e w1 t1 res2 w2 t2 Ha Hr Hloop IH];
    intros res w' t [= <- <- <-].
  - constructor.
  - apply attempt_normal in Ha
      as [(Hb & -> & ->)|(a & n1 & t0 & w3 & t3 & _ & _ & _ & _ & Hnet & _ & Hc & -> & ->)].
    + by repeat constructor.
    + constructor; [done|]. apply Forall_app. split; [by apply isAllDone_net|].
      apply Forall_app. split; [|by repeat constructor].
      eapply isAllDone_persist, Consolidated_persist; eauto.
  - apply attempt_throw in Ha as (n1 & t0 & _ & _ & _ & Hnet & -> & ->).
    apply Forall_app. split; [|by repeat constructor].
    constructor; [done|]. by apply isAllDone_net.
  - apply attempt_throw in Ha as (n1 & t0 & _ & _ & _ & Hnet & -> & ->).
    apply Forall_app. split.
    + constructor; [done|]. by apply isAllDone_net.
    + constructor; [done|]. constructor; [done|]. by apply (IH _ _ _ eq_refl).
Qed.

Lemma capturedStep_refl r w : wellFormedRefs r w → capturedStep r w w.
Proof. intros Hwf. split; [done|]. by left. Qed.

Lemma capturedStep_trans r w1 w2 w3 :
  capturedStep r w1 w2 → capturedStep r w2 w3 → capturedStep r w1 w3.
Proof.
  intros [_ H12] [Hwf H23]. split; [done|].
  destruct H12 as [[Hc1 Hf1]|(Hf1 & Hn1 & p & a & Hc1)],
           H23 as [[Hc2 Hf2]|(Hf2 & Hn2 & p' & a' & Hc2)].
  - left. split; [congruence|tauto].
  - right. split_and!; [tauto|done|]. exists p', a'. congruence.
  - right. split_and!; [done|tauto|]. exists p, a. congruence.
  - done.
Qed.

Lemma capturedStep_sameHeap r w w' :
  wellFormedRefs r w → sameHeap w w' → capturedStep r w w'.
Proof.
  intros [H1 H2] [Hh Hr]. split.
  - split; rewrite ?Hh, ?Hr; done.
  - left. rewrite Hh, Hr. done.
Qed.

Lemma analyzePage_captured r page w :
  wellFormedRefs r w →
  capturedStep r w (world_of (analyzePage gemini store extract r page w)).
Proof.
  intros Hwf.
  destruct (pageDone page (deref (heap w) (r_pageAnalyses r))) eqn:Hdone.
  - rewrite analyzePage_eq, Hdone. by apply capturedStep_refl.
  - pose proof (analyzePage_run gemini store extract r page w Hdone) as Hrun.
    destruct (analyzePage gemini store extract r page w) as [[res w'] t].
    apply PageLoop_progress in Hrun; [|done|lia].
    unfold world_of. simpl. destruct res as [u|e].
    + destruct Hrun as (a & w0 & Ha & [Hh0 Hr0] & [Hh' Hr']).
      change (heap (withIsAnalyzing true w)) with (heap w) in Hh0.
      change (pageAnalysesRef (withIsAnalyzing true w)) with (pageAnalysesRef w) in Hr0.
      destruct Hwf as [Hwf1 Hwf2].
      assert (Hlen : length (heap w') = S (length (heap w))).
      { by rewrite Hh', withPage_length, Hh0. }
      assert (Hlive : pageAnalysesRef w' = length (heap w)).
      { rewrite Hr'. unfold withPage. simpl. by rewrite Hh0. }
      split; [split; lia|].
      assert (Hd : deref (heap w') (r_pageAnalyses r)
                   = if decide (r_pageAnalyses r = pageAnalysesRef w)
                     then Map_set page a (deref (heap w) (r_pageAnalyses r))
                     else deref (heap w) (r_pageAnalyses r)).
      { rewrite Hh', withPage_deref by (rewrite Hh0; done). by rewrite Hr0, Hh0. }
      destruct (decide (r_pageAnalyses r = pageAnalysesRef w)) as [Hfresh|Hstale].
      * right. split_and!; [done|lia|by exists page, a].
      * left. split; [done|]. lia.
    + apply capturedStep_sameHeap; [done|].
      destruct Hrun as [Hh Hr]. by split.
Qed.

Lemma analyzeAllLoop_captured r rem i w :
  wellFormedRefs r w →
  capturedStep r w (world_of (analyzeAllLoop gemini store extract r rem i w)) ∧
  Forall (λ e, isAllDone e = false)
    (events (analyzeAllLoop gemini store extract r rem i w)).
Proof.
  revert i w. induction rem as [|rem IH]; intros i w Hwf.
  - split; [by apply capturedStep_refl|constructor].
  - rewrite analyzeAllLoop_step.
    destruct (pageDone i (deref (heap w) (r_pageAnalyses r))) eqn:Hdone; [by apply IH|].
    pose proof (analyzePage_captured r i w Hwf) as Hp.
    pose proof (analyzePage_run gemini store extract r i w Hdone) as Hrun.
    destruct (analyzePage gemini store extract r i w) as [[[u|e] w1] t1];
      apply PageLoop_allDone in Hrun; unfold world_of in Hp; simpl in Hp.
    + destruct (i <? totalPages r).
      * destruct (IH (i + 1) (asleep 1000 w1)) as [Hc Ht]; [by destruct Hp|].
        destruct (analyzeAllLoop _ _ _ _ _ _ _) as [[res w3] t3].
        unfold world_of, events in *. simpl in *. split.
        -- eapply capturedStep_trans; [exact Hp|]. exact Hc.
        -- apply Forall_app. split; [done|]. by constructor.
      * destruct (IH (i + 1) w1) as [Hc Ht]; [by destruct Hp|].
        destruct (analyzeAllLoop _ _ _ _ _ _ _) as [[res w3] t3].
        unfold world_of, events in *. simpl in *. split.
        -- by eapply capturedStep_trans.
        -- by apply Forall_app.
    + unfold world_of, events. simpl. split; [done|].
      apply Forall_app. split; [done|]. by repeat constructor.
Qed.

(** X28: Analyze All announces that all pages were analysed only from the
    Map object that its closure holds, which receives at most the first page
    that the batch completes: when that map counts fewer analysed pages than
    the document has pages less one, the batch never shows the notification
    "All pages analyzed successfully!", whatever it analyses. *)
Theorem analyzeAllPages_completion_notice (r : Render) (w : World) :
  wellFormedRefs r w →
  Z.of_nat (analyzedPagesCount (deref (heap w) (r_pageAnalyses r))) + 1 < totalPages r →
  Forall (λ e, isAllDone e = false)
    (events (analyzeAllPages gemini store extract r w)).
Proof.
  intros Hwf Hcount. rewrite analyzeAllPages_eq.
  destruct (analyzeAllLoop_captured r (Z.to_nat (totalPages r)) 1
              (withIsAnalyzing true w)) as [[_ Hc] Ht]; [done|].
  destruct (analyzeAllLoop _ _ _ _ _ _ _) as [[[ok|e] w1] t1];
    unfold world_of, events in *; simpl in *; [|done].
  apply Forall_app. split; [done|].
  assert (Hle : (analyzedPagesCount (deref (heap w1) (r_pageAnalyses r))
                 ≤ analyzedPagesCount (deref (heap w) (r_pageAnalyses r)) + 1)%nat).
  { destruct Hc as [[-> _]|(_ & _ & p & a & ->)]; [lia|apply Map_set_count_le]. }
  fold (analyzedPagesCount (deref (heap w1) (r_pageAnalyses r))).
  destruct (Z.eqb_spec (Z.of_nat (analyzedPagesCount (deref (heap w1) (r_pageAnalyses r))))
              (totalPages r)) as [Heq|Hne]; [lia|].
  rewrite andb_false_r. constructor.
Qed.

End Captured.

(** ** The merged record and the order of completion *)

Lemma completedInOrder_keys l :
  NoDup (map pageNumber l) → Map_keys (completedInOrder l) = map pageNumber l.
Proof.
  intros Hnd. unfold completedInOrder.
  rewrite completedInOrder_from by done. unfold Map_keys. simpl.
  rewrite map_map. done.
Qed.

Lemma completedInOrder_undone l page :
  NoDup (map pageNumber l) → Forall (λ a, isAnalyzed a = true) l →
  pageDone page (completedInOrder l) = false → page ∉ map pageNumber l.
Proof.
  intros Hnd Hall Hdone Hin.
  apply list_elem_of_fmap in Hin as (a & -> & Ha).
  assert (Hget : Map_get (pageNumber a) (completedInOrder l) = Some a).
  { apply Map_get_of_elem; [by rewrite completedInOrder_keys|].
    unfold completedInOrder. rewrite completedInOrder_from by done. simpl.
    by apply (list_elem_of_fmap_2 (λ a, (pageNumber a, a))). }
  unfold pageDone, Map_has in Hdone. rewrite Hget in Hdone.
  rewrite Forall_forall in Hall. by rewrite (Hall a Ha) in Hdone.
Qed.

Section CompletionOrder.

Variable gemini : Gemini Parsed.
Variable store : Store.
Variable extract : string → Z → Z → string.

Lemma PageLoop_stored r page mr rem attempt delay w res w' t :
  PageLoop gemini store extract r page mr rem attempt delay w (res, w', t) →
  attempt + Z.of_nat rem = mr → (0 < rem)%nat →
  r_pageAnalyses r = pageAnalysesRef w →
  (pageAnalysesRef w < length (heap w))%nat →
  match res with
  | Normal _ =>
      ∃ a, isAnalyzed a = true ∧ pageNumber a = page ∧
           pagesOf w' = Map_set page a (pagesOf w) ∧
           (recordsOf t = [] ∨
            recordsOf t = [analysisResultForPage (file_name (file r))
                             (analyzedPagesListOf (pagesOf w'))])
  | Throw _ => pagesOf w' = pagesOf w ∧ recordsOf t = []
  end.
Proof.
  intros H. remember (res, w', t) as out eqn:Hout. revert res w' t Hout.
  induction H as [attempt delay w
                 |rem attempt delay w w1 t1 Ha
                 |rem attempt delay w e w1 t1 Ha Hr
                 |rem attempt delay w e w1 t1 res2 w2 t2 Ha Hr Hloop IH];
    intros res w' t [= <- <- <-] Hinv Hpos Hfresh Hwf.
  - lia.
  - apply attempt_normal in Ha
      as [(Hb & -> & ->)
         |(a & n1 & t0 & w3 & t3 & _ & _ & Hpage & _ & Hnet & Hsave & Hc & -> & ->)].
    + exists (emptyAnalysis page). split_and!; [done|done| |by left].
      change (pagesOf (withIsAnalyzing false ?x)) with (pagesOf x).
      apply withPage_pagesOf.
    + exists (markAnalyzed a). split_and!; [done|done| |].
      * change (pagesOf (withIsAnalyzing false w3)) with (pagesOf w3).
        by rewrite (Consolidated_pagesOf _ _ _ _ Hc), withPage_pagesOf.
      * change (recordsOf (EvAnalyze ?a ?b ?c ?d :: ?l)) with (recordsOf l).
        rewrite !recordsOf_app, recordsOf_net by done. simpl.
        pose proof (saveConsolidatedHistoryForPage_records store r page (markAnalyzed a)
                      (withPage page (markAnalyzed a) (set_net n1 w))) as Hrec.
        rewrite Hsave in Hrec. change (events (Normal (), w3, t3)) with t3 in Hrec.
        destruct (user r) as [usr|]; [|left; by rewrite Hrec].
        right. cbv zeta in Hrec.
        rewrite withPage_deref in Hrec by (rewrite Hfresh; exact Hwf).
        change (pageAnalysesRef (set_net n1 w)) with (pageAnalysesRef w) in Hrec.
        rewrite decide_True in Hrec by done.
        rewrite Map_set_twice, analyzedPagesListOf_set in Hrec by done.
        rewrite Hrec. cbn [app].
        change (pagesOf (withIsAnalyzing false w3)) with (pagesOf w3).
        rewrite (Consolidated_pagesOf _ _ _ _ Hc), withPage_pagesOf.
        unfold pagesOf. simpl. by rewrite Hfresh.
  - apply attempt_throw in Ha as (n1 & t0 & _ & _ & _ & Hnet & -> & ->).
    split; [done|].
    change (recordsOf ((EvAnalyze ?a ?b ?c ?d :: ?l) ++ ?l')) with (recordsOf (l ++ l')).
    by rewrite recordsOf_app, recordsOf_net.
  - apply attempt_throw in Ha as (n1 & t0 & _ & _ & _ & Hnet & -> & ->).
    apply retryable_lt in Hr.
    change (recordsOf ((EvAnalyze ?a ?b ?c ?d :: ?l) ++ ?x :: ?y :: ?l'))
      with (recordsOf (l ++ x :: y :: l')).
    rewrite recordsOf_app, recordsOf_net by done.
    change (recordsOf (EvToast ?a ?b :: EvSleep ?c :: ?l)) with (recordsOf l).
    simpl.
    specialize (IH _ _ _ eq_refl ltac:(lia)).
    destruct rem as [|rem]; [lia|].
    specialize (IH ltac:(lia) Hfresh Hwf).
    by change (pagesOf (asleep delay (set_net n1 w))) with (pagesOf w) in IH.
Qed.

Lemma runOp_completion_order props u op w l :
  notBatch op →
  (pageAnalysesRef w < length (heap w))%nat →
  pagesOf w = completedInOrder l →
  NoDup (map pageNumber l) →
  Forall (λ a, isAnalyzed a = true) l →
  ∃ w' t l',
    runOp gemini store extract props u op w = (Normal tt, w', t) ∧
    (pageAnalysesRef w' < length (heap w'))%nat ∧
    pagesOf w' = completedInOrder (l ++ l') ∧
    NoDup (map pageNumber (l ++ l')) ∧
    Forall (λ a, isAnalyzed a = true) (l ++ l') ∧
    (recordsOf t = [] ∨
     ∃ record, recordsOf t = [record] ∧ l ++ l' ≠ [] ∧
               mergeOf (file_name (p_file props)) (l ++ l') record).
Proof.
  intros Hop Hwf Hmap Hnd Hall.
  destruct op as [page| | |]; [| done | |].
  - (* one page *)
    unfold runOp. cbv zeta. unfold try_catch.
    set (r := render props u w).
    destruct (pageDone page (deref (heap w) (r_pageAnalyses r))) eqn:Hdone.
    { rewrite analyzePage_eq, Hdone. exists w, [], []. rewrite !app_nil_r.
      split_and!; try done. by left. }
    pose proof (analyzePage_run gemini store extract r page w Hdone) as Hrun.
    destruct (analyzePage_batch gemini store extract r page w ltac:(by split) Hdone)
      as (res0 & w0 & body & final & Heq & [_ Hwf'] & _).
    rewrite Heq in Hrun |- *.
    apply PageLoop_stored in Hrun; [|done|lia|done|done].
    change (pagesOf (withIsAnalyzing true w)) with (pagesOf w) in Hrun.
    destruct res0 as [[]|e].
    + destruct Hrun as (a & Ha & Hpage & Hset & Hrec).
      assert (Hnew : page ∉ map pageNumber l).
      { apply completedInOrder_undone; try done. by rewrite <- Hmap. }
      assert (Hnd' : NoDup (map pageNumber (l ++ [a]))).
      { rewrite map_app. simpl. apply NoDup_app. split_and!; [done| |apply NoDup_singleton].
        intros x Hx Hx'. apply list_elem_of_singleton in Hx' as ->. by rewrite Hpage in Hx. }
      assert (Hall' : Forall (λ a, isAnalyzed a = true) (l ++ [a])).
      { apply Forall_app. split; [done|]. by constructor. }
      assert (Hmap' : pagesOf w0 = completedInOrder (l ++ [a])).
      { by rewrite Hset, Hmap, completedInOrder_snoc, Hpage. }
      exists w0, (body ++ [final]), [a]. split_and!; try done.
      destruct Hrec as [->| ->]; [by left|]. right.
      eexists. split; [done|]. split; [by destruct l|]. left.
      by rewrite Hmap', analyzedPagesListOf_completedInOrder.
    + destruct Hrun as [Hsame Hrec]. unfold ret.
      exists w0, ((body ++ [final]) ++ []), []. rewrite !app_nil_r.
      split_and!; try done; [by rewrite Hsame|]. by left.
  - (* the effect on the progress map *)
    unfold runOp, consolidateEffect. cbv zeta. unfold bind, gets. cbn [fst snd].
    set (r := render props u w).
    change (deref (heap w) (r_pageAnalyses r)) with (pagesOf w).
    destruct (0 <? length (analyzedPagesListOf (pagesOf w)))%nat eqn:Hcount.
    + destruct (saveConsolidatedHistory_result store r w) as (w' & t & Heq & Hc).
      pose proof (saveConsolidatedHistory_records store r w) as Hrec.
      rewrite Heq in Hrec |- *. change (events (Normal (), w', t)) with t in Hrec.
      exists w', ([] ++ t), []. rewrite !app_nil_r. simpl.
      pose proof (Consolidated_sameProgress _ _ _ _ Hc) as (Hh & Hr & _).
      split_and!; try done.
      * by rewrite Hh, Hr.
      * by rewrite (Consolidated_pagesOf _ _ _ _ Hc).
      * rewrite Hrec. destruct (user r); [|by left]. cbv zeta.
        change (deref (heap w) (r_pageAnalyses r)) with (pagesOf w).
        rewrite Hmap, analyzedPagesListOf_completedInOrder by done.
        destruct l as [|a l]; [by left|]. right.
        eexists. split; [done|]. split; [done|]. by right.
    + unfold ret. exists w, [], []. rewrite !app_nil_r.
      split_and!; try done. by left.
  - (* the effect on the identifier *)
    unfold runOp, syncSessionStorage. cbv zeta.
    destruct (truthyId _); [|unfold ret; exists w, [], []; rewrite !app_nil_r;
                             split_and!; try done; by left].
    unfold sessionStorage_setItem, modify.
    eexists _, [], []. rewrite !app_nil_r. split_and!; try done. by left.
Qed.

Lemma runOps_completion_order props u ops w l :
  Forall notBatch ops →
  (pageAnalysesRef w < length (heap w))%nat →
  pagesOf w = completedInOrder l →
  NoDup (map pageNumber l) →
  Forall (λ a, isAnalyzed a = true) l →
  ∃ l' sent,
    pagesOf (world_of (runOps gemini store extract props u ops w))
    = completedInOrder (l ++ l') ∧
    NoDup (map pageNumber (l ++ l')) ∧
    Forall (λ a, isAnalyzed a = true) (l ++ l') ∧
    Forall2 (mergeOf (file_name (p_file props))) sent
      (recordsOf (events (runOps gemini store extract props u ops w))) ∧
    Forall (λ done, l `prefix_of` done ∧ done `prefix_of` l ++ l' ∧ done ≠ []) sent ∧
    StronglySorted prefix sent.
Proof.
  revert w l. induction ops as [|op ops IH]; intros w l Hops Hwf Hmap Hnd Hall.
  { exists [], []. rewrite app_nil_r. split_and!; try done; constructor. }
  apply Forall_cons in Hops as [Hop Hops].
  destruct (runOp_completion_order props u op w l Hop Hwf Hmap Hnd Hall)
    as (w1 & t1 & l1 & Heq & Hwf1 & Hmap1 & Hnd1 & Hall1 & Hrec1).
  destruct (IH w1 (l ++ l1) Hops Hwf1 Hmap1 Hnd1 Hall1)
    as (l2 & sent & Hmap2 & Hnd2 & Hall2 & Hrec2 & Hsent & Hsorted).
  simpl. unfold bind. rewrite Heq.
  destruct (runOps gemini store extract props u ops w1) as [[res w2] t2].
  unfold world_of, events in *. simpl in *.
  assert (Hsent' : Forall (λ done, l `prefix_of` done ∧
                                   done `prefix_of` l ++ l1 ++ l2 ∧ done ≠ []) sent).
  { eapply Forall_impl; [exact Hsent|]. intros done (H1 & H2 & H3).
    split_and!; [|by rewrite app_assoc|done].
    etrans; [|exact H1]. by apply prefix_app_r. }
  destruct Hrec1 as [Hnone|(record & Hone & Hne & Hm)].
  - exists (l1 ++ l2), sent. rewrite app_assoc, recordsOf_app, Hnone.
    split_and!; try done. by rewrite <- app_assoc.
  - exists (l1 ++ l2), ((l ++ l1) :: sent). rewrite recordsOf_app, Hone.
    split_and!; try done; try (by rewrite app_assoc).
    + by constructor.
    + constructor; [|done]. split_and!; [by apply prefix_app_r| |done].
      rewrite app_assoc. by apply prefix_app_r.
    + constructor; [done|].
      eapply Forall_impl; [exact Hsent|]. by intros done (H1 & _).
Qed.

End CompletionOrder.

(** C2 (amended): a consolidation merges the analysed entries of the Map
    object that its closure holds, in the insertion order of that map, the
    per-page consolidation after setting the page just analysed in it.  In a
    session without a batch, whose operations run one after the other from
    a progress map that lists the analyses [l] in the order of their
    completion, the progress map ends as the list of the pages in the order
    in which they were first completed, and the records sent to the store
    are the merges of a growing chain of initial segments of that list, each
    holding the pages of [l] at least.  Only the page list of the main topic
    is sorted, so it is the same for every order of the same pages. *)
Theorem C2_merged_in_completion_order (gemini : Gemini Parsed) (store : Store)
    (extract : string → Z → Z → string) (props : Props) (u : option User)
    (ops : list Op) (w : World) (l : list PageAnalysis) :
  Forall notBatch ops →
  (pageAnalysesRef w < length (heap w))%nat →
  pagesOf w = completedInOrder l →
  NoDup (map pageNumber l) →
  Forall (λ a, isAnalyzed a = true) l →
  let res := runOps gemini store extract props u ops w in
  (∃ l' sent,
     pagesOf (world_of res) = completedInOrder (l ++ l') ∧
     NoDup (map pageNumber (l ++ l')) ∧
     Forall (λ a, isAnalyzed a = true) (l ++ l') ∧
     analyzedPagesListOf (pagesOf (world_of res)) = l ++ l' ∧
     Forall2 (mergeOf (file_name (p_file props))) sent (recordsOf (events res)) ∧
     Forall (λ done, l `prefix_of` done ∧ done `prefix_of` l ++ l' ∧ done ≠ []) sent ∧
     StronglySorted prefix sent) ∧
  (∀ r p a w0,
     is_Some (user r) → isAnalyzed a = true →
     recordsOf (events (saveConsolidatedHistoryForPage store r p a w0))
     = [analysisResultForPage (file_name (file r))
          (analyzedPagesListOf (Map_set p a (deref (heap w0) (r_pageAnalyses r))))]) ∧
  (∀ r w0,
     is_Some (user r) →
     analyzedPagesListOf (deref (heap w0) (r_pageAnalyses r)) ≠ [] →
     recordsOf (events (saveConsolidatedHistory store r w0))
     = [analysisResultAll (file_name (file r))
          (analyzedPagesListOf (deref (heap w0) (r_pageAnalyses r)))]) ∧
  (∀ name l1,
     ∃ sorted,
       StronglySorted Z.le sorted ∧ sorted ≡ₚ map pageNumber l1 ∧
       ar_mainTopic (analysisResultForPage name l1)
       = name +:+ " - Pages " +:+ Str.join ", " (map pretty sorted) ∧
       ar_mainTopic (analysisResultAll name l1)
       = name +:+ " - Pages " +:+ Str.join ", " (map pretty sorted)) ∧
  (∀ name l1 l2,
     l1 ≡ₚ l2 →
     ar_mainTopic (analysisResultForPage name l1)
     = ar_mainTopic (analysisResultForPage name l2) ∧
     ar_mainTopic (analysisResultAll name l1)
     = ar_mainTopic (analysisResultAll name l2)).
Proof.
  intros Hops Hwf Hmap Hnd Hall res. split_and!.
  - destruct (runOps_completion_order gemini store extract props u ops w l
                Hops Hwf Hmap Hnd Hall) as (l' & sent & H1 & H2 & H3 & H4 & H5 & H6).
    exists l', sent. split_and!; try done.
    subst res. by rewrite H1, analyzedPagesListOf_completedInOrder.
  - intros r p a w0 [usr Hu] Ha.
    rewrite saveConsolidatedHistoryForPage_records, Hu. cbv zeta.
    by rewrite analyzedPagesListOf_set.
  - intros r w0 [usr Hu] Hne.
    rewrite saveConsolidatedHistory_records, Hu. cbv zeta.
    by destruct (analyzedPagesListOf _).
  - intros name l1. exists (sortNumbers (map pageNumber l1)). split_and!; try done.
    + apply StronglySorted_merge_sort; apply _.
    + apply merge_sort_Permutation.
  - intros name l1 l2 Hp. simpl. unfold pagesTopic.
    by rewrite (sortNumbers_perm (map pageNumber l1) (map pageNumber l2))
      by (by rewrite Hp).
Qed.

(** ** Sample sessions, run *)

Import Sample.



(** A consolidation run by closures that were created before the identifier
    was set, as the effect on the progress map is when it starts while the
    create call of the page is pending: it creates a second record and the
    identifier of the state changes. *)
Example stale_closure_creates_again :
  let w1 := world_of (runOps steady storeUp extract (props 3) reader
                        [OpAnalyzePage 1] (fresh 3)) in
  let stale := render (props 3) reader (withStudyHistoryId None w1) in
  let res := saveConsolidatedHistory storeUp stale w1 in
  studyHistoryId w1 = Some "history-0" ∧
  length (List.filter isCreate (events res)) = 1%nat ∧
  studyHistoryId (world_of res) = Some "history-1".
Proof. by vm_compute. Qed.

(** The batch is run by the closures of one render, which keep the
    identifier they captured: started without an identifier it issues one
    create call per page, each consolidation merges the pages that the
    captured Map object holds, and the identifier changes with every call. *)
Example batch_creates_per_page :
  let res := runOps steady storeUp extract (props 3) reader [OpAnalyzeAll] (fresh 3) in
  length (List.filter isCreate (events res)) = 3%nat ∧
  studyHistoryId (world_of res) = Some "history-2" ∧
  (ar_mainTopic <$> lastRecord (events res)) = Some "notes.pdf - Pages 1, 3".
Proof. by vm_compute. Qed.

Lemma C2_witness :
  ∃ l' sent,
    analyzedPagesListOf
      (pagesOf (world_of (runOps steady storeUp extract (props 3) reader
                            [OpAnalyzePage 3; OpAnalyzePage 1; OpConsolidate]
                            (fresh 3))))
    = [] ++ l' ∧
    Forall2 (mergeOf (file_name (p_file (props 3)))) sent
      (recordsOf (events (runOps steady storeUp extract (props 3) reader
                            [OpAnalyzePage 3; OpAnalyzePage 1; OpConsolidate]
                            (fresh 3)))) ∧
    StronglySorted prefix sent.
Proof.
  destruct (C2_merged_in_completion_order steady storeUp extract (props 3) reader
              [OpAnalyzePage 3; OpAnalyzePage 1; OpConsolidate] (fresh 3) [])
    as [(l' & sent & _ & _ & _ & Hlist & Hrecords & _ & Hsorted) _].
  - by repeat constructor.
  - simpl. lia.
  - reflexivity.
  - constructor.
  - constructor.
  - exists l', sent. split; [assumption|]. split; assumption.
Defined.

(** The pages 3 and 1 completed in that order: the progress map lists them
    in that order, and the three records sent merge page 3, then pages 3
    and 1, and pages 3 and 1 again for the effect. *)
Example records_follow_completion :
  let res := runOps steady storeUp extract (props 3) reader
               [OpAnalyzePage 3; OpAnalyzePage 1; OpConsolidate] (fresh 3) in
  map pageNumber (analyzedPagesListOf (pagesOf (world_of res))) = [3; 1] ∧
  map ar_mainTopic (recordsOf (events res))
  = ["notes.pdf - Pages 3"; "notes.pdf - Pages 1, 3"; "notes.pdf - Pages 1, 3"] ∧
  map ar_keyPoints (recordsOf (events res))
  = [["Key point of page 3"];
     ["Key point of page 3"; "Key point of page 1"];
     ["Page 3: Key point of page 3"; "Page 1: Key point of page 1"]].
Proof. by vm_compute. Qed.

(** Completing the units 3, 1, 2 and completing them 1, 2, 3 leaves the same
    units complete and two different merged records. *)
Lemma C2_counterexample :
  let first := runOps steady storeUp extract (props 3) reader
                 [OpAnalyzePage 3; OpAnalyzePage 1; OpAnalyzePage 2] (fresh 3) in
  let second := runOps steady storeUp extract (props 3) reader
                  [OpAnalyzePage 1; OpAnalyzePage 2; OpAnalyzePage 3] (fresh 3) in
  Forall (λ p, pageDone p (pagesOf (world_of first)) = true) [1; 2; 3] ∧
  Forall (λ p, pageDone p (pagesOf (world_of second)) = true) [1; 2; 3] ∧
  (ar_keyPoints <$> lastRecord (events first))
  = Some ["Key point of page 3"; "Key point of page 1"; "Key point of page 2"] ∧
  (ar_keyPoints <$> lastRecord (events second))
  = Some ["Key point of page 1"; "Key point of page 2"; "Key point of page 3"] ∧
  lastRecord (events first) ≠ lastRecord (events second).
Proof.
  vm_compute. split_and!; [by repeat constructor..|done|done|discriminate].
Qed.

Lemma C3_witness :
  retriesOnlyRateLimited
    (failures (events (analyzePage brokenOn3 storeUp extract
                         (render (props 5) reader (fresh 5)) 3 (fresh 5)))) = true.
Proof.
  apply (C3_retry_only_rate_limited brokenOn3 storeUp extract
           (render (props 5) reader (fresh 5)) 3 (fresh 5)).
Defined.

(** A failure that is not a rate limit ends the analysis after one client
    call; inside that call the service helper tried the model three times. *)
Example terminal_failure_is_not_retried :
  let res := analyzePage brokenOn3 storeUp extract
               (render (props 5) reader (fresh 5)) 3 (fresh 5) in
  failures (events res)
  = [Some "Gemini API call failed after 3 attempts. Last error: 500 Internal Server Error"] ∧
  completion res
  = Throw "Gemini API call failed after 3 attempts. Last error: 500 Internal Server Error" ∧
  modelCalls (net (world_of res)) = 3%nat.
Proof. by vm_compute. Qed.

Lemma C4_witness :
  completion (analyzeAllPages brokenOn3 storeUp extract
                (render (props 5) reader (fresh 5)) (fresh 5)) = Normal tt.
Proof.
  apply (C4_batch_analysis brokenOn3 storeUp extract
           (render (props 5) reader (fresh 5)) (fresh 5)).
  - reflexivity.
  - simpl. lia.
Defined.

(** Five pages, the model fails on page 3: pages 1 and 2 are complete, pages
    3 to 5 are not, no client call was made for pages 4 and 5, and the last
    notification names page 3. *)
Example batch_stops_at_page_3 :
  let res := analyzeAllPages brokenOn3 storeUp extract
               (render (props 5) reader (fresh 5)) (fresh 5) in
  map (λ p, pageDone p (pagesOf (world_of res))) [1; 2; 3; 4; 5]
  = [true; true; false; false; false] ∧
  analyzedPages (events res) = [1; 2; 3] ∧
  last (events res) = Some (EvToast toast_error (msgStopped 3)).
Proof. by vm_compute. Qed.

Lemma C5_witness :
  completion (analyzePage limited storeUp extract
                (render (props 5) reader (fresh 5)) 1 (fresh 5)) = Normal tt.
Proof.
  eapply (C5_rate_limited_once_then_success limited storeUp extract
            (render (props 5) reader (fresh 5)) 1 (fresh 5)).
  - reflexivity.
  - vm_compute. discriminate.
  - vm_compute. reflexivity.
  - vm_compute. reflexivity.
  - vm_compute. reflexivity.
Defined.

(** The rate-limited page: two client calls, 5150 ms apart. *)
Example rate_limited_page_timeline :
  let res := analyzePage limited storeUp extract
               (render (props 5) reader (fresh 5)) 1 (fresh 5) in
  map (λ c, (c.1.1, c.1.2)) (analyzeCalls (events res)) = [(0, 1); (5150, 1)] ∧
  retryDelays (events res) = [2000] ∧
  pageDone 1 (pagesOf (world_of res)) = true.
Proof. by vm_compute. Qed.

Lemma C6_witness :
  events (analyzePage steady storeUp extract
            (render (props 5) reader (fresh 5)) 4 (fresh 5))
  = [EvToast toast_warning (msgSkipping 4)].
Proof.
  apply (C6_blank_page steady storeUp extract
           (render (props 5) reader (fresh 5)) 4 (fresh 5)).
  - vm_compute. reflexivity.
  - reflexivity.
Defined.

Lemma C7_witness :
  studyHistoryId (mount (props 5) cached start 0) = Some "history-7".
Proof.
  apply (C7_recovered_identifier_updates steady storeUp extract (props 5) cached
           start 0 "history-7" reader 1 (analysisOf 1) []).
  - reflexivity.
  - vm_compute. reflexivity.
  - reflexivity.
Defined.

(** An identifier created by one mount is found by the next mount of the
    same file, whose first consolidation updates the record. *)
Example reload_recovers_identifier :
  let before := runOps steady storeUp extract (props 5) reader [OpAnalyzePage 1]
                  (fresh 5) in
  let reloaded := mount (props 5) (sessionStorage (world_of before)) start 1 in
  let after := runOps steady storeUp extract (props 5) reader [OpAnalyzePage 2]
                 reloaded in
  studyHistoryId reloaded = Some "history-0" ∧
  map isCreate (List.filter isStoreCall (events after)) = [false].
Proof. by vm_compute. Qed.

Lemma C9_witness :
  pagesOf (world_of (runOps steady storeDown extract (props 5) reader
                       [OpAnalyzePage 1; OpAnalyzeAll] (fresh 5)))
  = pagesOf (world_of (runOps steady storeUp extract (props 5) reader
                         [OpAnalyzePage 1; OpAnalyzeAll] (fresh 5))).
Proof.
  apply (C9_persistence_failure_is_harmless steady extract storeDown storeUp
           (props 5) reader [OpAnalyzePage 1; OpAnalyzeAll] (fresh 5)
           (render (props 5) reader (fresh 5)) 1 (analysisOf 1)).
Defined.

(** With the store down every page is still analysed and kept. *)
Example analysis_continues_without_store :
  let res := runOps steady storeDown extract (props 5) reader [OpAnalyzeAll]
               (fresh 5) in
  completion res = Normal tt ∧
  map (λ p, pageDone p (pagesOf (world_of res))) [1; 2; 3; 4; 5]
  = [true; true; true; true; true] ∧
  studyHistoryId (world_of res) = None.
Proof. by vm_compute. Qed.

(** ** Further sample runs *)

Lemma X1_witness :
  completion (generateContentWithRetry recovering "prompt" 2500 3 start)
  = Normal (ParsedValue (answer 5)).
Proof.
  apply (generateContentWithRetry_first_success recovering "prompt" 2500 3 start 2
           (ParsedValue (answer 5))).
  - vm_compute. lia.
  - intros [|[|j]] Hj; [exact I|exact I|lia].
  - reflexivity.
Defined.

Lemma X2_witness :
  sleepsOf (events (generateContentWithRetry alwaysLimited "prompt" 2500 3 start))
  = [1000; 2000].
Proof.
  apply (generateContentWithRetry_exhausted alwaysLimited "prompt" 2500 3 start).
  intros j _. exact I.
Defined.

Lemma X3_witness :
  ∃ k, (k < 3)%nat ∧
       answerAt answersNull start (pagePrompt "Text" 1 english) 2500 k
       = ModelOk ParsedNull.
Proof.
  destruct (analyzeIndividualPage_failure answersNull "Text" 1 english start
              (world_of (analyzeIndividualPage answersNull "Text" 1 english start))
              msgNullAnalysis
              (events (analyzeIndividualPage answersNull "Text" 1 english start)))
    as [(Hcalls & _)|(k & Hk & _ & Hnull & _)].
  - vm_compute. reflexivity.
  - vm_compute in Hcalls. discriminate.
  - by exists k.
Defined.

(** A model that answers [null] to a page with text: one client call and
    one model call, no retry, and the page is reported as failed after one
    attempt. *)
Example null_answer_is_terminal :
  let res := analyzePage answersNull storeUp extract
               (render (props 5) reader (fresh 5)) 1 (fresh 5) in
  completion res = Throw msgNullAnalysis ∧
  modelCalls (net (world_of res)) = 1%nat ∧
  length (analyzeCalls (events res)) = 1%nat ∧
  sleepsOf (events res) = [] ∧
  last (events res) = Some (EvToast toast_error (msgFailed 1 0)) ∧
  pageDone 1 (pagesOf (world_of res)) = false.
Proof. by vm_compute. Qed.

Lemma X4_witness :
  completion (analyzeIndividualPage recovering "Text" 1 english start)
  = Normal (analysisOfAnswer 1 (answer 1)).
Proof.
  apply (analyzeIndividualPage_success recovering "Text" 1 english start 2
           (ParsedValue (answer 1))).
  - lia.
  - intros [|[|j]] Hj; [exact I|exact I|lia].
  - vm_compute. reflexivity.
Defined.

Lemma X6_witness :
  sleepsOf (events (analyzePage alwaysLimited storeUp extract
                      (render (props 5) reader (fresh 5)) 1 (fresh 5)))
  = [1000; 2000; 2000; 1000; 2000; 4000; 1000; 2000].
Proof.
  apply (analyzePage_always_rate_limited alwaysLimited storeUp extract
           (λ _ _ _, ex_intro _ "429 Too Many Requests" (conj eq_refl eq_refl))
           (render (props 5) reader (fresh 5)) 1 (fresh 5)).
  - reflexivity.
  - vm_compute. discriminate.
Defined.

(** A page that is always rate limited costs nine model calls and fifteen
    seconds of waiting. *)
Example rate_limited_page_gives_up :
  let res := analyzePage alwaysLimited storeUp extract
               (render (props 5) reader (fresh 5)) 1 (fresh 5) in
  modelCalls (net (world_of res)) = 9%nat ∧
  foldr Z.add 0 (sleepsOf (events res)) = 15000 ∧
  pageDone 1 (pagesOf (world_of res)) = false.
Proof. by vm_compute. Qed.

Lemma X8_witness :
  pageDone 3 (pagesOf (world_of (runOps steady storeUp extract (props 3) reader
                                   [OpAnalyzeAll] after31))) = true.
Proof.
  apply (completed_pages_are_kept steady storeUp extract (props 3) reader
           [OpAnalyzeAll] (render (props 3) reader after31) 2 after31 3).
  vm_compute. reflexivity.
Defined.

Lemma X10_witness :
  studyHistoryId
    (mount (props 5)
       (sessionStorage
          (world_of (saveConsolidatedHistoryForPage storeUp
                       (render (props 5) reader (fresh 5)) 1 (analysisOf 1) (fresh 5))))
       start 1)
  = Some "history-0".
Proof.
  apply (created_identifier_survives_reload storeUp
           (render (props 5) reader (fresh 5)) 1 (analysisOf 1) (fresh 5)
           "history-0" (props 5) start 1).
  - by eexists.
  - reflexivity.
  - reflexivity.
  - vm_compute. reflexivity.
  - reflexivity.
  - reflexivity.
  - reflexivity.
Defined.

Lemma X11_witness :
  ∃ body final,
    events (analyzePage brokenOn3 storeUp extract
              (render (props 5) reader (fresh 5)) 3 (fresh 5))
    = body ++ [final] ∧ Forall notCompletion body ∧
    match completion (analyzePage brokenOn3 storeUp extract
                        (render (props 5) reader (fresh 5)) 3 (fresh 5)) with
    | Normal _ =>
        isCompletion final ∧
        pageDone 3 (pagesOf (world_of (analyzePage brokenOn3 storeUp extract
                                         (render (props 5) reader (fresh 5)) 3
                                         (fresh 5)))) = true
    | Throw _ =>
        (∃ k, final = EvToast toast_error (msgFailed 3 k)) ∧
        pagesOf (world_of (analyzePage brokenOn3 storeUp extract
                             (render (props 5) reader (fresh 5)) 3 (fresh 5)))
        = pagesOf (fresh 5) ∧
        List.filter isStoreCall
          (events (analyzePage brokenOn3 storeUp extract
                     (render (props 5) reader (fresh 5)) 3 (fresh 5))) = [] ∧
        studyHistoryId (world_of (analyzePage brokenOn3 storeUp extract
                                    (render (props 5) reader (fresh 5)) 3 (fresh 5)))
        = studyHistoryId (fresh 5)
    end.
Proof.
  apply (analyzePage_reports_outcome brokenOn3 storeUp extract
           (render (props 5) reader (fresh 5)) 3 (fresh 5)).
  reflexivity.
Defined.

Lemma X12_witness :
  pageDone 1 (pagesOf (world_of (analyzePage steady storeUp extract
                                   (render (props 5) reader (fresh 5)) 1 (fresh 5))))
  = true.
Proof.
  apply (analyzePage_once steady storeUp extract
           (render (props 5) reader (fresh 5)) 1 (fresh 5)).
  - vm_compute. reflexivity.
  - reflexivity.
Defined.

Lemma X13_witness :
  completion (analyzePage steady storeUp extract
                (render (props 5) reader (fresh 5)) 2 (fresh 5)) = Normal tt.
Proof.
  eapply (analyzePage_stores_answer steady storeUp extract
            (render (props 5) reader (fresh 5)) 2 (fresh 5)).
  - reflexivity.
  - vm_compute. discriminate.
  - vm_compute. reflexivity.
Defined.

Lemma X14_witness :
  pageAnalysesMapForFirestore (pagesOf after31) !! "3" = Some (analysisOf 3).
Proof.
  refine (eq_trans
            (proj1 (pageAnalysesMapForFirestore_lookup (pagesOf after31) _) 3) _).
  - apply (bool_decide_unpack _). by vm_compute.
  - vm_compute. reflexivity.
Defined.

Lemma X16_witness :
  1 ≤ currentPage (world_of (runNavOps steady storeUp extract (props 5) reader
                               [NavLoad; NavNext; NavJump (Some 9); NavPrevious;
                                NavJump None; NavAnalyzeAll; NavConsolidate]
                               freshNav)) ≤ 5.
Proof.
  apply (current_page_stays_in_range steady storeUp extract (props 5) reader
           [NavLoad; NavNext; NavJump (Some 9); NavPrevious;
            NavJump None; NavAnalyzeAll; NavConsolidate] freshNav).
  vm_compute. split; discriminate.
Defined.

(** Next, a jump outside the document, previous, and a jump to an empty
    field: the navigator goes to page 2, stays, goes back to page 1 and
    stays; pages 1 and 2 were analysed on the way. *)
Example navigation_session :
  let res := runNavOps steady storeUp extract (props 5) reader
               [NavAnalyze; NavNext; NavJump (Some 9); NavPrevious; NavJump None]
               freshNav in
  currentPage (world_of res) = 1 ∧
  map (λ p, pageDone p (pagesOf (nav_world (world_of res)))) [1; 2; 3]
  = [true; true; false].
Proof. by vm_compute. Qed.

Lemma X17_witness :
  1 ≤ quizEndPage (fold_left (editQuizPanel 10)
                     [EditStart (Some 8); EditEnd (Some 3); EditStart None]
                     (initialQuizPanel 10)) ≤ 10.
Proof.
  apply (quiz_range_stays_in_document 10
           [EditStart (Some 8); EditEnd (Some 3); EditStart None]).
  lia.
Defined.

(** An edit of the start does not move the end: the range handed to the
    quiz can begin after it ends. *)
Example quiz_range_can_be_reversed :
  handleStartQuiz (fold_left (editQuizPanel 10) [EditStart (Some 8)]
                     (initialQuizPanel 10))
  = (8, 5, "medium").
Proof. reflexivity. Qed.

Lemma X19_witness :
  ∃ o, Quiz.formatQuestion questionE = Normal o ∧
       Quiz.formatQuestion (Quiz.JObj o) = Normal o.
Proof.
  eexists. split; [vm_compute; reflexivity|].
  eapply (sanitiser_keeps_valid_records questionE). vm_compute. reflexivity.
Defined.

Lemma X21_witness : Ocr.matchAll ocrText = map snd ocrPages.
Proof.
  apply (matchAll_reads_pages ocrPages Str.nl).
  - repeat constructor.
  - reflexivity.
Defined.

(** The comprehensive analysis of the three pages: page 2 is skipped, the
    call for page 3 fails, and the result holds page 1 alone. *)
Example comprehensive_sample :
  let res := analyzePdfContentComprehensive ocrModels english ocrText in
  map pageNumber (c_pageAnalyses res) = [1] ∧
  overallSummary res
  = "Comprehensive analysis of 1 pages completed, identifying 1 total key points.".
Proof. by vm_compute. Qed.

Lemma X24_witness :
  completion (analyzeAllPages steady storeUp extract
                (render (props 3) reader finished3) finished3) = Normal tt.
Proof.
  apply (analyzeAllPages_on_finished_document steady storeUp extract
           (render (props 3) reader finished3) finished3).
  intros j Hj. change (totalPages (render (props 3) reader finished3)) with 3 in Hj.
  assert (Hcases : j = 1 ∨ j = 2 ∨ j = 3) by lia.
  destruct Hcases as [->|[->| ->]]; vm_compute; reflexivity.
Defined.

Lemma X25_witness :
  currentPage (world_of (runNavOp steady storeUp extract (props 5) reader
                           (NavJump (Some 2)) freshNav)) = 2.
Proof.
  apply (jump_analyses_the_page steady storeUp extract (props 5) reader 2 freshNav).
  simpl. lia.
Defined.

Lemma X26_witness :
  recordsOf (events (analyzePage steady storeUp extract
                       (render (props 5) reader (fresh 5)) 1 (fresh 5)))
  = match completion (analyzePage steady storeUp extract
                        (render (props 5) reader (fresh 5)) 1 (fresh 5)) with
    | Normal _ =>
        [analysisResultForPage (file_name (file (render (props 5) reader (fresh 5))))
           (analyzedPagesListOf
              (pagesOf (world_of (analyzePage steady storeUp extract
                                    (render (props 5) reader (fresh 5)) 1
                                    (fresh 5)))))]
    | Throw _ => []
    end.
Proof.
  apply (stored_record_matches_progress steady storeUp extract
           (render (props 5) reader (fresh 5)) 1 (fresh 5)).
  - reflexivity.
  - simpl. lia.
  - reflexivity.
  - vm_compute. discriminate.
  - by eexists.
Defined.

Lemma X27_witness :
  Z.of_nat (analyzedPagesCount
              (pagesOf (nav_world
                 (world_of (runNavOps steady storeUp extract (props 5) reader
                              [NavLoad; NavNext; NavAnalyzeAll; NavJump (Some 7)]
                              freshNav))))) ≤ 5.
Proof.
  apply (progress_stays_within_document steady storeUp extract (props 5) reader
           [NavLoad; NavNext; NavAnalyzeAll; NavJump (Some 7)] freshNav).
  - vm_compute. split; discriminate.
  - split; constructor.
Defined.

(** Loading, next and Analyze All on a document of five pages: every page
    ends analysed and the progress shows five pages. *)
Example whole_document_session :
  let res := runNavOps steady storeUp extract (props 5) reader
               [NavLoad; NavNext; NavAnalyzeAll] freshNav in
  analyzedPagesCount (pagesOf (nav_world (world_of res))) = 5%nat ∧
  currentPage (world_of res) = 2.
Proof. by vm_compute. Qed.

Lemma X28_witness :
  Forall (λ e, isAllDone e = false)
    (events (analyzeAllPages steady storeUp extract
               (render (props 3) reader (fresh 3)) (fresh 3))).
Proof.
  apply (analyzeAllPages_completion_notice steady storeUp extract
           (render (props 3) reader (fresh 3)) (fresh 3)).
  - split; vm_compute; [reflexivity|constructor].
  - vm_compute. reflexivity.
Defined.

(** Analyze All on a fresh document of three pages analyses the three pages
    and ends on the notification of the third page; on a document of one
    page it ends on the closing notification. *)
Example batch_of_three_is_not_announced :
  let r3 := render (props 3) reader (fresh 3) in
  let r1 := render (props 1) reader (fresh 1) in
  let res3 := analyzeAllPages steady storeUp extract r3 (fresh 3) in
  let res1 := analyzeAllPages steady storeUp extract r1 (fresh 1) in
  map pageNumber (analyzedPagesListOf (pagesOf (world_of res3))) = [1; 2; 3] ∧
  last (events res3) = Some (EvToast toast_success (msgAnalyzed 3)) ∧
  last (events res1) = Some (EvToast toast_success msgAllDone).
Proof. by vm_compute. Qed.
